(** * InternVL data pipeline: rank partitioning, shard index, tiling, assembly

    A shallow embedding of the sample-loading code of
    - [internvl_chat/eval/refcoco/evaluate_grounding.py] (InferenceSampler),
    - [internvl_chat_dev/internvl/train/interleaved_dataset.py],
    - [internvl_chat_dev/internvl/train/internvl_chat_pretrain.py]
      (LazySupervisedDataset),
    followed by the properties proved about it.

    Python integers are [Z]; [//] and [%] are [Z.div] and [Z.modulo] (both
    floor towards minus infinity, as in Python); Python floats are the
    IEEE-754 binary64 numbers of [PrimFloat]; strings are [string]; a raised
    exception is [Raise e] in the result type [res]. *)

From Stdlib Require Import ZArith String Ascii Bool Lia Arith List.
From Stdlib Require Import Floats Uint63 DecimalString DecimalPos DecimalZ.
From Stdlib Require Import Permutation.
Import ListNotations.
Local Open Scope string_scope.
Local Open Scope list_scope.
Local Open Scope Z_scope.

(* ================================================================== *)
(** * Part I: definitions *)
(* ================================================================== *)

(** ** Python exceptions and results *)

Inductive exn : Type :=
| ZeroDivisionError
| IndexError
| TypeError
| NameError
| AttributeError
| UnboundLocalError
| NotImplementedError (msg : string)
| AssertionError (msg : string)
| Exception_ (msg : string)
| JSONDecodeError
| KeyError (key : string)
| OSError (msg : string)
| ValueError (msg : string) (cause : exn).

Inductive res (A : Type) : Type :=
| Ok (a : A)
| Raise (e : exn).
Arguments Ok {A} a.
Arguments Raise {A} e.

Definition bind {A B : Type} (m : res A) (k : A -> res B) : res B :=
  match m with
  | Ok a => k a
  | Raise e => Raise e
  end.

Notation "x <- m ;; k" := (bind m (fun x => k))
  (at level 61, m at next level, right associativity).

(** [assert c, msg] *)
Definition assert_ (c : bool) (msg : string) : res unit :=
  if c then Ok tt else Raise (AssertionError msg).

(** ** Python built-ins used by the code *)

Module Py.

(** [range(a, b)] as the list of its elements. *)
Definition range (a b : Z) : list Z :=
  map (fun k => a + Z.of_nat k) (seq 0 (Z.to_nat (b - a))).

(** [range(a, b, step)] for a positive [step]. *)
Definition range_step (a b step : Z) : list Z :=
  map (fun k => a + Z.of_nat k * step)
      (seq 0 (Z.to_nat ((b - a + step - 1) / step))).

Definition len {A : Type} (l : list A) : Z := Z.of_nat (length l).

(** Clamping of a slice bound, as CPython's [PySlice_AdjustIndices] does
    for step 1: a negative bound counts from the end. *)
Definition adjust (n k : Z) : Z :=
  if k <? 0 then Z.max (k + n) 0 else Z.min k n.

(** [l[a:b]] *)
Definition slice {A : Type} (l : list A) (a b : Z) : list A :=
  let a' := adjust (len l) a in
  let b' := adjust (len l) b in
  firstn (Z.to_nat (b' - a')) (skipn (Z.to_nat a') l).

(** [l[:b]] *)
Definition slice_to {A : Type} (l : list A) (b : Z) : list A :=
  slice l 0 b.

(** [l[i]], with Python's negative indices and [IndexError]. *)
Definition index {A : Type} (l : list A) (i : Z) : res A :=
  let j := if i <? 0 then i + len l else i in
  if (j <? 0) || (len l <=? j) then Raise IndexError
  else match nth_error l (Z.to_nat j) with
       | Some a => Ok a
       | None => Raise IndexError
       end.

(** [sum(l)] on integers. *)
Definition sum (l : list Z) : Z := fold_left Z.add l 0.

(** [int(b)] of a boolean. *)
Definition int_of_bool (b : bool) : Z := if b then 1 else 0.

(** [a // b] and [a % b], raising on a zero divisor. *)
Definition floordiv (a b : Z) : res Z :=
  if b =? 0 then Raise ZeroDivisionError else Ok (a / b).
Definition mod_ (a b : Z) : res Z :=
  if b =? 0 then Raise ZeroDivisionError else Ok (a mod b).

End Py.

(** ** Python string methods used by the code *)

Notation "a +++ b" := (String.append a b)
  (at level 60, right associativity).

Module PyStr.

(** The two-character literals of the source that need a line feed. *)
Definition LF : string := String (ascii_of_nat 10) EmptyString.

Definition len (s : string) : Z := Z.of_nat (String.length s).

(** [s.startswith(p)] *)
Definition startswith (s p : string) : bool := String.prefix p s.

(** [s.endswith(p)] *)
Definition endswith (s p : string) : bool :=
  let n := String.length s in
  let m := String.length p in
  (m <=? n)%nat && String.eqb (String.substring (n - m) m s) p.

(** [s[a:b]] *)
Definition slice (s : string) (a b : Z) : string :=
  string_of_list_ascii (Py.slice (list_ascii_of_string s) a b).

(** [s[:-1]] *)
Definition drop_last (s : string) : string := slice s 0 (-1).

(** [c.isspace()] for the code points below 256: 9-13, 28-32, 133, 160. *)
Definition isspace (c : ascii) : bool :=
  let n := nat_of_ascii c in
  ((9 <=? n) && (n <=? 13) || (28 <=? n) && (n <=? 32)
   || (n =? 133) || (n =? 160))%nat.

Fixpoint lstrip_chars (l : list ascii) : list ascii :=
  match l with
  | c :: rest => if isspace c then lstrip_chars rest else l
  | [] => []
  end.

(** [s.strip()] *)
Definition strip (s : string) : string :=
  string_of_list_ascii
    (rev (lstrip_chars (rev (lstrip_chars (list_ascii_of_string s))))).

(** [s * n] *)
Definition repeat (s : string) (n : Z) : string :=
  String.concat EmptyString (List.repeat s (Z.to_nat n)).

(** [sep.join(l)] *)
Definition join (sep : string) (l : list string) : string :=
  String.concat sep l.

(** [s.replace(old, new, count)] for a non-empty [old] (the only use the
    code makes of it): left to right, non-overlapping; a negative [count]
    replaces every occurrence.  [skip] counts the characters of a matched
    [old] still to be dropped. *)
Fixpoint replace_go (old new : string) (count : Z) (skip : nat) (s : string)
  : string :=
  match s with
  | EmptyString => EmptyString
  | String c rest =>
      match skip with
      | S k => replace_go old new count k rest
      | O =>
          if negb (count =? 0) && String.prefix old s
          then new +++ replace_go old new (count - 1)
                                  (String.length old - 1) rest
          else String c (replace_go old new count 0 rest)
      end
  end.

Definition replace_count (s old new : string) (count : Z) : string :=
  replace_go old new count 0 s.

(** [s.replace(old, new)] *)
Definition replace (s old new : string) : string :=
  replace_count s old new (-1).

(** [str(n)] of an integer, as f-strings print it. *)
Definition of_Z (n : Z) : string := NilZero.string_of_int (Z.to_int n).

(** [os.path.join(a, b)] on POSIX for two components. *)
Definition path_join (a b : string) : string :=
  if startswith b "/" then b
  else if String.eqb a EmptyString || endswith a "/" then a +++ b
  else a +++ "/" +++ b.

End PyStr.

(** ** InferenceSampler (evaluate_grounding.py, lines 82-105) *)

Module InferenceSampler.

(** [shard_sizes = [shard_size + int(r < left) for r in range(world_size)]] *)
Definition shard_sizes (shard_size left world_size : Z) : list Z :=
  map (fun r => shard_size + Py.int_of_bool (r <? left))
      (Py.range 0 world_size).

(** [_get_local_indices(total_size, world_size, rank)] (lines 91-99), up
    to its last line: the two bounds of the [range(begin, end)] it
    returns. *)
Definition _get_local_bounds (total_size world_size rank : Z)
  : res (Z * Z) :=
  shard_size <- Py.floordiv total_size world_size ;;
  left <- Py.mod_ total_size world_size ;;
  let sizes := shard_sizes shard_size left world_size in
  let begin_ := Py.sum (Py.slice_to sizes rank) in
  let end_ := Z.min (Py.sum (Py.slice_to sizes (rank + 1))) total_size in
  Ok (begin_, end_).

Definition _get_local_indices (total_size world_size rank : Z)
  : res (list Z) :=
  be <- _get_local_bounds total_size world_size rank ;;
  Ok (Py.range (fst be) (snd be)).

(** Specification side: the closed form of the prefix sums of
    [shard_sizes], the boundary between rank [r - 1] and rank [r]. *)
Definition boundary (total_size world_size r : Z) : Z :=
  r * (total_size / world_size) + Z.min r (total_size mod world_size).

End InferenceSampler.

(** ** Monadic iteration *)

(** [[f(x) for x in l]] where [f] may raise. *)
Fixpoint mapM {A B : Type} (f : A -> res B) (l : list A) : res (list B) :=
  match l with
  | [] => Ok []
  | x :: xs => y <- f x ;; ys <- mapM f xs ;; Ok (y :: ys)
  end.

(** ** Python floats *)

Module PyFloat.

(** [float(n)] of an integer; exact for [|n| < 2^53], which covers every
    image dimension and grid size. *)
Definition of_int (n : Z) : float :=
  if n <? 0 then PrimFloat.opp (PrimFloat.of_uint63 (Uint63.of_Z (- n)))
  else PrimFloat.of_uint63 (Uint63.of_Z n).

(** [a / b] on integers (true division). *)
Definition truediv (a b : Z) : res float :=
  if b =? 0 then Raise ZeroDivisionError
  else Ok (PrimFloat.div (of_int a) (of_int b)).

(** [float('inf')] *)
Definition inf : float := PrimFloat.infinity.

End PyFloat.

(** ** PIL images, by their geometry *)

Module Image.

Inductive image : Type :=
| Decoded (name : string) (width height : Z)
| Resized (src : image) (width height : Z)
| Cropped (src : image) (left upper right lower : Z).

(** [image.size] *)
Definition size (im : image) : Z * Z :=
  match im with
  | Decoded _ w h => (w, h)
  | Resized _ w h => (w, h)
  | Cropped _ l u r lo => (r - l, lo - u)
  end.

(** [image.resize((w, h))] *)
Definition resize (im : image) (wh : Z * Z) : image :=
  Resized im (fst wh) (snd wh).

(** [image.crop((left, upper, right, lower))] *)
Definition crop (im : image) (box : Z * Z * Z * Z) : image :=
  let '(l, u, r, lo) := box in Cropped im l u r lo.

End Image.

(** ** LazySupervisedDataset (internvl_chat_pretrain.py, lines 197-395) *)

Module LazySupervisedDataset.
Import Image.

Definition ratio : Type := (Z * Z)%type.

Definition ratio_eqb (a b : ratio) : bool :=
  (fst a =? fst b) && (snd a =? snd b).

(** The generator inside [set(...)] of [dynamic_preprocess], in the order
    it produces its elements (with repetitions). *)
Definition target_ratio_gen (min_num max_num : Z) : list ratio :=
  flat_map (fun n =>
    flat_map (fun i =>
      flat_map (fun j =>
        if (i * j <=? max_num) && (i * j >=? min_num) then [(i, j)] else [])
        (Py.range 1 (n + 1)))
      (Py.range 1 (n + 1)))
    (Py.range min_num (max_num + 1)).

(** What [set(...)] may do to the generated list: keep every element once,
    in an order of its own (the iteration order of a CPython set). *)
Definition set_iteration (order : list ratio -> list ratio) : Prop :=
  forall l, NoDup (order l) /\ (forall x, In x (order l) <-> In x l).

(** One iteration order: first occurrences, in generation order. *)
Fixpoint first_occurrences (l : list ratio) (seen : list ratio) : list ratio :=
  match l with
  | [] => []
  | x :: xs =>
      if existsb (ratio_eqb x) seen then first_occurrences xs seen
      else x :: first_occurrences xs (x :: seen)
  end.

Definition generation_order (l : list ratio) : list ratio :=
  first_occurrences l [].

(** Another one: the same elements, last generated first. *)
Definition reverse_order (l : list ratio) : list ratio :=
  rev (generation_order l).

Section Methods.

(** [self.image_size], [self.use_thumbnail] *)
Variable image_size : Z.
Variable use_thumbnail : bool.
(** The iteration order of the set of candidate grids. *)
Variable set_order : list ratio -> list ratio.

(** The body of the [for ratio in target_ratios] loop; the state is
    [(best_ratio_diff, best_ratio)]. *)
Definition closest_step (aspect_ratio : float) (st : float * ratio)
  (r : ratio) : res (float * ratio) :=
  target_aspect_ratio <- PyFloat.truediv (fst r) (snd r) ;;
  let ratio_diff :=
    PrimFloat.abs (PrimFloat.sub aspect_ratio target_aspect_ratio) in
  if PrimFloat.ltb ratio_diff (fst st) then Ok (ratio_diff, r) else Ok st.

Fixpoint closest_loop (aspect_ratio : float) (target_ratios : list ratio)
  (st : float * ratio) : res (float * ratio) :=
  match target_ratios with
  | [] => Ok st
  | r :: rs =>
      st' <- closest_step aspect_ratio st r ;;
      closest_loop aspect_ratio rs st'
  end.

(** The two special cases applied after the loop. *)
Definition special_cases (best_ratio : ratio) (area : Z) : ratio :=
  let best_ratio :=
    if ratio_eqb best_ratio (2, 3) || ratio_eqb best_ratio (3, 2) then
      let new_area := image_size * image_size * 4 in
      if area <? new_area then (2, 2) else best_ratio
    else best_ratio in
  if ratio_eqb best_ratio (1, 1) || ratio_eqb best_ratio (2, 2) then
    if area <? image_size * image_size then (1, 1) else (2, 2)
  else best_ratio.

(** [find_closest_aspect_ratio(aspect_ratio, target_ratios, width, height)]
    (lines 249-268) *)
Definition find_closest_aspect_ratio (aspect_ratio : float)
  (target_ratios : list ratio) (width height : Z) : res ratio :=
  let area := width * height in
  st <- closest_loop aspect_ratio target_ratios (PyFloat.inf, (1, 1)) ;;
  Ok (special_cases (snd st) area).

(** Lines 271-281 of [dynamic_preprocess]: the grid chosen for an image
    of the given size. *)
Definition best_grid (orig_width orig_height min_num max_num : Z)
  : res ratio :=
  aspect_ratio <- PyFloat.truediv orig_width orig_height ;;
  let target_ratios := set_order (target_ratio_gen min_num max_num) in
  find_closest_aspect_ratio aspect_ratio target_ratios orig_width orig_height.

(** The crop box of tile [i]. *)
Definition tile_box (target_width i : Z) : res (Z * Z * Z * Z) :=
  cols <- Py.floordiv target_width image_size ;;
  x <- Py.mod_ i cols ;;
  y <- Py.floordiv i cols ;;
  Ok (x * image_size, y * image_size,
      (x + 1) * image_size, (y + 1) * image_size).

(** [dynamic_preprocess(image, min_num, max_num)] (lines 270-305) *)
Definition dynamic_preprocess (image : image) (min_num max_num : Z)
  : res (list Image.image) :=
  let '(orig_width, orig_height) := size image in
  target_aspect_ratio <- best_grid orig_width orig_height min_num max_num ;;
  let target_width := image_size * fst target_aspect_ratio in
  let target_height := image_size * snd target_aspect_ratio in
  let blocks := fst target_aspect_ratio * snd target_aspect_ratio in
  let resized_img := resize image (target_width, target_height) in
  processed_images <-
    mapM (fun i => box <- tile_box target_width i ;;
                   Ok (crop resized_img box))
         (Py.range 0 blocks) ;;
  _ <- assert_ (Py.len processed_images =? blocks) EmptyString ;;
  if use_thumbnail && negb (Py.len processed_images =? 1) then
    let thumbnail_img := resize image (image_size, image_size) in
    Ok (processed_images ++ [thumbnail_img])
  else Ok processed_images.

End Methods.

(** *** Auxiliary definitions for the proofs about square images *)

(** The score of grid [r] against an aspect ratio of exactly 1. *)
Definition score_of_square (r : ratio) : float :=
  PrimFloat.abs
    (PrimFloat.sub 1%float
       (PrimFloat.div (PyFloat.of_int (fst r)) (PyFloat.of_int (snd r)))).

(** What the loop needs to know about that score: it is never below zero,
    it is zero for a square grid and above zero for any other. *)
Definition score_of_square_ok (r : ratio) : bool :=
  negb (PrimFloat.ltb (score_of_square r) 0%float) &&
  (if fst r =? snd r then PrimFloat.Leibniz.eqb (score_of_square r) 0%float
   else PrimFloat.ltb 0%float (score_of_square r)).

(** The grids with at most eight columns and rows. *)
Definition small_grids : list ratio :=
  list_prod (Py.range 1 9) (Py.range 1 9).

(** The loop state once a square grid has won (score zero and one of the
    two square grids of at most eight tiles), and before that (any score
    above zero). *)
Definition square_won (st : float * ratio) : Prop :=
  fst st = 0%float /\ (snd st = (1, 1) \/ snd st = (2, 2)).

Definition square_pending (st : float * ratio) : Prop :=
  PrimFloat.ltb 0%float (fst st) = true.

(** *** Rank slicing of the annotation file *)

(** The part of [__init__] that keeps this rank's lines of the file
    (lines 214-223); [lines] is what [f.readlines()] returned. *)
Definition init_raw_data (lines : list string) (total_ranks current_rank : Z)
  : res (list string) :=
  let total_lines := Py.len lines in
  lines_per_rank <- Py.floordiv total_lines total_ranks ;;
  let start_line := lines_per_rank * current_rank in
  let end_line := start_line + lines_per_rank in
  Ok (Py.slice lines start_line end_line).

(** [__len__] (lines 246-247) *)
Definition __len__ (raw_data : list string) (world_size : Z) : Z :=
  Py.len raw_data * world_size.

Section GetItem.

(** The tensor bundle, and the two bodies of the [try] statement of
    [__getitem__] as functions of the line they read: the [try] body
    ([json.loads] and one of the two [..._get_item]), and the [except]
    body up to the redraw ([json.loads] again and the report). *)
Variable bundle : Type.
Variable try_body : string -> res bundle.
Variable except_body : string -> res unit.

(** [__getitem__(i)] (lines 375-395): [draws] are the successive results of
    [random.randint(0, len(self.raw_data) - 1)]; the result lists the
    positions of [self.raw_data] that were read, and is [None] when the
    loop has not ended after [fuel] rounds or the draws ran out. *)
Fixpoint getitem_loop (fuel : nat) (raw_data : list string) (i : Z)
  (draws : list Z) (reads : list Z) : list Z * option (res bundle) :=
  match fuel with
  | O => (reads, None)
  | S fuel' =>
      let reads := reads ++ [i] in
      let attempt := line <- Py.index raw_data i ;; try_body line in
      match attempt with
      | Ok ret => (reads, Some (Ok ret))
      | Raise _ =>
          match (line <- Py.index raw_data i ;; except_body line) with
          | Raise e => (reads, Some (Raise e))
          | Ok _ =>
              match draws with
              | [] => (reads, None)
              | d :: draws' => getitem_loop fuel' raw_data d draws' reads
              end
          end
      end
  end.

Definition __getitem__ (fuel : nat) (raw_data : list string) (i : Z)
  (draws : list Z) : list Z * option (res bundle) :=
  match Py.mod_ i (Py.len raw_data) with
  | Raise e => ([], Some (Raise e))
  | Ok i => getitem_loop fuel raw_data i draws []
  end.

End GetItem.

End LazySupervisedDataset.

(** ** JSON-Lines loading (interleaved_dataset.py, lines 44-83) *)

Section JsonLines.

(** The type of the non-null values [json.loads] returns, [json.loads]
    itself ([Ok None] is the JSON value [null], Python's [None]), and the
    reading of the lines of a file, local or remote (lines 61-73 of
    [load_jsonl]); lines are text, as [open(path, 'r').readlines()] gives
    them. *)
Variable R : Type.
Variable json_loads : string -> res (option R).
Variable read_lines : string -> res (list string).

(** The [while _try_times < try_times] loop of [load_json_line], entered
    with [n] attempts left; it ends with the values of [data] and
    [line_str]. *)
Fixpoint load_json_line_loop (n : nat) (line_str : string)
  : option R * string :=
  match n with
  | O => (None, line_str)
  | S n' =>
      match json_loads line_str with
      | Ok data => (data, line_str)
      | Raise _ => load_json_line_loop n' (PyStr.drop_last line_str)
      end
  end.

(** [load_json_line(line_str, try_times)]; with no attempt at all, [data]
    is read before it is assigned. *)
Definition load_json_line (line_str : string) (try_times : Z) : res R :=
  if try_times <=? 0 then Raise UnboundLocalError
  else
    let '(data, line_str) :=
      load_json_line_loop (Z.to_nat try_times) line_str in
    match data with
    | None => Raise (Exception_ ("Failed to get " +++ line_str))
    | Some data => Ok data
    end.

(** Specification side: [line] after [k] cuts of its last character, and
    a text that [json.loads] rejects. *)
Definition trims (k : nat) (line : string) : string :=
  Nat.iter k PyStr.drop_last line.

Definition fails (s : string) : Prop := exists e, json_loads s = Raise e.

(** The [for line in lines] loop of [load_jsonl]. *)
Fixpoint load_jsonl_loop (lines : list string) (data : list R)
  : res (list R) :=
  match lines with
  | [] => Ok data
  | line :: rest =>
      if PyStr.len (PyStr.strip line) >? 2 then
        match load_json_line line 20 with
        | Ok sample => load_jsonl_loop rest (data ++ [sample])
        | Raise e => Raise (ValueError ("Failed to load line: " +++ line) e)
        end
      else load_jsonl_loop rest data
  end.

(** [load_jsonl(jsonl_url_or_path, _client)] *)
Definition load_jsonl (jsonl_url_or_path : string) : res (list R) :=
  lines <- read_lines jsonl_url_or_path ;;
  load_jsonl_loop lines [].

End JsonLines.

(** [partition_for_rank(all_rank_item_list, rank, world_num)] for a
    positive [world_num]. *)
Definition partition_for_rank {A : Type} (all_rank_item_list : list A)
  (rank world_num : Z) : res (list A) :=
  mapM (fun idx => Py.index all_rank_item_list idx)
       (Py.range_step rank (Py.len all_rank_item_list) world_num).

(** ** InterleavedDataset (interleaved_dataset.py, lines 100-307) *)

Module InterleavedDataset.

(** One metadata entry (a dictionary of strings). *)
Definition Meta : Type := list (string * string).

(** The ['metadata'] field: a list, or a string still to be decoded. *)
Inductive MetaField : Type :=
| MetaList (l : list (option Meta))
| MetaStr (s : string).

(** An interleaved record; ['metadata'] and ['valid_image'] may be absent. *)
Record Sample : Type := {
  images : list (option string);
  texts : list (option string);
  metadata : option MetaField;
  valid_image : option (list bool)
}.

(** The tokenizer: the call [tokenizer(text, max_length=.., truncation=True,
    padding=False)] gives the row of token ids. *)
Record Tokenizer : Type := {
  encode : string -> Z -> list Z;
  model_max_length : Z;
  convert_tokens_to_ids : string -> Z;
  pad_token_id : Z
}.

(** What the dataset calls and does not define: the constants of
    [internvl.train.constants], the storage, [json], [hashlib],
    [random.Random], PIL, [build_transform] and the tokenizers.
    [module_tokenizer] is the module-level name [tokenizer] that
    [getitem] reads next to [self.tokenizer]; it is bound when the file
    runs as a script. *)
Record Env : Type := {
  G : Type;
  Img : Type;
  Tensor : Type;
  IMG_START_TOKEN : string;
  IMG_END_TOKEN : string;
  IMG_CONTEXT_TOKEN : string;
  json_loads : string -> res (option Sample);
  json_loads_metadata : string -> res (option (list (option Meta)));
  read_lines : string -> res (list string);
  load_json : string -> res (list Sample);
  sha256_hexdigest : string -> string;
  Random : Z -> G;
  shuffle : forall A : Type, G -> list A -> list A * G;
  image_open : string -> res Img;
  transform : Img -> Tensor;
  self_tokenizer : Tokenizer;
  module_tokenizer : option Tokenizer
}.

(** A dictionary with string keys, in insertion order. *)
Definition dict (V : Type) : Type := list (string * V).

Fixpoint dict_get {V : Type} (d : dict V) (k : string) : res V :=
  match d with
  | [] => Raise (KeyError k)
  | (k', v) :: rest => if String.eqb k' k then Ok v else dict_get rest k
  end.

Fixpoint dict_set {V : Type} (d : dict V) (k : string) (v : V) : dict V :=
  match d with
  | [] => [(k, v)]
  | (k', v') :: rest =>
      if String.eqb k' k then (k', v) :: rest
      else (k', v') :: dict_set rest k v
  end.

(** The attributes set once by [__init__]. *)
Record Dataset : Type := {
  data_path : string;
  image_path : string;
  max_num_images : Z;
  train_num_samples : option Z;
  dataset_resampled : bool;
  num_image_token : Z;
  shard_mode : bool;
  num_samples_each_shard : Z;
  _length : Z;
  shard_order : list Z;
  shard_id_range : dict (Z * Z)
}.

(** The tensor bundle [getitem] returns. *)
Record Bundle (E : Env) : Type := {
  input_ids : list Z;
  labels : list Z;
  attention_mask : list bool;
  pixel_values : list (Tensor E);
  image_flags : list Z
}.
Arguments Build_Bundle {E}.
Arguments input_ids {E}.
Arguments labels {E}.
Arguments attention_mask {E}.
Arguments pixel_values {E}.
Arguments image_flags {E}.

(** The attributes that [load_data] rebinds, and the generator. *)
Record State (E : Env) : Type := {
  current_shard_name : string;
  current_shard_data : list Sample;
  random : G E
}.
Arguments Build_State {E}.
Arguments current_shard_name {E}.
Arguments current_shard_data {E}.
Arguments random {E}.

(** [f'data0417_shuffled_shard_{k}.jsonl'] *)
Definition shard_file (k : Z) : string :=
  "data0417_shuffled_shard_" +++ PyStr.of_Z k +++ ".jsonl".

(** Specification side: the entries of [shard_id_range] for the shards of
    [shard_order] from position [i] on, when no shard occurs twice. *)
Fixpoint shard_entries (num_samples_each_shard : Z) (shard_order : list Z)
  (i : Z) : dict (Z * Z) :=
  match shard_order with
  | [] => []
  | k :: rest =>
      (shard_file k,
       (num_samples_each_shard * i, num_samples_each_shard * (i + 1) - 1))
      :: shard_entries num_samples_each_shard rest (i + 1)
  end.

(** [deepcopy]: values are immutable here, a copy is the value. *)
Definition deepcopy {A : Type} (a : A) : A := a.

Section Methods.

Variable E : Env.

(** The dictionary comprehension of [shard_id_range]. *)
Definition build_shard_id_range (num_samples_each_shard : Z)
  (shard_order : list Z) : res (dict (Z * Z)) :=
  fold_left
    (fun acc i =>
       d <- acc ;;
       k <- Py.index shard_order i ;;
       Ok (dict_set d (shard_file k)
             (num_samples_each_shard * i,
              num_samples_each_shard * (i + 1) - 1)))
    (Py.range 0 (Py.len shard_order)) (Ok []).

(** [__init__] (lines 102-144), for the attributes the methods below
    read. *)
Definition __init__ (annotation root : string) (num_image_token : Z)
  (max_num_images : Z) (train_num_samples : option Z)
  (dataset_resampled : bool) (seed : Z)
  : res (Dataset * State E) :=
  let num_samples_each_shard := 34190 in
  let _length := num_samples_each_shard * 6144 in
  let random := Random E seed in
  let shard_order := Py.range 0 6144 in
  shard_order <- partition_for_rank shard_order 0 1 ;;
  let '(shard_order, random) :=
    if dataset_resampled then shuffle E Z random shard_order
    else (shard_order, random) in
  shard_id_range <- build_shard_id_range num_samples_each_shard shard_order ;;
  first <- Py.index shard_order 0 ;;
  let current_shard_name := shard_file first in
  current_shard_data <-
    load_jsonl Sample (json_loads E) (read_lines E)
      (PyStr.path_join annotation current_shard_name) ;;
  let '(current_shard_data, random) :=
    shuffle E Sample random current_shard_data in
  Ok ({| data_path := annotation;
         image_path := root;
         max_num_images := max_num_images;
         train_num_samples := train_num_samples;
         dataset_resampled := dataset_resampled;
         num_image_token := num_image_token;
         shard_mode := true;
         num_samples_each_shard := num_samples_each_shard;
         _length := _length;
         shard_order := shard_order;
         shard_id_range := shard_id_range |},
      {| current_shard_name := current_shard_name;
         current_shard_data := current_shard_data;
         random := random |}).

(** [load_ann_file(file_path)] (lines 146-152) *)
Definition load_ann_file (file_path : string) : res (list Sample) :=
  if PyStr.endswith file_path ".json" then load_json E file_path
  else if PyStr.endswith file_path ".jsonl" then
    load_jsonl Sample (json_loads E) (read_lines E) file_path
  else Raise (NotImplementedError
                ("Unsupported annotation file format: " +++ file_path)).

(** [__len__] (lines 154-157): [self.data_args] is assigned nowhere in the
    class, reading it raises. *)
Definition __len__ (self : Dataset) : res Z :=
  match train_num_samples self with
  | Some _ => Raise AttributeError
  | None => Ok (_length self)
  end.

(** The [for shard_name, (start, end) in self.shard_id_range.items()] loop
    of [load_data]; falling off its end returns [None]. *)
Fixpoint load_data_scan (self : Dataset) (st : State E) (index : Z)
  (items : list (string * (Z * Z))) : res (option Sample) * State E :=
  match items with
  | [] => (Ok None, st)
  | (shard_name, (start, end_)) :: rest =>
      if (start <=? index) && (index <? end_) then
        let st1 := {| current_shard_name := shard_name;
                      current_shard_data := current_shard_data st;
                      random := random st |} in
        match load_ann_file (PyStr.path_join (data_path self) shard_name) with
        | Raise e => (Raise e, st1)
        | Ok data =>
            let '(data, g) := shuffle E Sample (random st1) data in
            let st2 := {| current_shard_name := shard_name;
                          current_shard_data := data;
                          random := g |} in
            (r <- Py.index (current_shard_data st2) (index - start) ;;
             Ok (Some (deepcopy r)), st2)
        end
      else load_data_scan self st index rest
  end.

(** [load_data(index)] (lines 166-181); the value returned is a record or
    [None]. *)
Definition load_data (self : Dataset) (st : State E) (index : Z)
  : res (option Sample) * State E :=
  match assert_ (shard_mode self) EmptyString with
  | Raise e => (Raise e, st)
  | Ok _ =>
      match (if index >=? _length self then Py.mod_ index (_length self)
             else Ok index) with
      | Raise e => (Raise e, st)
      | Ok index =>
          match dict_get (shard_id_range self) (current_shard_name st) with
          | Raise e => (Raise e, st)
          | Ok (start, end_) =>
              if (start <=? index) && (index <=? end_) then
                (r <- Py.index (current_shard_data st) (index - start) ;;
                 Ok (Some (deepcopy r)), st)
              else load_data_scan self st index (shard_id_range self)
          end
      end
  end.

(** [encode_hash_sha256(web_url)] *)
Definition encode_hash_sha256 (web_url : string) : string :=
  sha256_hexdigest E web_url.

(** [get_img_filename(web_url)] *)
Definition get_img_filename (web_url : string) : string :=
  encode_hash_sha256 web_url.

(** [load_image(image_path_or_url)]: any failure gives [None]. *)
Definition load_image (image_path_or_url : string) : option (Img E) :=
  match image_open E image_path_or_url with
  | Ok im => Some im
  | Raise _ => None
  end.

Definition is_some {A : Type} (o : option A) : bool :=
  match o with Some _ => true | None => false end.

Definition is_none {A : Type} (o : option A) : bool := negb (is_some o).

(** [sum(p(x) for x in l)] *)
Definition count {A : Type} (p : A -> bool) (l : list A) : Z :=
  Py.len (filter p l).

(** [parse_sample(sample)] (lines 204-225); [sample] is what [load_data]
    returned. *)
Definition parse_sample (sample : option Sample)
  : res (list (option string) * list (option string)
         * list (option Meta) * list bool) :=
  match sample with
  | None => Raise TypeError
  | Some sample =>
      let images := images sample in
      let texts := texts sample in
      let default :=
        map (fun web_url =>
               match web_url with
               | Some url => Some [("filename", encode_hash_sha256 url)]
               | None => None
               end) images in
      metadata <-
        match metadata sample with
        | None => Ok (Some default)
        | Some (MetaList l) => Ok (Some l)
        | Some (MetaStr s) => json_loads_metadata E s
        end ;;
      metadata <-
        match metadata with
        | Some l => Ok l
        | None => Raise (AssertionError "metadata")
        end ;;
      let valid_image :=
        match valid_image sample with
        | Some v => v
        | None => List.repeat true (Z.to_nat (count is_some images))
        end in
      _ <- assert_ (Py.len images =? Py.len texts) EmptyString ;;
      _ <- assert_ ((count is_some images =? count is_none texts)
                    && (count is_none texts =? Py.len valid_image))
                   "sample" ;;
      _ <- mapM (fun p : option string * option Meta =>
                   assert_ (Bool.eqb (is_none (fst p)) (is_none (snd p)))
                           "sample")
                (combine images metadata) ;;
      Ok (images, texts, metadata, valid_image)
  end.

(** [preprocess_image(images)]: transform each image and stack. *)
Definition preprocess_image (images : list (Img E)) : list (Tensor E) :=
  map (transform E) images.

(** [l[idx] = v] for an index in range. *)
Fixpoint list_set {A : Type} (l : list A) (idx : nat) (v : A) : list A :=
  match l, idx with
  | [], _ => []
  | _ :: rest, O => v :: rest
  | x :: rest, S k => x :: list_set rest k v
  end.

(** The loop of [getitem] that loads the valid images; the state is
    [(loaded_images, valid_count, valid_image)]. *)
Fixpoint load_images_loop (self : Dataset)
  (items : list (string * bool)) (idx : nat)
  (loaded_images : list (Img E)) (valid_count : Z) (valid_image : list bool)
  : list (Img E) * list bool :=
  match items with
  | [] => (loaded_images, valid_image)
  | (img, valid) :: rest =>
      if valid then
        if valid_count >=? max_num_images self then
          load_images_loop self rest (S idx) loaded_images valid_count
                           (list_set valid_image idx false)
        else
          match load_image img with
          | Some _image =>
              load_images_loop self rest (S idx) (loaded_images ++ [_image])
                               (valid_count + 1) valid_image
          | None =>
              load_images_loop self rest (S idx) loaded_images valid_count
                               (list_set valid_image idx false)
          end
      else load_images_loop self rest (S idx) loaded_images valid_count
                            valid_image
  end.

(** The loop of [getitem] that writes ['<image>'] into the empty text
    slots of the valid images. *)
Fixpoint mark_image_slots (texts : list (option string)) (image_idx : Z)
  (valid_image : list bool) : res (list (option string)) :=
  match texts with
  | [] => Ok []
  | None :: rest =>
      v <- Py.index valid_image image_idx ;;
      rest' <- mark_image_slots rest (image_idx + 1) valid_image ;;
      Ok ((if v : bool then Some "<image>" else None) :: rest')
  | Some t :: rest =>
      rest' <- mark_image_slots rest image_idx valid_image ;;
      Ok (Some t :: rest')
  end.

(** [[_ for _ in texts if _]] *)
Definition truthy_texts (texts : list (option string)) : list string :=
  flat_map (fun t => match t with
                     | Some s => if String.eqb s EmptyString then [] else [s]
                     | None => []
                     end) texts.

(** The f-string [image_tokens]: the start marker, [num_image_token]
    context markers, the end marker. *)
Definition image_tokens (self : Dataset) : string :=
  IMG_START_TOKEN E
  +++ PyStr.repeat (IMG_CONTEXT_TOKEN E) (num_image_token self)
  +++ IMG_END_TOKEN E.

(** The text handed to the tokenizer (lines 266-270). *)
Definition assemble_text (self : Dataset) (texts : list (option string))
  (n_images : Z) : string :=
  let text := PyStr.join (PyStr.LF +++ PyStr.LF) (truthy_texts texts) in
  let text :=
    PyStr.replace
      (PyStr.replace text ("<image>" +++ PyStr.LF +++ PyStr.LF) "<image>")
      (PyStr.LF +++ PyStr.LF +++ "<image>") "<image>" in
  PyStr.replace_count text "<image>" (image_tokens self) n_images.

(** [labels[labels == id] = -100] *)
Definition mask_id (id : Z) (labels : list Z) : list Z :=
  map (fun t => if t =? id then -100 else t) labels.

(** The part of [getitem] after [load_data] (lines 238-296). *)
Definition assemble (self : Dataset) (sample : option Sample)
  : res (Bundle E) :=
  parsed <- parse_sample sample ;;
  let '(images, texts, metadata, valid_image) := parsed in
  let images :=
    flat_map (fun p : option string * option Meta =>
                match fst p with
                | Some img =>
                    [PyStr.path_join (image_path self) (get_img_filename img)]
                | None => []
                end)
             (combine images metadata) in
  let '(loaded_images, valid_image) :=
    load_images_loop self (combine images valid_image) 0 [] 0 valid_image in
  let images := loaded_images in
  _ <- assert_ ((Py.len images >? 0)
                && negb (count (fun v : bool => v) valid_image =? 0))
               EmptyString ;;
  texts <- mark_image_slots texts 0 valid_image ;;
  let text := assemble_text self texts (Py.len images) in
  tokenizer <- match module_tokenizer E with
               | Some t => Ok t
               | None => Raise NameError
               end ;;
  let input_ids :=
    encode (self_tokenizer E) text (model_max_length tokenizer) in
  let pixel_values := preprocess_image images in
  let num_patches := Py.len pixel_values in
  let labels := input_ids in
  let image_start_token_id :=
    convert_tokens_to_ids tokenizer (IMG_START_TOKEN E) in
  let image_end_token_id :=
    convert_tokens_to_ids tokenizer (IMG_END_TOKEN E) in
  let image_context_token_id :=
    convert_tokens_to_ids tokenizer (IMG_CONTEXT_TOKEN E) in
  _ <- assert_ (count (fun t => t =? image_context_token_id) labels
                =? num_image_token self * Py.len images)
               "image tokens are truncated" ;;
  let labels := mask_id image_start_token_id labels in
  let labels := mask_id image_end_token_id labels in
  let labels := mask_id image_context_token_id labels in
  Ok {| input_ids := input_ids;
        labels := labels;
        attention_mask :=
          map (fun t => negb (t =? pad_token_id tokenizer)) input_ids;
        pixel_values := pixel_values;
        image_flags := List.repeat 1 (Z.to_nat num_patches) |}.

(** [getitem(index)] (lines 234-296) *)
Definition getitem (self : Dataset) (st : State E) (index : Z)
  : res (Bundle E) * State E :=
  match load_data self st index with
  | (Raise e, st') => (Raise e, st')
  | (Ok sample, st') => (assemble self sample, st')
  end.

(** [__getitem__(index)] (lines 298-307), run for at most [fuel] rounds
    of its [while True] loop; [None] when the loop has not ended by
    then. *)
Fixpoint __getitem__ (fuel : nat) (self : Dataset) (st : State E)
  (index : Z) : option (res (Bundle E)) * State E :=
  match fuel with
  | O => (None, st)
  | S fuel' =>
      match getitem self st index with
      | (Ok item, st') => (Some (Ok item), st')
      | (Raise err, st') =>
          match (n <- __len__ self ;; Py.mod_ (index + 1) n) with
          | Raise e => (Some (Raise e), st')
          | Ok index' => __getitem__ fuel' self st' index'
          end
      end
  end.

(** Specification side: [k] failed attempts in a row, each followed by the
    step to [(index + 1) % len(self)]. *)
Inductive failed_attempts (self : Dataset)
  : nat -> State E -> Z -> State E -> Z -> Prop :=
| failed_0 st index : failed_attempts self 0 st index st index
| failed_S k st index e st1 st2 index2 :
    getitem self st index = (Raise e, st1) ->
    failed_attempts self k st1 ((index + 1) mod _length self) st2 index2 ->
    failed_attempts self (S k) st index st2 index2.

End Methods.

End InterleavedDataset.
(** ** Small instances of the external functions, to run the definitions *)

Module Examples.
Import InterleavedDataset.

(** [json.loads] on the few texts used below: [null], and one array;
    leading and trailing white space is ignored, anything else is
    rejected as these texts with something after them are. *)
Definition json_loads_array (s : string) : res (option (list Z)) :=
  let t := PyStr.strip s in
  if String.eqb t "null" then Ok None
  else if String.eqb t "[1, 2]" then Ok (Some [1; 2])
  else Raise JSONDecodeError.

(** A tokenizer with one id per marker and one per other character,
    truncating to [max_length]. *)
Fixpoint encode_chars (skip : nat) (s : string) : list Z :=
  match s with
  | EmptyString => []
  | String c rest =>
      match skip with
      | S k => encode_chars k rest
      | O =>
          if String.prefix "<img>" s then 1 :: encode_chars 4 rest
          else if String.prefix "</img>" s then 2 :: encode_chars 5 rest
          else if String.prefix "<IMG_CONTEXT>" s then
            3 :: encode_chars 12 rest
          else (100 + Z.of_nat (nat_of_ascii c)) :: encode_chars 0 rest
      end
  end.

Definition marker_id (token : string) : Z :=
  if String.eqb token "<img>" then 1
  else if String.eqb token "</img>" then 2
  else if String.eqb token "<IMG_CONTEXT>" then 3
  else 0.

Definition char_tokenizer : Tokenizer :=
  {| encode := fun text max_length =>
                 firstn (Z.to_nat max_length) (encode_chars 0 text);
     model_max_length := 64;
     convert_tokens_to_ids := marker_id;
     pad_token_id := 0 |}.

(** An environment with an empty store, no randomness (shuffling keeps
    the order), images that open under the names ending in [.ok], and the
    marker strings of [internvl.train.constants]. *)
Definition env : Env :=
  Build_Env
    unit string string
    "<img>" "</img>" "<IMG_CONTEXT>"
    (fun _ => Raise JSONDecodeError)
    (fun _ => Raise JSONDecodeError)
    (fun _ => Ok [])
    (fun _ => Ok [])
    (fun url => url +++ ".ok")
    (fun _ => tt)
    (fun A g l => (l, g))
    (fun path => if PyStr.endswith path ".ok" then Ok path
                 else Raise (OSError path))
    (fun im => im)
    char_tokenizer
    (Some char_tokenizer).

(** The record of the assembly example: one image and its caption. *)
Definition one_image_sample (A : string) (m : Meta) : Sample :=
  {| images := [Some A; None];
     texts := [None; Some "caption"];
     metadata := Some (MetaList [Some m; None]);
     valid_image := Some [true] |}.

(** A dataset of two shards of three records, with two context tokens
    per image. *)
Definition small_dataset (train_num_samples : option Z) : Dataset :=
  {| data_path := "data";
     image_path := "img";
     max_num_images := 6;
     train_num_samples := train_num_samples;
     dataset_resampled := false;
     num_image_token := 2;
     shard_mode := true;
     num_samples_each_shard := 3;
     _length := 6;
     shard_order := [0; 1];
     shard_id_range := [(shard_file 0, (0, 2)); (shard_file 1, (3, 5))] |}.

Definition small_state : State env :=
  @Build_State env (shard_file 0)
    [one_image_sample "a" []; one_image_sample "b" [];
     one_image_sample "c" []]
    tt.

End Examples.

(** ** More Python string methods *)

Module PyStr2.

(** [p in s] for strings. *)
Fixpoint contains (s p : string) : bool :=
  String.prefix p s ||
  match s with
  | EmptyString => false
  | String _ rest => contains rest p
  end.

(** [s.split(sep)] for a non-empty [sep]: [cur] holds, reversed, the
    characters of the piece being read, [skip] the characters of a matched
    [sep] still to be dropped. *)
Fixpoint split_go (sep : string) (skip : nat) (cur : list ascii)
  (s : string) : list string :=
  match s with
  | EmptyString => [string_of_list_ascii (rev cur)]
  | String c rest =>
      match skip with
      | S k => split_go sep k cur rest
      | O =>
          if String.prefix sep s
          then string_of_list_ascii (rev cur)
               :: split_go sep (String.length sep - 1) [] rest
          else split_go sep 0 (c :: cur) rest
      end
  end.

Definition split (s sep : string) : list string := split_go sep 0 [] s.

(** [io.BytesIO(b).readlines()] and [f.readlines()]: the lines of a text,
    each with its line feed; [cur] is the line being read, reversed. *)
Fixpoint readlines_go (cur : list ascii) (s : string) : list string :=
  match s with
  | EmptyString =>
      match cur with
      | [] => []
      | _ => [string_of_list_ascii (rev cur)]
      end
  | String c rest =>
      if Ascii.eqb c (ascii_of_nat 10)
      then string_of_list_ascii (rev (c :: cur)) :: readlines_go [] rest
      else readlines_go (c :: cur) rest
  end.

Definition readlines (s : string) : list string := readlines_go [] s.

End PyStr2.

(** ** Specification side of the tiling engine *)

Module TilingSpec.
Import LazySupervisedDataset.

(** The score the loop of [find_closest_aspect_ratio] gives grid [r]:
    [abs(aspect_ratio - r[0] / r[1])]. *)
Definition ratio_score (aspect_ratio : float) (r : ratio) : float :=
  PrimFloat.abs
    (PrimFloat.sub aspect_ratio
       (PrimFloat.div (PyFloat.of_int (fst r)) (PyFloat.of_int (snd r)))).

(** Pixel [(x, y)] lies in the box [(left, upper, right, lower)]. *)
Definition box_contains (box : Z * Z * Z * Z) (x y : Z) : Prop :=
  let '(l, u, r, lo) := box in l <= x < r /\ u <= y < lo.

(** The crop of tile [i] in a grid of [cols] columns: column [i % cols],
    row [i // cols]. *)
Definition tile_crop (image_size cols : Z) (resized : Image.image) (i : Z)
  : Image.image :=
  Image.Cropped resized
    (i mod cols * image_size) (i / cols * image_size)
    ((i mod cols + 1) * image_size) ((i / cols + 1) * image_size).

End TilingSpec.

(** ** LazySupervisedDataset: the two [..._get_item] methods and
    [__getitem__] (internvl_chat_pretrain.py, lines 307-395) *)

Module LazyItems.
Import Image LazySupervisedDataset.

(** One turn of a conversation. *)
Record Turn : Type := {
  from_ : string;
  value : string
}.

(** A conversational record; the ['image'] key may be absent. *)
Record DataItem : Type := {
  image : option string;
  conversations : list Turn
}.

(** What a [preprocess...] function returns: three rows. *)
Record Rows : Type := {
  row_input_ids : list Z;
  row_labels : list Z;
  row_attention_mask : list bool
}.

(** The bundle the two methods return. *)
Record Bundle (Tensor : Type) : Type := {
  input_ids : list Z;
  labels : list Z;
  attention_mask : list bool;
  pixel_values : list Tensor;
  image_flags : list Z
}.
Arguments Build_Bundle {Tensor}.
Arguments input_ids {Tensor}.
Arguments labels {Tensor}.
Arguments attention_mask {Tensor}.
Arguments pixel_values {Tensor}.
Arguments image_flags {Tensor}.

(** The signature of [preprocess], [preprocess_mpt] and
    [preprocess_internlm] of [internvl.train.dataset], as they are called
    here: the conversations, the number of image tokens, and [text_only]
    when the call passes it. *)
Definition Preprocess : Type := list Turn -> Z -> option bool -> res Rows.

Section Methods.

(** The attributes of the dataset the methods read, [build_transform]
    applied to an image, the three preprocess functions, the opening of an
    image file (through [tcs_loader] or PIL), [json.loads] on a line, and
    the iteration order of the set of candidate grids. *)
Variable Tensor : Type.
Variable template_name : string.
Variable root : string.
Variable num_image_token : Z.
Variable image_size : Z.
Variable dynamic_image_size : bool.
Variable use_thumbnail : bool.
Variable transform : Image.image -> Tensor.
Variable preprocess_mpt : Preprocess.
Variable preprocess_internlm : Preprocess.
Variable preprocess : Preprocess.
Variable open_image : string -> res Image.image.
Variable json_loads : string -> res DataItem.
Variable set_order : list ratio -> list ratio.

(** The choice of the preprocess function by [self.template_name]. *)
Definition preprocess_function : Preprocess :=
  if String.eqb template_name "Hermes-2" then preprocess_mpt
  else if String.eqb template_name "internlm2-chat" then preprocess_internlm
  else preprocess.

(** Lines 308-309: the first turn gets an ['<image>\n'] in front when it
    has no ['<image>']; indexing an empty conversation raises. *)
Definition ensure_image_tag (conversations : list Turn)
  : res (list Turn) :=
  match conversations with
  | [] => Raise IndexError
  | first :: rest =>
      if negb (PyStr2.contains (value first) "<image>")
      then Ok ({| from_ := from_ first;
                  value := "<image>" +++ PyStr.LF +++ value first |}
               :: rest)
      else Ok conversations
  end.

(** Lines 311-314: where the image of a record is. *)
Definition image_path_of (image : string) : string :=
  if PyStr.startswith image "s3://" then root +++ image
  else PyStr.path_join root image.

(** [multi_modal_get_item(data_item)], for a record with an image. *)
Definition multi_modal_get_item (image : string) (conversations : list Turn)
  : res (Bundle Tensor) :=
  conversations <- ensure_image_tag conversations ;;
  let image_path := image_path_of image in
  image <- open_image image_path ;;
  images <-
    (if dynamic_image_size
     then dynamic_preprocess image_size use_thumbnail set_order image 1 6
     else Ok [image]) ;;
  let pixel_values := map transform images in
  let num_patches := Py.len pixel_values in
  _ <- (if negb dynamic_image_size
        then assert_ (num_patches =? 1)
               ("The number of patches should be 1, but got "
                +++ PyStr.of_Z num_patches +++ ".")
        else Ok tt) ;;
  ret <- preprocess_function conversations (num_image_token * num_patches)
           None ;;
  Ok {| input_ids := row_input_ids ret;
        labels := row_labels ret;
        attention_mask := row_attention_mask ret;
        pixel_values := pixel_values;
        image_flags := List.repeat 1 (Z.to_nat num_patches) |}.

(** [Image.new('RGB', (224, 224), (255, 255, 255))] *)
Definition blank_image : Image.image := Decoded "RGB (255, 255, 255)" 224 224.

(** [pure_text_get_item(data_item)] *)
Definition pure_text_get_item (conversations : list Turn)
  : res (Bundle Tensor) :=
  let image := blank_image in
  images <- dynamic_preprocess image_size use_thumbnail set_order image 1 6 ;;
  let pixel_values := map transform images in
  let num_patches := Py.len pixel_values in
  _ <- assert_ (num_patches =? 1)
         ("The number of patches should be 1, but got "
          +++ PyStr.of_Z num_patches +++ ".") ;;
  ret <- preprocess_function conversations (num_image_token * num_patches)
           (Some true) ;;
  Ok {| input_ids := row_input_ids ret;
        labels := row_labels ret;
        attention_mask := row_attention_mask ret;
        pixel_values := pixel_values;
        image_flags := List.repeat 0 (Z.to_nat num_patches) |}.

(** The [try] body of [__getitem__] (lines 379-383) on the line read. *)
Definition try_body (line : string) : res (Bundle Tensor) :=
  data_item <- json_loads line ;;
  match image data_item with
  | Some img =>
      if negb (PyStr.len img =? 0)
      then multi_modal_get_item img (conversations data_item)
      else pure_text_get_item (conversations data_item)
  | None => pure_text_get_item (conversations data_item)
  end.

(** The [except] body of [__getitem__] up to the redraw (lines 386-393):
    the line is parsed again, to report the image that failed. *)
Definition except_body (line : string) : res unit :=
  data_item <- json_loads line ;;
  Ok tt.

(** [__getitem__(i)] with the two bodies above. *)
Definition getitem_ (fuel : nat) (raw_data : list string) (i : Z)
  (draws : list Z) : list Z * option (res (Bundle Tensor)) :=
  __getitem__ (Bundle Tensor) try_body except_body fuel raw_data i draws.

End Methods.

(** *** [group_by_length] in [__init__] (lines 231-244) *)

Section GroupByLength.

(** [tokenizer(conversations, ...).input_ids.size(1)] *)
Variable token_length_of : string -> Z.

(** [''.join(data_item.split('conversations')[1:])] *)
Definition conversations_text (data_item : string) : string :=
  String.concat EmptyString
    (Py.slice (PyStr2.split data_item "conversations") 1
              (Py.len (PyStr2.split data_item "conversations"))).

(** A dictionary with integer keys. *)
Fixpoint int_dict_get (d : list (Z * Z)) (k : Z) : option Z :=
  match d with
  | [] => None
  | (k', v) :: rest => if k' =? k then Some v else int_dict_get rest k
  end.

(** The loop over [self.raw_data]; the state is
    [(self.conv2length, self.length)]. *)
Fixpoint group_by_length_loop (raw_data : list string)
  (conv2length : list (Z * Z)) (length : list Z)
  : list (Z * Z) * list Z :=
  match raw_data with
  | [] => (conv2length, length)
  | data_item :: rest =>
      let conversations := conversations_text data_item in
      let str_length := PyStr.len conversations in
      match int_dict_get conv2length str_length with
      | None =>
          let token_length := token_length_of conversations in
          group_by_length_loop rest
            (conv2length ++ [(str_length, token_length)])
            (length ++ [token_length])
      | Some token_length =>
          group_by_length_loop rest conv2length (length ++ [token_length])
      end
  end.

(** Specification side: the lines whose text after ['conversations'] has
    [k] characters, and the first line of [raw_data] with as many as
    [data_item]. *)
Definition same_count (k : Z) (other : string) : bool :=
  PyStr.len (conversations_text other) =? k.

Definition first_of_same_length (raw_data : list string)
  (data_item : string) : option string :=
  find (same_count (PyStr.len (conversations_text data_item))) raw_data.

(** Loop invariant: [conv2length] maps a character count to the token
    length of the first line read so far that has it. *)
Definition cached_for (raw_done : list string) (cache : list (Z * Z))
  : Prop :=
  forall k,
    int_dict_get cache k
    = option_map (fun y => token_length_of (conversations_text y))
        (find (same_count k) raw_done).

(** [self.length] after [__init__] with [group_by_length]. *)
Definition init_length (raw_data : list string) : list Z :=
  snd (group_by_length_loop raw_data [] []).

End GroupByLength.

End LazyItems.


(** ** Reading an annotation file (interleaved_dataset.py, lines 27-41 and
    60-73) *)

Module Fetch.

Section Fetch.

(** [_client.get(url)]: what call number [k] of a run returns or raises
    (calls are counted from 0); and [open(path, 'r')] read to its end. A
    byte string is modelled by the text of its characters. *)
Variable client_get : Z -> string -> res string.
Variable open_read : string -> res string.

(** The type of a decoded file and [json.load] on the content of one. *)
Variable R : Type.
Variable json_load : string -> res R.

(** The [while try_times < 10] loop of [load_json] and [load_jsonl],
    entered with the given [try_times] and [remaining = 10 - try_times]
    rounds to go: the counter is the number of calls that failed, so the
    call of a round is call number [try_times]. The result is the value
    of [bytes] when a call returned, [None] when none did. *)
Fixpoint get_loop (remaining : nat) (url : string) (try_times : Z)
  : option string :=
  match remaining with
  | O => None
  | S remaining' =>
      match client_get try_times url with
      | Ok bytes => Some bytes
      | Raise _ => get_loop remaining' url (try_times + 1)
      end
  end.

(** [load_json(json_url_or_path, _client)] (lines 27-41): [bytes] starts
    as [None], and [io.BytesIO(None)] is an empty buffer. *)
Definition load_json (json_url_or_path : string) : res R :=
  if PyStr2.contains json_url_or_path "s3://" then
    let bytes := get_loop 10 json_url_or_path 0 in
    json_load (match bytes with
               | Some b => b
               | None => EmptyString
               end)
  else
    text <- open_read json_url_or_path ;;
    json_load text.

(** Lines 61-73 of [load_jsonl]: the lines of the file; here [bytes] has
    no value before the loop. *)
Definition read_lines (jsonl_url_or_path : string) : res (list string) :=
  if PyStr2.contains jsonl_url_or_path "s3://" then
    match get_loop 10 jsonl_url_or_path 0 with
    | Some bytes => Ok (PyStr2.readlines bytes)
    | None => Raise UnboundLocalError
    end
  else
    text <- open_read jsonl_url_or_path ;;
    Ok (PyStr2.readlines text).

End Fetch.

(** Specification side: the lines that [load_jsonl] parses, those with
    more than two characters once stripped. *)
Definition long_line (line : string) : bool :=
  PyStr.len (PyStr.strip line) >? 2.

End Fetch.

(** ** [check_shard_id_range] (interleaved_dataset.py, lines 159-164) *)

Module ShardCheck.
Import InterleavedDataset.

(** [sorted(l)] on integers, by insertion. *)
Fixpoint insert_sorted (x : Z) (l : list Z) : list Z :=
  match l with
  | [] => [x]
  | y :: rest => if x <=? y then x :: l else y :: insert_sorted x rest
  end.

Definition sorted (l : list Z) : list Z := fold_right insert_sorted [] l.

(** The loop over [shard_id_range.values()]: [ids.extend(range(start, end))]. *)
Definition collect_ids (shard_id_range : dict (Z * Z)) : list Z :=
  flat_map (fun entry : string * (Z * Z) =>
              let '(start, end_) := snd entry in Py.range start end_)
           shard_id_range.

(** [check_shard_id_range(shard_id_range, length)] *)
Definition check_shard_id_range (shard_id_range : dict (Z * Z)) (length : Z)
  : res unit :=
  let ids := collect_ids shard_id_range in
  assert_ (if list_eq_dec Z.eq_dec (Py.slice_to (sorted ids) length)
                          (Py.range 0 length)
           then true else false)
          EmptyString.

End ShardCheck.

(** ** More small instances *)

Module MoreExamples.
Import InterleavedDataset Examples.

(** The environment of [Examples.env] with a storage that cannot be
    reached: reading any file raises. *)
Definition offline_env : Env :=
  Build_Env
    unit string string
    "<img>" "</img>" "<IMG_CONTEXT>"
    (fun _ => Raise JSONDecodeError)
    (fun _ => Raise JSONDecodeError)
    (fun path => Raise (OSError path))
    (fun path => Raise (OSError path))
    (fun url => url +++ ".ok")
    (fun _ => tt)
    (fun A g l => (l, g))
    (fun path => if PyStr.endswith path ".ok" then Ok path
                 else Raise (OSError path))
    (fun im => im)
    char_tokenizer
    (Some char_tokenizer).

Definition offline_state : State offline_env :=
  @Build_State offline_env (shard_file 0)
    [one_image_sample "a" []; one_image_sample "b" [];
     one_image_sample "c" []]
    tt.

End MoreExamples.

(** ** InternVLChatConfig (configuration_internvl_chat.py, lines 23-67) *)

Module InternVLChatConfig.

(** What [__init__] raises: its own errors, and those of the constructors
    it imports. *)
Inductive raised : Type :=
| KeyError_ (key : string)
| IndexError_
| ValueError_ (msg : string)
| Imported (e : exn).

(** The keyword arguments stored as they are given. *)
Record Settings : Type := {
  use_backbone_lora : Z;
  use_llm_lora : Z;
  pad2square : bool;
  select_layer : Z;
  force_image_size : option Z;
  downsample_ratio : float;
  template : option string;
  image_fold : bool;
  dynamic_image_size : bool;
  use_thumbnail : bool
}.

Section Init.

(** The dictionaries given for the two sub-configurations and the
    objects built from them. Of the language-model dictionary the
    constructor reads the key ['architectures'], here a list of strings
    when present; the empty dictionaries are what [None] is replaced
    by. *)
Variable VisionDict : Type.
Variable Others : Type.
Variable Vision : Type.
Variable Llama : Type.
Variable InternLM2 : Type.
Variable Kwargs : Type.

Record LlmDict : Type := {
  architectures : option (list string);
  others : Others
}.

Variable empty_vision : VisionDict.
Variable empty_others : Others.

(** The parent's [__init__] on the remaining keyword arguments, and
    [InternVisionConfig], [LlamaConfig] and [InternLM2Config] called on
    the entries of a dictionary. *)
Variable super_init : Kwargs -> res unit.
Variable InternVisionConfig : VisionDict -> res Vision.
Variable LlamaConfig : LlmDict -> res Llama.
Variable InternLM2Config : LlmDict -> res InternLM2.

Inductive LlmConfig : Type :=
| IsLlama (c : Llama)
| IsInternLM2 (c : InternLM2).

Record Config : Type := {
  vision_config : Vision;
  llm_config : LlmConfig;
  settings : Settings
}.

(** [llm_config['architectures'][0]] *)
Definition first_architecture (llm_config : LlmDict) : raised + string :=
  match architectures llm_config with
  | None => inl (KeyError_ "architectures")
  | Some [] => inl IndexError_
  | Some (a :: _) => inr a
  end.

(** [__init__(vision_config, llm_config, ..., **kwargs)] *)
Definition __init__ (vision_config : option VisionDict)
  (llm_config : option LlmDict) (s : Settings) (kwargs : Kwargs)
  : raised + Config :=
  match super_init kwargs with
  | Raise e => inl (Imported e)
  | Ok _ =>
      let vision_config :=
        match vision_config with
        | Some d => d
        | None => empty_vision
        end in
      let llm_config :=
        match llm_config with
        | Some d => d
        | None => {| architectures := None; others := empty_others |}
        end in
      match InternVisionConfig vision_config with
      | Raise e => inl (Imported e)
      | Ok vision =>
          match first_architecture llm_config with
          | inl r => inl r
          | inr a =>
              if String.eqb a "LlamaForCausalLM" then
                match LlamaConfig llm_config with
                | Raise e => inl (Imported e)
                | Ok c => inr {| vision_config := vision;
                                 llm_config := IsLlama c;
                                 settings := s |}
                end
              else if String.eqb a "InternLM2ForCausalLM" then
                match InternLM2Config llm_config with
                | Raise e => inl (Imported e)
                | Ok c => inr {| vision_config := vision;
                                 llm_config := IsInternLM2 c;
                                 settings := s |}
                end
              else inl (ValueError_ ("Unsupported architecture: " +++ a))
          end
      end
  end.

End Init.

Arguments architectures {Others}.
Arguments others {Others}.
Arguments IsLlama {Llama InternLM2}.
Arguments IsInternLM2 {Llama InternLM2}.
Arguments vision_config {Vision Llama InternLM2}.
Arguments llm_config {Vision Llama InternLM2}.
Arguments settings {Vision Llama InternLM2}.

End InternVLChatConfig.

(** ** The evaluation loop (evaluate_grounding.py, lines 45-50 and
    130-154) *)

Module EvalLoop.

Section Loop.

(** The tensor of one image, a ground-truth box, and [model.chat] on the
    pixel values of a batch and one question. *)
Variable Pixels : Type.
Variable Box : Type.
Variable chat : list Pixels -> string -> string.

(** What [RefCOCODataset.__getitem__] returns, and one entry of
    [outputs]. *)
Record Item : Type := {
  text : string;
  pixel_values : Pixels;
  bbox : Box;
  hw : Z * Z
}.

Record Output : Type := {
  answer : string;
  gt_bbox : Box;
  out_hw : Z * Z
}.

(** [collate_fn(batches, tokenizer)]; [torch.cat] of the tensors of the
    items is the list of them. *)
Definition collate_fn (batches : list Item)
  : list Pixels * list string * list Box * list (Z * Z) :=
  (map pixel_values batches, map text batches, map bbox batches,
   map hw batches).

(** [zip(a, b, c)] *)
Fixpoint zip3 {A B C : Type} (a : list A) (b : list B) (c : list C)
  : list (A * B * C) :=
  match a, b, c with
  | x :: a', y :: b', z :: c' => (x, y, z) :: zip3 a' b' c'
  | _, _, _ => []
  end.

(** One round of the loop over the data loader (lines 131-154). *)
Definition round (outputs : list Output) (batch : list Item)
  : res (list Output) :=
  let '(pixels, questions, bboxes, hws) := collate_fn batch in
  question <- Py.index questions 0 ;;
  let pred := chat pixels question in
  let answers := [pred] in
  Ok (outputs
      ++ map (fun t : Box * (Z * Z) * string =>
                let '(bbox, hw, answer) := t in
                {| answer := answer; gt_bbox := bbox; out_hw := hw |})
             (zip3 bboxes hws answers)).

(** The loop, over the batches the data loader yields. *)
Fixpoint rounds (batches : list (list Item)) (outputs : list Output)
  : res (list Output) :=
  match batches with
  | [] => Ok outputs
  | batch :: rest =>
      outputs <- round outputs batch ;;
      rounds rest outputs
  end.

(** Specification side: the entry a batch leaves in [outputs]. *)
Definition output_of (batch : list Item) (out : Output) : Prop :=
  exists first others,
    batch = first :: others /\
    out = {| answer := chat (map pixel_values batch) (text first);
             gt_bbox := bbox first;
             out_hw := hw first |}.

End Loop.

Arguments text {Pixels Box}.
Arguments pixel_values {Pixels Box}.
Arguments bbox {Pixels Box}.
Arguments hw {Pixels Box}.
Arguments Build_Item {Pixels Box}.
Arguments answer {Box}.
Arguments gt_bbox {Box}.
Arguments out_hw {Box}.
Arguments Build_Output {Box}.

End EvalLoop.
(* ================================================================== *)
(** * Part II: properties *)
(* ================================================================== *)

(** ** Facts about the Python built-ins *)

Lemma range_length a b : length (Py.range a b) = Z.to_nat (b - a).
Proof. unfold Py.range. now rewrite length_map, length_seq. Qed.

Lemma In_range a b i : In i (Py.range a b) <-> a <= i < b.
Proof.
  unfold Py.range. rewrite in_map_iff. split.
  - intros (k & <- & Hk). apply in_seq in Hk. lia.
  - intros H. exists (Z.to_nat (i - a)). split; [lia|].
    apply in_seq. lia.
Qed.

Lemma seq_as_map (n m : nat) : seq n m = map (fun k => (n + k)%nat) (seq 0 m).
Proof.
  induction m as [|m IH]; [reflexivity|].
  rewrite !seq_S, map_app, IH. reflexivity.
Qed.

Lemma firstn_seq_min (n s m : nat) : firstn n (seq s m) = seq s (Nat.min n m).
Proof.
  revert s m. induction n as [|n IH]; intros s [|m]; simpl; trivial.
  now rewrite IH.
Qed.

Lemma range_app a b c :
  a <= b -> b <= c -> Py.range a b ++ Py.range b c = Py.range a c.
Proof.
  intros Hab Hbc. unfold Py.range.
  replace (Z.to_nat (c - a)) with (Z.to_nat (b - a) + Z.to_nat (c - b))%nat
    by lia.
  rewrite seq_app, map_app. f_equal.
  rewrite Nat.add_0_l, (seq_as_map (Z.to_nat (b - a))), map_map.
  apply map_ext. intros k. lia.
Qed.

Lemma slice_to_nonneg {A : Type} (l : list A) (k : Z) :
  0 <= k -> Py.slice_to l k = firstn (Z.to_nat k) l.
Proof.
  intros Hk. unfold Py.slice_to, Py.slice, Py.adjust, Py.len.
  destruct (Z.ltb_spec k 0) as [?|_]; [lia|].
  change (0 <? 0) with false. cbv iota.
  rewrite (Z.min_l 0) by lia. simpl skipn. rewrite Z.sub_0_r.
  destruct (Z.le_ge_cases k (Z.of_nat (length l))) as [H|H].
  - now rewrite Z.min_l.
  - rewrite Z.min_r by lia. rewrite Nat2Z.id.
    rewrite !firstn_all2; trivial; lia.
Qed.

Lemma sum_snoc l x : Py.sum (l ++ [x]) = Py.sum l + x.
Proof. unfold Py.sum. now rewrite fold_left_app. Qed.

(** ** InferenceSampler: the per-rank ranges tile [0, total_size) *)

Module InferenceSamplerProofs.
Import InferenceSampler.

Lemma sum_shard_sizes_prefix q left (n : nat) :
  0 <= left ->
  Py.sum (map (fun r => q + Py.int_of_bool (r <? left))
              (map (fun k => 0 + Z.of_nat k) (seq 0 n)))
  = Z.of_nat n * q + Z.min (Z.of_nat n) left.
Proof.
  intros Hl. induction n as [|n IH].
  - unfold Py.sum. simpl. lia.
  - rewrite seq_S, !map_app. cbn [map]. rewrite sum_snoc, IH.
    unfold Py.int_of_bool.
    destruct (Z.ltb_spec (0 + Z.of_nat (0 + n)) left); lia.
Qed.

Lemma sum_firstn_shard_sizes q left w (n : nat) :
  0 <= left -> (n <= Z.to_nat w)%nat ->
  Py.sum (firstn n (shard_sizes q left w))
  = Z.of_nat n * q + Z.min (Z.of_nat n) left.
Proof.
  intros Hl Hn. unfold shard_sizes, Py.range. rewrite Z.sub_0_r.
  rewrite !firstn_map, firstn_seq_min, Nat.min_l by lia.
  now apply sum_shard_sizes_prefix.
Qed.

Lemma boundary_0 t w : 0 <= t -> 0 < w -> boundary t w 0 = 0.
Proof.
  intros. unfold boundary.
  pose proof (Z.mod_pos_bound t w ltac:(lia)). lia.
Qed.

Lemma boundary_last t w : 0 < w -> boundary t w w = t.
Proof.
  intros. unfold boundary.
  pose proof (Z.mod_pos_bound t w ltac:(lia)).
  pose proof (Z.div_mod t w ltac:(lia)). lia.
Qed.

Lemma boundary_step t w r :
  0 < w -> 0 <= r ->
  boundary t w (r + 1) - boundary t w r
  = t / w + Py.int_of_bool (r <? t mod w).
Proof.
  intros. unfold boundary, Py.int_of_bool.
  destruct (Z.ltb_spec r (t mod w)); lia.
Qed.

Lemma boundary_mono t w r r' :
  0 <= t -> 0 < w -> 0 <= r <= r' -> boundary t w r <= boundary t w r'.
Proof.
  intros Ht Hw Hr. unfold boundary.
  assert (0 <= t / w) by (apply Z.div_pos; lia).
  assert (r * (t / w) <= r' * (t / w)) by nia. lia.
Qed.

Lemma get_local_bounds_eq t w r :
  0 <= t -> 0 < w -> 0 <= r < w ->
  _get_local_bounds t w r = Ok (boundary t w r, boundary t w (r + 1)).
Proof.
  intros Ht Hw Hr. unfold _get_local_bounds, Py.floordiv, Py.mod_.
  destruct (Z.eqb_spec w 0) as [?|_]; [lia|]. simpl.
  pose proof (Z.mod_pos_bound t w ltac:(lia)) as Hm.
  rewrite !slice_to_nonneg by lia.
  rewrite !sum_firstn_shard_sizes by lia.
  rewrite !Z2Nat.id by lia. fold (boundary t w r) (boundary t w (r + 1)).
  rewrite Z.min_l; [reflexivity|].
  rewrite <- (boundary_last t w Hw) at 2. apply boundary_mono; lia.
Qed.

Lemma get_local_indices_eq t w r :
  0 <= t -> 0 < w -> 0 <= r < w ->
  _get_local_indices t w r
  = Ok (Py.range (boundary t w r) (boundary t w (r + 1))).
Proof.
  intros. unfold _get_local_indices.
  now rewrite get_local_bounds_eq.
Qed.

Lemma boundary_locate t w i (n : nat) :
  0 <= t -> 0 < w -> 0 <= i < boundary t w (Z.of_nat n) ->
  exists r, 0 <= r < Z.of_nat n /\
            boundary t w r <= i < boundary t w (r + 1).
Proof.
  intros Ht Hw. induction n as [|n IH]; intros Hi.
  - simpl in Hi. rewrite boundary_0 in Hi; lia.
  - destruct (Z_lt_le_dec i (boundary t w (Z.of_nat n))) as [Hlt|Hge].
    + destruct IH as (r & Hr & Hb); [lia|]. exists r. split; [lia|trivial].
    + exists (Z.of_nat n). split; [lia|].
      replace (Z.of_nat n + 1) with (Z.of_nat (S n)) by lia. lia.
Qed.

Lemma concat_ranges t w (n : nat) :
  0 <= t -> 0 < w ->
  concat (map (fun r => Py.range (boundary t w r) (boundary t w (r + 1)))
              (Py.range 0 (Z.of_nat n)))
  = Py.range 0 (boundary t w (Z.of_nat n)).
Proof.
  intros Ht Hw. induction n as [|n IH].
  - rewrite boundary_0 by lia. reflexivity.
  - rewrite <- (range_app 0 (Z.of_nat n) (Z.of_nat (S n))) by lia.
    rewrite map_app, concat_app, IH.
    replace (Py.range (Z.of_nat n) (Z.of_nat (S n))) with [Z.of_nat n].
    2:{ unfold Py.range.
        replace (Z.to_nat (Z.of_nat (S n) - Z.of_nat n)) with 1%nat by lia.
        simpl. f_equal. lia. }
    cbn [map concat]. rewrite app_nil_r.
    replace (Z.of_nat (S n)) with (Z.of_nat n + 1) by lia.
    apply range_app.
    + rewrite <- (boundary_0 t w) by lia. apply boundary_mono; lia.
    + apply boundary_mono; lia.
Qed.

(** C1. For every [total_size > 0] and [world_size > 0], the index ranges
    that [_get_local_indices] computes for the ranks [0 .. world_size-1]
    are contiguous ranges [range(b, e)]; rank [r] gets
    [total_size // world_size] elements plus one if
    [r < total_size % world_size]; taken in rank order the ranges
    concatenate to [range(0, total_size)]; two different ranks share no
    index; an index belongs to some rank exactly when it lies in
    [[0, total_size)]; and the sizes of two ranks differ by at most 1. *)
Theorem get_local_indices_partition (total_size world_size : Z) :
  0 < total_size -> 0 < world_size ->
  (forall r, 0 <= r < world_size ->
     exists b e,
       b <= e /\
       _get_local_indices total_size world_size r = Ok (Py.range b e) /\
       e - b = total_size / world_size
               + Py.int_of_bool (r <? total_size mod world_size))
  /\ (exists ls,
        Forall2 (fun r l => _get_local_indices total_size world_size r = Ok l)
                (Py.range 0 world_size) ls /\
        concat ls = Py.range 0 total_size)
  /\ (forall r1 r2 l1 l2 i,
        0 <= r1 < world_size -> 0 <= r2 < world_size -> r1 <> r2 ->
        _get_local_indices total_size world_size r1 = Ok l1 ->
        _get_local_indices total_size world_size r2 = Ok l2 ->
        In i l1 -> ~ In i l2)
  /\ (forall i,
        0 <= i < total_size <->
        exists r l, 0 <= r < world_size /\
                    _get_local_indices total_size world_size r = Ok l /\
                    In i l)
  /\ (forall r1 r2 l1 l2,
        0 <= r1 < world_size -> 0 <= r2 < world_size ->
        _get_local_indices total_size world_size r1 = Ok l1 ->
        _get_local_indices total_size world_size r2 = Ok l2 ->
        Z.abs (Py.len l1 - Py.len l2) <= 1).
Proof.
  intros Ht Hw.
  assert (Hmono : forall r r', 0 <= r <= r' ->
            boundary total_size world_size r
            <= boundary total_size world_size r')
    by (intros; apply boundary_mono; lia).
  assert (Hget : forall r, 0 <= r < world_size ->
            _get_local_indices total_size world_size r
            = Ok (Py.range (boundary total_size world_size r)
                           (boundary total_size world_size (r + 1))))
    by (intros; apply get_local_indices_eq; lia).
  split; [|split; [|split; [|split; [split|]]]].
  - intros r Hr. eexists _, _. split; [|split; [apply Hget; lia|]].
    + apply Hmono; lia.
    + apply boundary_step; lia.
  - exists (map (fun r => Py.range (boundary total_size world_size r)
                                    (boundary total_size world_size (r + 1)))
                (Py.range 0 world_size)).
    split.
    + assert (Hin : forall r, In r (Py.range 0 world_size) ->
                      0 <= r < world_size) by (intros r; apply In_range).
      induction (Py.range 0 world_size) as [|r rs IH]; constructor.
      * apply Hget, Hin. now left.
      * apply IH. intros r' Hr'. apply Hin. now right.
    + rewrite <- (Z2Nat.id world_size) at 1 by lia.
      rewrite concat_ranges by lia.
      rewrite Z2Nat.id by lia. now rewrite boundary_last.
  - intros r1 r2 l1 l2 i Hr1 Hr2 Hne H1 H2 Hi1 Hi2.
    rewrite Hget in H1, H2 by lia. injection H1 as <-. injection H2 as <-.
    apply In_range in Hi1, Hi2.
    destruct (Z_lt_le_dec r1 r2).
    + pose proof (Hmono (r1 + 1) r2 ltac:(lia)). lia.
    + pose proof (Hmono (r2 + 1) r1 ltac:(lia)). lia.
  - intros Hi.
    destruct (boundary_locate total_size world_size i (Z.to_nat world_size))
      as (r & Hr & Hb); [lia|lia| |].
    + rewrite Z2Nat.id, boundary_last by lia. lia.
    + exists r, (Py.range (boundary total_size world_size r)
                          (boundary total_size world_size (r + 1))).
      split; [lia|]. split; [apply Hget; lia|]. now apply In_range.
  - intros (r & l & Hr & Hl & Hi). rewrite Hget in Hl by lia.
    injection Hl as <-. apply In_range in Hi.
    pose proof (Hmono 0 r ltac:(lia)).
    pose proof (Hmono (r + 1) world_size ltac:(lia)).
    rewrite boundary_0, ?boundary_last in * by lia. lia.
  - intros r1 r2 l1 l2 Hr1 Hr2 H1 H2.
    rewrite Hget in H1, H2 by lia. injection H1 as <-. injection H2 as <-.
    unfold Py.len. rewrite !range_length.
    pose proof (boundary_step total_size world_size r1 Hw ltac:(lia)) as S1.
    pose proof (boundary_step total_size world_size r2 Hw ltac:(lia)) as S2.
    assert (0 <= total_size / world_size) by (apply Z.div_pos; lia).
    unfold Py.int_of_bool in *.
    destruct (r1 <? total_size mod world_size),
             (r2 <? total_size mod world_size); lia.
Qed.

Lemma get_local_indices_partition_witness :
  0 < 10 /\ 0 < 4 /\
  _get_local_indices 10 4 1 = Ok [3; 4; 5] /\
  (forall i, 0 <= i < 10 <->
     exists r l, 0 <= r < 4 /\ _get_local_indices 10 4 r = Ok l /\ In i l).
Proof.
  split; [lia|]. split; [lia|]. split; [reflexivity|].
  apply (get_local_indices_partition 10 4); lia.
Defined.

End InferenceSamplerProofs.

(** ** LazySupervisedDataset: the tiling engine *)

Module TilingProofs.
Import Image LazySupervisedDataset.

Lemma In_target_ratio_gen (mn mx i j : Z) :
  In (i, j) (target_ratio_gen mn mx) <->
  exists n, mn <= n <= mx /\ 1 <= i <= n /\ 1 <= j <= n /\
            mn <= i * j <= mx.
Proof.
  unfold target_ratio_gen. rewrite in_flat_map. split.
  - intros (n & Hn & H). apply In_range in Hn.
    apply in_flat_map in H as (i' & Hi & H). apply In_range in Hi.
    apply in_flat_map in H as (j' & Hj & H). apply In_range in Hj.
    destruct (Z.leb_spec (i' * j') mx); simpl in H;
      [destruct (Z.geb_spec (i' * j') mn); simpl in H|]; try easy.
    destruct H as [H|[]]. injection H as <- <-. exists n. lia.
  - intros (n & Hn & Hi & Hj & Hp). exists n. split; [apply In_range; lia|].
    apply in_flat_map. exists i. split; [apply In_range; lia|].
    apply in_flat_map. exists j. split; [apply In_range; lia|].
    destruct (Z.leb_spec (i * j) mx); [|lia].
    destruct (Z.geb_spec (i * j) mn); [|lia]. now left.
Qed.

Lemma ratio_eqb_eq (a b : ratio) : ratio_eqb a b = true <-> a = b.
Proof.
  destruct a as [a1 a2], b as [b1 b2]. unfold ratio_eqb. simpl.
  rewrite andb_true_iff, !Z.eqb_eq. split.
  - now intros [-> ->].
  - intros H. now injection H.
Qed.

Lemma first_occurrences_spec l : forall seen,
  NoDup (first_occurrences l seen) /\
  (forall x, In x (first_occurrences l seen) <-> In x l /\ ~ In x seen).
Proof.
  induction l as [|a l IH]; intros seen; simpl.
  - split; [constructor|]. tauto.
  - destruct (existsb (ratio_eqb a) seen) eqn:E.
    + destruct (IH seen) as [ND HI]. split; [exact ND|].
      intros x. rewrite HI. apply existsb_exists in E as (y & Hy & Hay).
      apply ratio_eqb_eq in Hay. subst y. split; [tauto|].
      intros [[->|Hx] Hs]; tauto.
    + assert (Ha : ~ In a seen).
      { intros Hin.
        assert (existsb (ratio_eqb a) seen = true); [|congruence].
        apply existsb_exists. exists a. split; [easy|now apply ratio_eqb_eq]. }
      destruct (IH (a :: seen)) as [ND HI]. split.
      * constructor; [|exact ND]. rewrite HI. simpl. tauto.
      * intros x. simpl. rewrite HI. simpl.
        assert (D : a = x \/ a <> x).
        { destruct a as [a1 a2], x as [x1 x2].
          destruct (Z.eq_dec a1 x1), (Z.eq_dec a2 x2);
            [left; congruence|right; congruence..]. }
        destruct D as [<-|D]; tauto.
Qed.

Lemma set_iteration_In order l x :
  set_iteration order -> In x (order l) <-> In x l.
Proof. intros H. apply H. Qed.

Lemma generation_order_set : set_iteration generation_order.
Proof.
  intros l. unfold generation_order.
  destruct (first_occurrences_spec l []) as [ND HI]. split; [exact ND|].
  intros x. rewrite HI. simpl. tauto.
Qed.

Lemma reverse_order_set : set_iteration reverse_order.
Proof.
  intros l. unfold reverse_order.
  destruct (generation_order_set l) as [ND HI]. split.
  - now apply NoDup_rev.
  - intros x. rewrite <- in_rev. apply HI.
Qed.

Lemma closest_step_ok ar st r :
  snd r <> 0 ->
  exists st', closest_step ar st r = Ok st' /\
              (st' = st \/
               st' = (PrimFloat.abs
                        (PrimFloat.sub ar
                           (PrimFloat.div (PyFloat.of_int (fst r))
                                          (PyFloat.of_int (snd r)))), r)).
Proof.
  intros Hnz. unfold closest_step, PyFloat.truediv.
  destruct (Z.eqb_spec (snd r) 0) as [?|_]; [contradiction|].
  cbn [bind]. destruct (PrimFloat.ltb _ (fst st)); eauto.
Qed.

(** The loop never raises on grids with non-zero rows, and its winner is
    the initial grid or one of the candidates. *)
Lemma closest_loop_ok ar rs : forall st,
  (forall r, In r rs -> snd r <> 0) ->
  exists st', closest_loop ar rs st = Ok st' /\
              (snd st' = snd st \/ In (snd st') rs).
Proof.
  induction rs as [|r rs IH]; intros st Hnz; cbn [closest_loop].
  - exists st. auto.
  - destruct (closest_step_ok ar st r) as (st1 & -> & H1);
      [apply Hnz; now left|].
    cbn [bind].
    destruct (IH st1) as (st' & -> & H); [intros; apply Hnz; now right|].
    exists st'. split; [reflexivity|].
    destruct H as [H|H]; [|right; now right].
    destruct H1 as [->| ->]; [now left|].
    right. left. now rewrite H.
Qed.

Lemma special_cases_cases image_size b area :
  special_cases image_size b area = b \/
  special_cases image_size b area = (1, 1) \/
  special_cases image_size b area = (2, 2).
Proof.
  unfold special_cases.
  destruct (ratio_eqb b (2, 3) || ratio_eqb b (3, 2)) eqn:E1.
  - destruct (area <? image_size * image_size * 4).
    + simpl. destruct (area <? image_size * image_size); auto.
    + apply orb_true_iff in E1.
      replace (ratio_eqb b (1, 1) || ratio_eqb b (2, 2)) with false; auto.
      symmetry. apply orb_false_iff.
      destruct E1 as [E|E]; apply ratio_eqb_eq in E; subst b; auto.
  - destruct (ratio_eqb b (1, 1) || ratio_eqb b (2, 2)); auto.
    destruct (area <? image_size * image_size); auto.
Qed.

(** Whatever the float comparisons decide, the grid chosen is a candidate
    or one of the two grids of the special cases. *)
Lemma find_closest_aspect_ratio_range image_size order ar w h mn mx :
  set_iteration order ->
  exists g,
    find_closest_aspect_ratio image_size ar
      (order (target_ratio_gen mn mx)) w h = Ok g /\
    (In g (target_ratio_gen mn mx) \/ g = (1, 1) \/ g = (2, 2)).
Proof.
  intros Hord. unfold find_closest_aspect_ratio.
  destruct (closest_loop_ok ar (order (target_ratio_gen mn mx))
              (PyFloat.inf, (1, 1))) as (st & -> & Hst).
  { intros [i j] Hin. apply (proj1 (set_iteration_In _ _ _ Hord)) in Hin.
    apply In_target_ratio_gen in Hin. simpl. destruct Hin as (n & ?). lia. }
  simpl. eexists. split; [reflexivity|].
  destruct (special_cases_cases image_size (snd st) (w * h)) as [->|[->| ->]];
    auto.
  simpl in Hst. destruct Hst as [->|Hin]; auto.
  left. now apply (proj1 (set_iteration_In _ _ _ Hord)) in Hin.
Qed.

Lemma best_grid_range image_size order w h mn mx :
  set_iteration order -> h <> 0 ->
  exists g,
    best_grid image_size order w h mn mx = Ok g /\
    (In g (target_ratio_gen mn mx) \/ g = (1, 1) \/ g = (2, 2)).
Proof.
  intros Hord Hh. unfold best_grid, PyFloat.truediv.
  destruct (Z.eqb_spec h 0) as [?|_]; [contradiction|]. simpl.
  now apply find_closest_aspect_ratio_range.
Qed.

Lemma In_target_ratio_gen_pos mn mx g :
  In g (target_ratio_gen mn mx) \/ g = (1, 1) \/ g = (2, 2) ->
  1 <= fst g /\ 1 <= snd g.
Proof.
  destruct g as [i j]. intros [H|[H|H]].
  - apply In_target_ratio_gen in H as (n & ?). simpl. lia.
  - injection H as -> ->. simpl. lia.
  - injection H as -> ->. simpl. lia.
Qed.

(** C5 as stated fails on both sides. With [max_num = 2], a 448 x 448
    image and tiles of 448 pixels, the loop picks (1, 1) and the second
    special case replaces it by (2, 2): four tiles where at most two were
    asked for. With [min_num = 2] and a 100 x 100 image the loop picks
    (2, 2) and the same special case replaces it by (1, 1): one tile where
    at least two were asked for. *)
Lemma best_grid_within_bounds_counterexample :
  (best_grid 448 generation_order 448 448 1 2 = Ok (2, 2) /\
   ~ (1 <= fst (2, 2) * snd (2, 2) <= 2)) /\
  (best_grid 448 generation_order 100 100 2 6 = Ok (1, 1) /\
   ~ (2 <= fst (1, 1) * snd (1, 1) <= 6)).
Proof.
  split; (split; [vm_compute; reflexivity|simpl; lia]).
Qed.

(** C5, amended. For all [width], [height], [image_size] and every
    iteration order of the candidate set, when [min_num <= 1] and
    [4 <= max_num] (as with the defaults 1 and 6, the only values the code
    calls it with) the grid returned by [best_grid] has
    [min_num <= cols * rows <= max_num], special cases included; a grid
    is returned whenever the height is not zero. *)
Theorem best_grid_within_bounds image_size order w h mn mx :
  set_iteration order -> mn <= 1 -> 4 <= mx ->
  (h <> 0 -> exists g, best_grid image_size order w h mn mx = Ok g) /\
  (forall g, best_grid image_size order w h mn mx = Ok g ->
             mn <= fst g * snd g <= mx).
Proof.
  intros Hord Hmn Hmx. split.
  - intros Hh. destruct (best_grid_range image_size order w h mn mx Hord Hh)
      as (g & Hg & _). now exists g.
  - intros g Hg. destruct (Z.eq_dec h 0) as [->|Hh].
    + unfold best_grid, PyFloat.truediv in Hg. simpl in Hg. discriminate.
    + destruct (best_grid_range image_size order w h mn mx Hord Hh)
        as (g' & Hg' & Hin).
      rewrite Hg in Hg'. injection Hg' as <-.
      destruct Hin as [Hin|[-> | ->]]; [|simpl; lia..].
      destruct g as [i j]. apply In_target_ratio_gen in Hin as (n & ?).
      simpl. lia.
Qed.

Lemma best_grid_within_bounds_witness :
  exists g, best_grid 448 generation_order 800 600 1 6 = Ok g /\
            1 <= fst g * snd g <= 6.
Proof.
  destruct (best_grid_within_bounds 448 generation_order 800 600 1 6
              generation_order_set ltac:(lia) ltac:(lia)) as [H1 H2].
  destruct H1 as [g Hg]; [lia|].
  exists g. split; [exact Hg|exact (H2 g Hg)].
Defined.

Lemma mapM_total {A B : Type} (f : A -> res B) (P : B -> Prop) l :
  (forall x, In x l -> exists y, f x = Ok y /\ P y) ->
  exists ys, mapM f l = Ok ys /\ length ys = length l /\ Forall P ys.
Proof.
  induction l as [|x xs IH]; intros H; cbn [mapM].
  - exists []. repeat split. constructor.
  - destruct (H x (or_introl eq_refl)) as (y & -> & Py).
    destruct IH as (ys & -> & Hl & HP); [intros; apply H; now right|].
    cbn [bind]. exists (y :: ys). repeat split; simpl; auto.
Qed.

Lemma tile_box_ok image_size c i :
  0 < image_size -> 1 <= c ->
  exists l u, tile_box image_size (image_size * c) i
              = Ok (l, u, l + image_size, u + image_size).
Proof.
  intros Hs Hc. unfold tile_box, Py.floordiv, Py.mod_.
  destruct (Z.eqb_spec image_size 0) as [?|_]; [lia|]. cbn [bind].
  replace (image_size * c / image_size) with c
    by (rewrite Z.mul_comm, Z.div_mul; lia).
  destruct (Z.eqb_spec c 0) as [?|_]; [lia|]. cbn [bind].
  eexists _, _. f_equal. f_equal; [f_equal|]; lia.
Qed.

(** C4. For every image with a non-zero height, tiles of a positive size
    and every grid [(cols, rows)] that [best_grid] chooses for the image,
    [dynamic_preprocess] returns tiles that are all
    [image_size x image_size]; there are [cols * rows] of them without the
    thumbnail option, [cols * rows + 1] with it when [cols * rows > 1],
    and exactly one with it when [cols * rows = 1]. *)
Theorem dynamic_preprocess_tiles image_size use_thumbnail order image mn mx :
  set_iteration order -> 0 < image_size -> snd (size image) <> 0 ->
  exists g tiles,
    best_grid image_size order (fst (size image)) (snd (size image)) mn mx
    = Ok g /\
    dynamic_preprocess image_size use_thumbnail order image mn mx
    = Ok tiles /\
    Forall (fun t => size t = (image_size, image_size)) tiles /\
    1 <= fst g * snd g /\
    (use_thumbnail = false -> Py.len tiles = fst g * snd g) /\
    (use_thumbnail = true -> 1 < fst g * snd g ->
     Py.len tiles = fst g * snd g + 1) /\
    (use_thumbnail = true -> fst g * snd g = 1 -> Py.len tiles = 1).
Proof.
  intros Hord Hs Hh. unfold dynamic_preprocess.
  destruct (size image) as [w h] eqn:Esize. simpl in Hh. simpl fst. simpl snd.
  destruct (best_grid_range image_size order w h mn mx Hord Hh)
    as (g & Hg & Hin).
  apply In_target_ratio_gen_pos in Hin as [Hc Hr].
  exists g. rewrite Hg. cbn [bind].
  assert (Hb : 1 <= fst g * snd g) by nia.
  destruct (mapM_total
    (fun i => box <- tile_box image_size (image_size * fst g) i ;;
              Ok (crop (resize image (image_size * fst g,
                                      image_size * snd g)) box))
    (fun t => size t = (image_size, image_size))
    (Py.range 0 (fst g * snd g))) as (ts & Hts & Hlen & Hall).
  { intros i _. destruct (tile_box_ok image_size (fst g) i Hs Hc)
      as (l & u & ->). cbn [bind]. eexists. split; [reflexivity|].
    simpl. f_equal; lia. }
  rewrite Hts. cbn [bind]. rewrite range_length in Hlen.
  assert (Hl : Py.len ts = fst g * snd g) by (unfold Py.len; lia).
  rewrite Hl, Z.eqb_refl. cbn [assert_ bind].
  destruct use_thumbnail; cbn [andb].
  - destruct (Z.eqb_spec (fst g * snd g) 1) as [E|E]; cbn [negb].
    + exists ts. repeat split; auto; try discriminate; try lia.
    + eexists. split; [reflexivity|]. split; [reflexivity|]. split.
      * apply Forall_app. split; [exact Hall|]. constructor; [|constructor].
        reflexivity.
      * unfold Py.len in *. rewrite length_app. simpl.
        repeat split; try discriminate; try lia.
  - exists ts. repeat split; auto; try discriminate.
Qed.

Lemma dynamic_preprocess_tiles_witness :
  exists tiles,
    dynamic_preprocess 448 true generation_order (Decoded "a" 800 600) 1 6
    = Ok tiles /\
    Forall (fun t => size t = (448, 448)) tiles /\ Py.len tiles = 5.
Proof.
  destruct (dynamic_preprocess_tiles 448 true generation_order
              (Decoded "a" 800 600) 1 6 generation_order_set
              ltac:(lia) ltac:(simpl; lia))
    as (g & tiles & Hg & Ht & Hall & _ & _ & Hlen & _).
  exists tiles. split; [exact Ht|]. split; [exact Hall|].
  assert (Eg : g = (2, 2)) by (vm_compute in Hg; congruence).
  subst g. apply Hlen; [reflexivity|simpl; lia].
Defined.

(** *** Square images *)

Lemma digits2_pos_iter_xO m k :
  digits2_pos (Pos.iter xO m k) = (digits2_pos m + k)%positive.
Proof.
  induction k using Pos.peano_ind.
  - simpl. lia.
  - rewrite Pos.iter_succ. simpl. rewrite IHk. lia.
Qed.

Lemma digits2_pos_size p : digits2_pos p = Pos.size p.
Proof. induction p; simpl; congruence. Qed.

Lemma digits2_pos_bound m :
  Z.pos m < 2 ^ 53 -> (digits2_pos m <= 53)%positive.
Proof.
  intros H.
  rewrite digits2_pos_size. pose proof (Pos.size_le m) as Hle.
  destruct (Pos.leb_spec (Pos.size m) 53) as [?|Hgt]; [assumption|exfalso].
  assert (2 ^ 54 <= 2 ^ Z.pos (Pos.size m)) by (apply Z.pow_le_mono_r; lia).
  assert (H1 : Z.pos (2 ^ Pos.size m) <= Z.pos m~0) by exact Hle.
  rewrite Pos2Z.inj_pow in H1. change (Z.pos 2) with 2 in H1.
  rewrite Pos2Z.inj_xO in H1. lia.
Qed.

(** Rounding leaves a 53-digit mantissa with an exponent in range alone. *)
Lemma binary_round_aux_canonical mz ez :
  Z.pos (digits2_pos mz) = 53 -> -1074 <= ez <= 971 ->
  binary_round_aux prec emax false (Z.pos mz) ez loc_Exact
  = S754_finite false mz ez.
Proof.
  intros Hd He. unfold binary_round_aux, shr_fexp, Zdigits2.
  rewrite Hd. unfold fexp, emin, prec, emax.
  replace (Z.max (53 + ez - 53) (3 - 1024 - 53) - ez) with 0 by lia.
  cbn [shr shr_record_of_loc shr_m loc_of_shr_record round_nearest_even
       Zdigits2].
  rewrite Hd.
  replace (Z.max (53 + ez - 53) (3 - 1024 - 53) - ez) with 0 by lia.
  cbn [shr shr_record_of_loc shr_m].
  destruct (Z.leb_spec ez (1024 - 53)); [reflexivity|lia].
Qed.

(** A positive integer below [2^53] converts to a finite float. *)
Lemma binary_normalize_finite w :
  0 < w < 2 ^ 53 ->
  exists m e, binary_normalize prec emax w 0 false = S754_finite false m e.
Proof.
  intros Hw. destruct w as [|m|m]; try lia.
  unfold binary_normalize, binary_round.
  pose proof (digits2_pos_bound m ltac:(lia)) as Hd.
  unfold shl_align, fexp, emin, prec, emax.
  replace (Z.max (Z.pos (digits2_pos m) + 0 - 53) (3 - 1024 - 53) - 0)
    with (Z.pos (digits2_pos m) - 53) by lia.
  replace (Z.max (Z.pos (digits2_pos m) + 0 - 53) (3 - 1024 - 53))
    with (Z.pos (digits2_pos m) - 53) by lia.
  destruct (Z.pos (digits2_pos m) - 53) as [|d|d] eqn:E; try lia.
  - eexists _, _. apply binary_round_aux_canonical; lia.
  - eexists _, _. apply binary_round_aux_canonical; [|lia].
    rewrite digits2_pos_iter_xO. lia.
Qed.

(** A finite float divided by itself is 1. *)
Lemma SFdiv_self s m e :
  SFdiv prec emax (S754_finite s m e) (S754_finite s m e) = Prim2SF 1%float.
Proof.
  unfold SFdiv, SFdiv_core_binary.
  change IntDef.Z.min with Z.min. change IntDef.Z.shiftl with Z.shiftl.
  change IntDef.Z.div_eucl with Z.div_eucl.
  replace (Zdigits2 (Z.pos m) + e - (Zdigits2 (Z.pos m) + e)) with 0 by lia.
  replace (e - e) with 0 by lia.
  change (Z.min (fexp prec emax 0) 0) with (-53).
  change (0 - -53) with 53.
  cbv iota beta.
  assert (Z.div_eucl (Z.shiftl (Z.pos m) 53) (Z.pos m) = (2 ^ 53, 0)) as ->.
  { rewrite Z.shiftl_mul_pow2 by lia.
    pose proof (Z_div_mod (Z.pos m * 2 ^ 53) (Z.pos m) ltac:(lia)) as H.
    destruct (Z.div_eucl (Z.pos m * 2 ^ 53) (Z.pos m)) as [q r].
    destruct H as [H1 H2].
    rewrite (Zdiv_unique _ _ q r H2 H1), (Zmod_unique _ _ q r H2 H1).
    rewrite (Z.mul_comm (Z.pos m)), Z.div_mul, Z.mod_mul by lia.
    reflexivity. }
  assert (new_location (Z.pos m) 0 = loc_Exact) as ->.
  { unfold new_location. now destruct (Z.even (Z.pos m)). }
  rewrite xorb_nilpotent. vm_compute. reflexivity.
Qed.

(** [w / w] is exactly [1.0] for an image dimension [w]. *)
Lemma truediv_self w :
  0 < w < 2 ^ 53 -> PyFloat.truediv w w = Ok 1%float.
Proof.
  intros Hw. unfold PyFloat.truediv, PyFloat.of_int.
  destruct (Z.eqb_spec w 0) as [?|_]; [lia|].
  destruct (Z.ltb_spec w 0) as [?|_]; [lia|]. f_equal.
  apply Prim2SF_inj.
  rewrite FloatAxioms.div_spec, FloatAxioms.of_uint63_spec.
  rewrite Uint63.of_Z_spec, Z.mod_small
    by (unfold wB; simpl; split; [lia|]; apply Z.lt_trans with (2 ^ 53); lia).
  destruct (binary_normalize_finite w Hw) as (m & e & ->).
  apply SFdiv_self.
Qed.

Lemma small_grids_checked : forallb score_of_square_ok small_grids = true.
Proof. vm_compute. reflexivity. Qed.

Lemma score_of_square_facts r :
  1 <= fst r <= 8 -> 1 <= snd r <= 8 ->
  PrimFloat.ltb (score_of_square r) 0%float = false /\
  (fst r = snd r -> score_of_square r = 0%float) /\
  (fst r <> snd r -> PrimFloat.ltb 0%float (score_of_square r) = true).
Proof.
  intros H1 H2.
  assert (Hin : In r small_grids).
  { destruct r as [i j]. apply in_prod; apply In_range; simpl in *; lia. }
  pose proof (proj1 (forallb_forall _ _) small_grids_checked r Hin) as Hc.
  unfold score_of_square_ok in Hc. apply andb_true_iff in Hc as [Ha Hb].
  apply negb_true_iff in Ha. split; [exact Ha|]. split; intros E.
  - apply Z.eqb_eq in E. rewrite E in Hb.
    now apply FloatAxioms.Leibniz.eqb_spec.
  - apply Z.eqb_neq in E. now rewrite E in Hb.
Qed.

Lemma closest_step_square st r :
  1 <= fst r -> 1 <= snd r -> fst r * snd r <= 8 ->
  square_won st \/ square_pending st ->
  exists st',
    closest_step 1%float st r = Ok st' /\
    (square_won st' \/ square_pending st') /\
    (square_won st -> square_won st') /\
    (fst r = snd r -> square_won st').
Proof.
  intros Hi Hj Hp Hst.
  destruct (score_of_square_facts r ltac:(nia) ltac:(nia)) as (F0 & Fsq & Fnsq).
  unfold closest_step, PyFloat.truediv.
  destruct (Z.eqb_spec (snd r) 0) as [?|_]; [lia|]. cbn [bind].
  fold (score_of_square r).
  destruct Hst as [[Hz Hr]|Hpos].
  - rewrite Hz, F0. exists st. unfold square_won. tauto.
  - destruct (Z.eq_dec (fst r) (snd r)) as [E|E].
    + rewrite (Fsq E). unfold square_pending in Hpos. rewrite Hpos.
      eexists. split; [reflexivity|].
      assert (W : square_won (0%float, r)).
      { split; [reflexivity|]. destruct r as [i j]. simpl in *. subst j.
        assert (i = 1 \/ i = 2) as [-> | ->] by nia; auto. }
      tauto.
    + specialize (Fnsq E).
      destruct (PrimFloat.ltb (score_of_square r) (fst st)).
      * eexists. split; [reflexivity|]. split; [now right|].
        split; [|tauto]. intros [Hz _].
        unfold square_pending in Hpos. rewrite Hz in Hpos. discriminate.
      * exists st. split; [reflexivity|]. split; [now right|]. tauto.
Qed.

Lemma closest_loop_square rs : forall st,
  (forall r, In r rs -> 1 <= fst r /\ 1 <= snd r /\ fst r * snd r <= 8) ->
  square_won st \/ square_pending st ->
  exists st',
    closest_loop 1%float rs st = Ok st' /\
    (square_won st' \/ square_pending st') /\
    (square_won st \/ (exists r, In r rs /\ fst r = snd r) ->
     square_won st').
Proof.
  induction rs as [|r rs IH]; intros st Hrs Hst; cbn [closest_loop].
  - exists st. split; [reflexivity|]. split; [exact Hst|].
    intros [H|(r & [] & _)]. exact H.
  - destruct (Hrs r (or_introl eq_refl)) as (Hi & Hj & Hp).
    destruct (closest_step_square st r Hi Hj Hp Hst)
      as (st1 & -> & Hst1 & Hkeep & Hsq).
    cbn [bind].
    destruct (IH st1) as (st' & -> & Hst' & Hwon);
      [intros; apply Hrs; now right|exact Hst1|].
    exists st'. split; [reflexivity|]. split; [exact Hst'|].
    intros [H|(r' & [<-|Hin] & E)]; apply Hwon; eauto.
Qed.

Lemma special_cases_square image_size b area :
  b = (1, 1) \/ b = (2, 2) ->
  special_cases image_size b area
  = if area <? image_size * image_size then (1, 1) else (2, 2).
Proof. intros [-> | ->]; reflexivity. Qed.

(** C6 as stated fails: with [max_num = 9] the grid (3, 3) is a candidate
    whose score ties with (1, 1) and (2, 2); in an iteration order that
    reaches it first it wins, and no special case applies to it. *)
Lemma best_grid_square_counterexample :
  set_iteration reverse_order /\
  best_grid 448 reverse_order 448 448 1 9 = Ok (3, 3) /\
  best_grid 448 reverse_order 448 448 1 9
  <> Ok (if 448 * 448 <? 448 * 448 then (1, 1) else (2, 2)).
Proof.
  split; [exact reverse_order_set|].
  split; [vm_compute; reflexivity|vm_compute; discriminate].
Qed.

(** C6, amended. For every square image ([width = height], positive and
    below [2^53], so that the aspect ratio is exactly 1.0), with
    [min_num <= 1] and [4 <= max_num <= 8], [best_grid] returns (1, 1)
    when [width * height < image_size^2] and (2, 2) otherwise, in whatever
    order the candidate grids are iterated. *)
Theorem best_grid_square image_size order w mn mx :
  set_iteration order -> 0 < w < 2 ^ 53 ->
  mn <= 1 -> 4 <= mx <= 8 ->
  best_grid image_size order w w mn mx
  = Ok (if w * w <? image_size * image_size then (1, 1) else (2, 2)).
Proof.
  intros Hord Hw Hmn Hmx. unfold best_grid.
  rewrite truediv_self by exact Hw. cbn [bind].
  unfold find_closest_aspect_ratio.
  destruct (closest_loop_square (order (target_ratio_gen mn mx))
              (PyFloat.inf, (1, 1))) as (st & -> & _ & Hwon).
  - intros [i j] Hin. apply (proj1 (set_iteration_In _ _ _ Hord)) in Hin.
    apply In_target_ratio_gen in Hin as (n & ?). simpl. lia.
  - right. reflexivity.
  - cbn [bind]. f_equal. apply special_cases_square.
    apply Hwon. right. exists (1, 1). split; [|reflexivity].
    apply (set_iteration_In _ _ _ Hord). apply In_target_ratio_gen.
    exists 1. lia.
Qed.

Lemma best_grid_square_witness :
  best_grid 448 generation_order 500 500 1 6 = Ok (2, 2).
Proof.
  exact (best_grid_square 448 generation_order 500 1 6 generation_order_set
           ltac:(lia) ltac:(lia) ltac:(lia)).
Defined.

End TilingProofs.

(** ** LazySupervisedDataset: the lines a rank keeps *)

Module RankSliceProofs.
Import LazySupervisedDataset.

Lemma slice_inside {A : Type} (l : list A) (a b : Z) :
  0 <= a <= b -> b <= Py.len l ->
  Py.slice l a b = firstn (Z.to_nat (b - a)) (skipn (Z.to_nat a) l).
Proof.
  intros Ha Hb. unfold Py.slice, Py.adjust.
  destruct (Z.ltb_spec a 0) as [?|_]; [lia|].
  destruct (Z.ltb_spec b 0) as [?|_]; [lia|].
  now rewrite !Z.min_l by lia.
Qed.

Lemma index_firstn_skipn {A : Type} (l : list A) (a n j : Z) :
  0 <= a -> 0 <= j < n -> a + n <= Py.len l ->
  Py.index (firstn (Z.to_nat n) (skipn (Z.to_nat a) l)) j
  = Py.index l (a + j).
Proof.
  intros Ha Hj Hn. unfold Py.index, Py.len in *.
  rewrite length_firstn, length_skipn.
  destruct (Z.ltb_spec j 0) as [?|_]; [lia|].
  destruct (Z.ltb_spec (a + j) 0) as [?|_]; [lia|].
  change (j <? 0) with (Z.ltb j 0).
  destruct (Z.ltb_spec j 0) as [?|_]; [lia|].
  destruct (Z.ltb_spec (a + j) 0) as [?|_]; [lia|]. cbn [orb].
  destruct (Z.leb_spec (Z.of_nat (Nat.min (Z.to_nat n)
                                    (length l - Z.to_nat a))) j); [lia|].
  destruct (Z.leb_spec (Z.of_nat (length l)) (a + j)); [lia|].
  rewrite nth_error_firstn.
  destruct (Nat.ltb_spec (Z.to_nat j) (Z.to_nat n)); [|lia].
  rewrite nth_error_skipn. now replace (Z.to_nat a + Z.to_nat j)%nat
    with (Z.to_nat (a + j)) by lia.
Qed.

Section Reads.
Variable bundle : Type.
Variable try_body : string -> res bundle.
Variable except_body : string -> res unit.

Lemma getitem_loop_reads fuel raw_data : forall i draws reads n,
  0 <= i < n ->
  (forall d, In d draws -> 0 <= d < n) ->
  (forall p, In p reads -> 0 <= p < n) ->
  forall p,
    In p (fst (getitem_loop bundle try_body except_body fuel raw_data i
                 draws reads)) ->
    0 <= p < n.
Proof.
  induction fuel as [|fuel IH]; intros i draws reads n Hi Hd Hr p;
    cbn [getitem_loop].
  - apply Hr.
  - assert (Hr' : forall q, In q (reads ++ [i]) -> 0 <= q < n).
    { intros q Hq. apply in_app_or in Hq as [Hq|[<-|[]]]; auto. }
    destruct (line <- Py.index raw_data i ;; try_body line);
      [apply Hr'|].
    destruct (line <- Py.index raw_data i ;; except_body line);
      [|apply Hr'].
    destruct draws as [|d draws]; [apply Hr'|].
    apply IH; auto.
    + apply Hd. now left.
    + intros d' Hd'. apply Hd. now right.
Qed.

Lemma getitem_reads fuel raw_data i draws :
  (forall d, In d draws -> 0 <= d <= Py.len raw_data - 1) ->
  forall p,
    In p (fst (__getitem__ bundle try_body except_body fuel raw_data i
                 draws)) ->
    0 <= p < Py.len raw_data.
Proof.
  intros Hd p. unfold __getitem__, Py.mod_.
  destruct (Z.eqb_spec (Py.len raw_data) 0) as [E|E]; [intros []|].
  apply getitem_loop_reads.
  - apply Z.mod_pos_bound. unfold Py.len in *. lia.
  - intros d H. apply Hd in H. lia.
  - intros q [].
Qed.

End Reads.

(** C10. With [lines_per_rank = total_lines // world_size], rank [r] of
    [0 .. world_size-1] keeps exactly the lines at the file positions
    [lines_per_rank * r .. lines_per_rank * (r + 1) - 1]; [__len__] is
    [lines_per_rank * world_size]; [__getitem__] reads only positions
    [0 .. lines_per_rank - 1] of what the rank kept; so the last
    [total_lines mod world_size] positions of the file belong to no rank
    and no [__getitem__] call reads them. *)
Theorem rank_slices_drop_remainder (lines : list string) (world_size : Z) :
  0 < world_size ->
  let total_lines := Py.len lines in
  let lines_per_rank := total_lines / world_size in
  (forall rank, 0 <= rank < world_size ->
     exists raw_data,
       init_raw_data lines world_size rank = Ok raw_data /\
       Py.len raw_data = lines_per_rank /\
       __len__ raw_data world_size = lines_per_rank * world_size /\
       (forall j, 0 <= j < lines_per_rank ->
          Py.index raw_data j = Py.index lines (lines_per_rank * rank + j)) /\
       (forall bundle try_body except_body fuel i draws p,
          (forall d, In d draws -> 0 <= d <= Py.len raw_data - 1) ->
          In p (fst (__getitem__ bundle try_body except_body fuel raw_data i
                       draws)) ->
          0 <= p < lines_per_rank)) /\
  (total_lines - total_lines mod world_size = lines_per_rank * world_size) /\
  (forall p, total_lines - total_lines mod world_size <= p < total_lines ->
     forall rank j, 0 <= rank < world_size -> 0 <= j < lines_per_rank ->
                    lines_per_rank * rank + j <> p).
Proof.
  intros Hw total_lines lines_per_rank.
  assert (Ht : 0 <= total_lines) by (unfold total_lines, Py.len; lia).
  assert (Hq : 0 <= lines_per_rank) by (apply Z.div_pos; lia).
  pose proof (Z.div_mod total_lines world_size ltac:(lia)) as Hdm.
  pose proof (Z.mod_pos_bound total_lines world_size Hw) as Hmod.
  fold lines_per_rank in Hdm.
  split; [|split].
  - intros rank Hr. unfold init_raw_data, Py.floordiv.
    destruct (Z.eqb_spec world_size 0) as [?|_]; [lia|]. cbn [bind].
    fold total_lines. fold lines_per_rank.
    assert (Hend : lines_per_rank * rank + lines_per_rank <= total_lines)
      by nia.
    assert (Hstart : 0 <= lines_per_rank * rank) by nia.
    rewrite slice_inside by (fold total_lines; lia).
    replace (lines_per_rank * rank + lines_per_rank - lines_per_rank * rank)
      with lines_per_rank by lia.
    eexists. split; [reflexivity|].
    assert (Hlen : Py.len (firstn (Z.to_nat lines_per_rank)
                    (skipn (Z.to_nat (lines_per_rank * rank)) lines))
                   = lines_per_rank).
    { unfold Py.len. rewrite length_firstn, length_skipn.
      unfold total_lines, Py.len in Hend. lia. }
    split; [exact Hlen|]. split; [unfold __len__; now rewrite Hlen|]. split.
    + intros j Hj. apply index_firstn_skipn; fold total_lines; lia.
    + intros bundle try_body except_body fuel i draws p Hd Hp.
      rewrite <- Hlen. eapply getitem_reads; eauto.
  - lia.
  - intros p Hp rank j Hr Hj. nia.
Qed.

Lemma rank_slices_drop_remainder_witness :
  init_raw_data ["a"; "b"; "c"; "d"; "e"] 2 1 = Ok ["c"; "d"] /\
  (forall p, 5 - 5 mod 2 <= p < 5 ->
     forall rank j, 0 <= rank < 2 -> 0 <= j < 5 / 2 -> 5 / 2 * rank + j <> p).
Proof.
  split; [reflexivity|].
  exact (proj2 (proj2 (rank_slices_drop_remainder
                         ["a"; "b"; "c"; "d"; "e"] 2 ltac:(lia)))).
Defined.

End RankSliceProofs.

(** ** JSON-Lines loading *)

Module JsonLinesProofs.
Import Examples.

Section Loader.
Variable R : Type.
Variable json_loads : string -> res (option R).
Variable read_lines : string -> res (list string).

Lemma trims_succ k line : trims (S k) line = trims k (PyStr.drop_last line).
Proof. unfold trims. apply Nat.iter_succ_r. Qed.

(** Each failed attempt drops one trailing character; the first text that
    parses ends the loop. *)
Lemma load_json_line_loop_success (k : nat) : forall n line data,
  (k < n)%nat ->
  (forall j, (j < k)%nat -> fails R json_loads (trims j line)) ->
  json_loads (trims k line) = Ok data ->
  load_json_line_loop R json_loads n line = (data, trims k line).
Proof.
  induction k as [|k IH]; intros n line data Hn Hfail Hok;
    (destruct n as [|n]; [lia|]); cbn [load_json_line_loop].
  - cbn in Hok. now rewrite Hok.
  - destruct (Hfail 0%nat ltac:(lia)) as (e & He). cbn in He. rewrite He.
    rewrite trims_succ. apply IH; [lia| |now rewrite <- trims_succ].
    intros j Hj. rewrite <- trims_succ. apply Hfail. lia.
Qed.

Lemma load_json_line_loop_failure (n : nat) : forall line,
  (forall j, (j < n)%nat -> fails R json_loads (trims j line)) ->
  load_json_line_loop R json_loads n line = (None, trims n line).
Proof.
  induction n as [|n IH]; intros line Hfail; cbn [load_json_line_loop].
  - reflexivity.
  - destruct (Hfail 0%nat ltac:(lia)) as (e & He). cbn in He. rewrite He.
    rewrite trims_succ. apply IH.
    intros j Hj. rewrite <- trims_succ. apply Hfail. lia.
Qed.

Lemma load_jsonl_loop_app l1 : forall l2 data,
  load_jsonl_loop R json_loads (l1 ++ l2) data
  = match load_jsonl_loop R json_loads l1 data with
    | Ok data' => load_jsonl_loop R json_loads l2 data'
    | Raise e => Raise e
    end.
Proof.
  induction l1 as [|line l1 IH]; intros l2 data; cbn [load_jsonl_loop app].
  - reflexivity.
  - destruct (PyStr.len (PyStr.strip line) >? 2); [|apply IH].
    destruct (load_json_line R json_loads line 20); [apply IH|reflexivity].
Qed.

(** C9, amended. Parsing a line drops exactly one trailing character per
    failed attempt, for up to 20 attempts. If the line less its last
    [k <= 19] characters is the first text to parse, and parses to a value
    other than [null], [load_json_line] returns that value. If none of
    the 20 texts parses, [load_json_line] raises, naming the text left
    after the 20 cuts, and [load_jsonl], for a line of more than two
    characters once stripped, raises a [ValueError] that carries the
    original line and chains that failure; it ends the loading of the
    file, whatever follows the line. *)
Theorem load_json_line_retries (line : string) :
  (forall (k : nat) (v : R),
     (k <= 19)%nat ->
     (forall j, (j < k)%nat -> fails R json_loads (trims j line)) ->
     json_loads (trims k line) = Ok (Some v) ->
     load_json_line R json_loads line 20 = Ok v) /\
  ((forall j, (j < 20)%nat -> fails R json_loads (trims j line)) ->
   load_json_line R json_loads line 20
   = Raise (Exception_ ("Failed to get " +++ trims 20 line)) /\
   (PyStr.len (PyStr.strip line) > 2 ->
    forall path before after data,
      read_lines path = Ok (before ++ line :: after) ->
      load_jsonl_loop R json_loads before [] = Ok data ->
      load_jsonl R json_loads read_lines path
      = Raise (ValueError ("Failed to load line: " +++ line)
                 (Exception_ ("Failed to get " +++ trims 20 line))))).
Proof.
  split.
  - intros k v Hk Hfail Hok. unfold load_json_line.
    change (20 <=? 0) with false. cbv iota.
    change (Z.to_nat 20) with 20%nat.
    now rewrite (load_json_line_loop_success k 20 line (Some v))
      by (trivial; lia).
  - intros Hfail.
    assert (Hline : load_json_line R json_loads line 20
                    = Raise (Exception_ ("Failed to get " +++ trims 20 line))).
    { unfold load_json_line. change (20 <=? 0) with false. cbv iota.
      change (Z.to_nat 20) with 20%nat.
      now rewrite (load_json_line_loop_failure 20 line Hfail). }
    split; [exact Hline|].
    intros Hlen path before after data Hread Hbefore.
    unfold load_jsonl. rewrite Hread. cbn [bind].
    rewrite load_jsonl_loop_app, Hbefore. cbn [load_jsonl_loop].
    destruct (Z.gtb_spec (PyStr.len (PyStr.strip line)) 2); [|lia].
    now rewrite Hline.
Qed.

End Loader.

(** C9 as stated fails, twice. The line [null] is JSON as it stands, no
    character has to go, yet [load_json_line] raises (the [None] it parsed
    is taken for the mark of a failure) and so does [load_jsonl]. And the
    line [{x], which no cut makes parse, raises nothing in [load_jsonl]:
    with two characters once stripped it is skipped before any parsing. *)
Lemma load_json_line_null_counterexample :
  (json_loads_array (trims 0 "null") = Ok None /\
   load_json_line (list Z) json_loads_array "null" 20
   = Raise (Exception_ "Failed to get null") /\
   load_jsonl (list Z) json_loads_array (fun _ => Ok ["null"]) "shard.jsonl"
   = Raise (ValueError "Failed to load line: null"
              (Exception_ "Failed to get null"))) /\
  (json_loads_array (trims 0 "{x") = Raise JSONDecodeError /\
   json_loads_array (trims 1 "{x") = Raise JSONDecodeError /\
   json_loads_array (trims 2 "{x") = Raise JSONDecodeError /\
   trims 2 "{x" = EmptyString /\ trims 3 "{x" = EmptyString /\
   load_jsonl (list Z) json_loads_array (fun _ => Ok ["{x"]) "shard.jsonl"
   = Ok []).
Proof. repeat split; vm_compute; reflexivity. Qed.

Lemma load_json_line_retries_witness :
  load_json_line (list Z) json_loads_array "[1, 2]xy" 20 = Ok [1; 2] /\
  load_jsonl (list Z) json_loads_array
             (fun _ => Ok ["[1, 2]"; "{1, 2"; "[1, 2]"]) "shard.jsonl"
  = Raise (ValueError "Failed to load line: {1, 2"
             (Exception_ "Failed to get ")).
Proof.
  pose proof (load_json_line_retries (list Z) json_loads_array
                (fun _ => Ok ["[1, 2]"; "{1, 2"; "[1, 2]"])) as H.
  split.
  - apply (proj1 (H "[1, 2]xy") 2%nat [1; 2]);
      [lia| |vm_compute; reflexivity].
    intros [|[|j]] Hj;
      [exists JSONDecodeError; vm_compute; reflexivity..|lia].
  - assert (F : forall j, (j < 20)%nat ->
                  fails (list Z) json_loads_array (trims j "{1, 2")).
    { intros j Hj.
      do 20 (destruct j as [|j];
             [exists JSONDecodeError; vm_compute; reflexivity|]).
      lia. }
    destruct (proj2 (H "{1, 2") F) as [_ Hl].
    apply (Hl ltac:(vm_compute; reflexivity) "shard.jsonl"
              ["[1, 2]"] ["[1, 2]"] [[1; 2]]); vm_compute; reflexivity.
Defined.

End JsonLinesProofs.

(** ** InterleavedDataset: the shard index *)

Module ShardIndexProofs.
Import InterleavedDataset Examples.

(** *** The shard table built by [__init__] *)

Lemma of_Z_inj a b : PyStr.of_Z a = PyStr.of_Z b -> a = b.
Proof.
  unfold PyStr.of_Z. intros H. apply DecimalZ.to_int_inj.
  assert (Hnn : forall z, Z.to_int z <> Decimal.Pos Decimal.Nil /\
                          Z.to_int z <> Decimal.Neg Decimal.Nil).
  { intros [|p|p]; cbn; split; try discriminate;
      intros Hp; injection Hp as Hp;
      now apply DecimalPos.Unsigned.to_uint_nonnil in Hp. }
  destruct (Hnn a) as [Ha1 Ha2]. destruct (Hnn b) as [Hb1 Hb2].
  pose proof (NilZero.isi _ Ha1 Ha2) as Ia.
  pose proof (NilZero.isi _ Hb1 Hb2) as Ib.
  rewrite H in Ia. congruence.
Qed.

Lemma append_length a b :
  String.length (a +++ b) = (String.length a + String.length b)%nat.
Proof. induction a as [|c a IH]; simpl; congruence. Qed.

Lemma append_cancel_r s : forall a b, a +++ s = b +++ s -> a = b.
Proof.
  induction a as [|c a IH]; intros [|c' b] H; simpl in H.
  - reflexivity.
  - apply (f_equal String.length) in H. simpl in H.
    rewrite append_length in H. lia.
  - apply (f_equal String.length) in H. simpl in H.
    rewrite append_length in H. lia.
  - injection H as -> H. f_equal. now apply IH.
Qed.

Lemma append_cancel_l s : forall a b, s +++ a = s +++ b -> a = b.
Proof.
  induction s as [|c s IH]; intros a b H; simpl in H; [exact H|].
  injection H as H. now apply IH.
Qed.

Lemma shard_file_inj a b : shard_file a = shard_file b -> a = b.
Proof.
  unfold shard_file. intros H. apply append_cancel_l in H.
  apply append_cancel_r in H. now apply of_Z_inj.
Qed.

Lemma index_middle {A : Type} (l1 l2 : list A) (x : A) :
  Py.index (l1 ++ x :: l2) (Z.of_nat (length l1)) = Ok x.
Proof.
  unfold Py.index, Py.len.
  destruct (Z.ltb_spec (Z.of_nat (length l1)) 0) as [?|_]; [lia|].
  destruct (Z.ltb_spec (Z.of_nat (length l1)) 0) as [?|_]; [lia|].
  rewrite length_app. cbn [length orb].
  destruct (Z.leb_spec (Z.of_nat (length l1 + S (length l2)))
                       (Z.of_nat (length l1))); [lia|].
  rewrite Nat2Z.id, nth_error_app2, Nat.sub_diag by lia. reflexivity.
Qed.

Lemma partition_for_rank_all {A : Type} (l : list A) :
  partition_for_rank l 0 1 = Ok l.
Proof.
  unfold partition_for_rank, Py.range_step.
  replace (Z.to_nat ((Py.len l - 0 + 1 - 1) / 1)) with (length l)
    by (rewrite Z.div_1_r; unfold Py.len; lia).
  enough (H : forall l1 l2,
             mapM (fun idx => Py.index (l1 ++ l2) idx)
                  (map (fun k => 0 + Z.of_nat k * 1)
                       (seq (length l1) (length l2))) = Ok l2)
    by apply (H [] l).
  intros l1 l2. revert l1. induction l2 as [|x l2 IH]; intros l1.
  - reflexivity.
  - cbn [length seq map mapM].
    replace (0 + Z.of_nat (length l1) * 1) with (Z.of_nat (length l1)) by lia.
    rewrite index_middle. cbn [bind].
    specialize (IH (l1 ++ [x])). rewrite <- app_assoc in IH. cbn [app] in IH.
    rewrite length_app, Nat.add_1_r in IH. now rewrite IH.
Qed.

Lemma shard_entries_app n l1 : forall l2 i,
  shard_entries n (l1 ++ l2) i
  = shard_entries n l1 i ++ shard_entries n l2 (i + Z.of_nat (length l1)).
Proof.
  induction l1 as [|k l1 IH]; intros l2 i; cbn [shard_entries app length].
  - now rewrite Z.add_0_r.
  - rewrite IH. do 3 f_equal. lia.
Qed.

Lemma shard_entries_keys n l : forall i,
  map fst (shard_entries n l i) = map shard_file l.
Proof. induction l as [|k l IH]; intros i; cbn; [|rewrite IH]; reflexivity. Qed.

Lemma shard_entries_form n l : forall i name s e,
  In (name, (s, e)) (shard_entries n l i) ->
  exists j, i <= j /\ s = n * j /\ e = n * (j + 1) - 1.
Proof.
  induction l as [|k l IH]; intros i name s e H; cbn in H; [contradiction|].
  destruct H as [H|H].
  - injection H as _ <- <-. exists i. lia.
  - apply IH in H as (j & ? & ? & ?). exists j. lia.
Qed.

Lemma dict_set_fresh {V : Type} (d : dict V) k v :
  ~ In k (map fst d) -> dict_set d k v = d ++ [(k, v)].
Proof.
  induction d as [|[k' v'] d IH]; intros Hk; cbn [dict_set app].
  - reflexivity.
  - destruct (String.eqb_spec k' k) as [->|_].
    + exfalso. apply Hk. now left.
    + rewrite IH; [reflexivity|]. intros H. apply Hk. now right.
Qed.

(** Without a repeated shard the comprehension lists the shards in order,
    shard number [i] of the order with the range [(n*i, n*(i+1) - 1)]. *)
Lemma build_shard_id_range_spec n order :
  NoDup order ->
  build_shard_id_range n order = Ok (shard_entries n order 0).
Proof.
  intros Hnd. unfold build_shard_id_range, Py.range.
  replace (Z.to_nat (Py.len order - 0)) with (length order)
    by (unfold Py.len; lia).
  enough (H : forall l2 l1, order = l1 ++ l2 ->
    fold_left
      (fun acc i =>
         d <- acc ;; k <- Py.index order i ;;
         Ok (dict_set d (shard_file k) (n * i, n * (i + 1) - 1)))
      (map (fun k => 0 + Z.of_nat k) (seq (length l1) (length l2)))
      (Ok (shard_entries n l1 0))
    = Ok (shard_entries n (l1 ++ l2) 0))
    by (apply (H order []); reflexivity).
  induction l2 as [|k l2 IH]; intros l1 Heq.
  - now rewrite app_nil_r.
  - cbn [length seq map fold_left bind].
    replace (0 + Z.of_nat (length l1)) with (Z.of_nat (length l1)) by lia.
    rewrite Heq at 1. rewrite index_middle. cbn [bind].
    rewrite dict_set_fresh.
    2:{ rewrite shard_entries_keys. intros Hin.
        apply in_map_iff in Hin as (k' & Hk' & Hin').
        apply shard_file_inj in Hk'. subst k'.
        rewrite Heq in Hnd. apply NoDup_remove_2 in Hnd.
        apply Hnd. apply in_or_app. now left. }
    specialize (IH (l1 ++ [k])).
    rewrite <- app_assoc in IH. cbn [app] in IH.
    rewrite length_app, Nat.add_1_r in IH.
    rewrite shard_entries_app in IH. cbn [shard_entries] in IH.
    rewrite Z.add_0_l in IH. now apply IH.
Qed.

Lemma NoDup_range a b : NoDup (Py.range a b).
Proof.
  unfold Py.range. apply Finite.Injective_map_NoDup; [|apply seq_NoDup].
  intros x y H. lia.
Qed.

Section WithEnv.
Variable E : Env.

Lemma load_data_scan_none (self : Dataset) (st : State E) idx items :
  (forall name s e, In (name, (s, e)) items -> ~ (s <= idx < e)) ->
  load_data_scan E self st idx items = (Ok None, st).
Proof.
  induction items as [|[name [s e]] items IH]; intros H;
    cbn [load_data_scan]; [reflexivity|].
  destruct (Z.leb_spec s idx); destruct (Z.ltb_spec idx e); cbn [andb];
    try (apply IH; intros; eapply H; right; eassumption).
  exfalso. apply (H name s e); [now left|lia].
Qed.

(** The last index of a shard that is not the one in memory is in no
    range as the scan reads them, and [load_data] returns [None]. *)
Lemma gap_index_returns_None (self : Dataset) (st : State E) k k0 rest :
  shard_mode self = true ->
  0 < num_samples_each_shard self ->
  shard_id_range self
  = shard_entries (num_samples_each_shard self) (k0 :: rest) 0 ->
  current_shard_name st = shard_file k0 ->
  2 <= k -> num_samples_each_shard self * k - 1 < _length self ->
  load_data E self st (num_samples_each_shard self * k - 1) = (Ok None, st).
Proof.
  intros Hmode Hn Hrange Hname Hk HL. unfold load_data.
  rewrite Hmode. cbn [assert_].
  set (n := num_samples_each_shard self) in *.
  destruct (Z.geb_spec (n * k - 1) (_length self)) as [?|_]; [lia|].
  rewrite Hrange. cbn [shard_entries dict_get]. rewrite Hname.
  rewrite String.eqb_refl.
  destruct (Z.leb_spec (n * k - 1) (n * (0 + 1) - 1)) as [?|_]; [nia|].
  rewrite andb_false_r.
  apply load_data_scan_none. intros name s e Hin [H1 H2].
  change ((shard_file k0, (n * 0, n * (0 + 1) - 1))
          :: shard_entries n rest (0 + 1))
    with (shard_entries n (k0 :: rest) 0) in Hin.
  apply shard_entries_form in Hin as (j & Hj & -> & ->).
  assert (j < k) by (apply (Z.mul_lt_mono_pos_l n); lia).
  assert (k < j + 1) by (apply (Z.mul_lt_mono_pos_l n); lia).
  lia.
Qed.

(** Whatever the order of the shards, in the dataset as [__init__] leaves
    it the last index of every shard but the first, [34190 * k - 1] for
    [k = 2 .. 6144], lies in no range as the scan of [load_data] reads
    them ([start <= index < end] on an inclusive [end]), and [load_data]
    returns [None] for it. *)
Lemma load_data_after_init_gap
  (annotation root : string) (num_image_token max_num_images : Z)
  (train_num_samples : option Z) (dataset_resampled : bool) (seed : Z)
  (data : list Sample) :
  (dataset_resampled = true ->
   Permutation (fst (shuffle E Z (Random E seed) (Py.range 0 6144)))
               (Py.range 0 6144)) ->
  (forall name,
     load_jsonl Sample (json_loads E) (read_lines E)
       (PyStr.path_join annotation name) = Ok data) ->
  exists self st,
    __init__ E annotation root num_image_token max_num_images
      train_num_samples dataset_resampled seed = Ok (self, st) /\
    forall k, 2 <= k <= 6144 ->
      load_data E self st (34190 * k - 1) = (Ok None, st).
Proof.
  intros Hperm Hload. unfold __init__.
  rewrite partition_for_rank_all. cbn [bind].
  set (shuffled := if dataset_resampled
                   then shuffle E Z (Random E seed) (Py.range 0 6144)
                   else (Py.range 0 6144, Random E seed)).
  assert (Hp : Permutation (fst shuffled) (Py.range 0 6144)).
  { unfold shuffled. destruct dataset_resampled; [now apply Hperm|].
    apply Permutation_refl. }
  destruct shuffled as [order g]. cbn [fst] in Hp.
  assert (Hnd : NoDup order).
  { apply (Permutation_NoDup (Permutation_sym Hp)), NoDup_range. }
  assert (Hlen : Py.len order = 6144).
  { unfold Py.len. rewrite (Permutation_length Hp), range_length. lia. }
  destruct order as [|k0 rest]; [discriminate|].
  rewrite build_shard_id_range_spec by exact Hnd. cbn [bind].
  replace (Py.index (k0 :: rest) 0) with (@Ok Z k0).
  2:{ unfold Py.index. rewrite Hlen. reflexivity. }
  cbn [bind]. rewrite Hload. cbn [bind].
  destruct (shuffle E Sample g data) as [data' g'].
  eexists _, _. split; [reflexivity|].
  intros k Hk.
  match goal with
  | |- load_data E ?self ?st _ = _ =>
      apply (gap_index_returns_None self st k k0 rest)
  end;
    cbn [num_samples_each_shard _length shard_mode shard_id_range
         current_shard_name];
    try reflexivity; lia.
Qed.

(** C2, amended. For every global index that, once reduced, lies neither
    in the range of the shard in memory nor in any shard's range as the
    scan reads them ([start <= index < end]), [load_data] raises nothing:
    it returns [None], loads no shard and leaves the state as it was. The
    failure shows one call up, where [getitem] raises a [TypeError] on the
    [None]. *)
Theorem load_data_gap_silent (self : Dataset) (st : State E)
  (index idx start end_ : Z) :
  shard_mode self = true ->
  (if index >=? _length self then Py.mod_ index (_length self) else Ok index)
  = Ok idx ->
  dict_get (shard_id_range self) (current_shard_name st) = Ok (start, end_) ->
  ~ (start <= idx <= end_) ->
  (forall name s e, In (name, (s, e)) (shard_id_range self) ->
                    ~ (s <= idx < e)) ->
  load_data E self st index = (Ok None, st) /\
  getitem E self st index = (Raise TypeError, st).
Proof.
  intros Hmode Hidx Hhot Hout Hgap.
  assert (Hload : load_data E self st index = (Ok None, st)).
  { unfold load_data. rewrite Hmode. cbn [assert_]. rewrite Hidx, Hhot.
    destruct (Z.leb_spec start idx); destruct (Z.leb_spec idx end_);
      cbn [andb]; try (now apply load_data_scan_none). lia. }
  split; [exact Hload|]. unfold getitem. now rewrite Hload.
Qed.

(** The index [load_data] looks up, for a non-negative argument. *)
Lemma reduced_index (self : Dataset) (i : Z) :
  0 < _length self -> 0 <= i ->
  (if i >=? _length self then Py.mod_ i (_length self) else Ok i)
  = Ok (i mod _length self).
Proof.
  intros HL Hi. unfold Py.mod_.
  destruct (Z.eqb_spec (_length self) 0) as [?|_]; [lia|].
  destruct (Z.geb_spec i (_length self)); [reflexivity|].
  now rewrite Z.mod_small by lia.
Qed.

Lemma dict_get_In {V : Type} (d : dict V) k v :
  NoDup (map fst d) -> In (k, v) d -> dict_get d k = Ok v.
Proof.
  induction d as [|[k' v'] d IH]; intros Hnd Hin; [contradiction|].
  cbn [dict_get]. cbn in Hnd. inversion Hnd as [|? ? Hk Hnd']; subst.
  destruct Hin as [Heq|Hin].
  - injection Heq as -> ->. now rewrite String.eqb_refl.
  - destruct (String.eqb_spec k' k) as [->|_]; [|now apply IH].
    exfalso. apply Hk. apply in_map_iff. now exists (k, v).
Qed.

(** What a successful scan leaves behind: the shard it installed holds
    the index, and the record served is the one at its offset. *)
Lemma load_data_scan_found (self : Dataset) (st st1 : State E) idx r items :
  load_data_scan E self st idx items = (Ok (Some r), st1) ->
  exists start end_,
    In (current_shard_name st1, (start, end_)) items /\
    start <= idx < end_ /\
    Py.index (current_shard_data st1) (idx - start) = Ok r.
Proof.
  induction items as [|[name [start end_]] items IH];
    cbn [load_data_scan]; intros H; [discriminate|].
  destruct ((start <=? idx) && (idx <? end_)) eqn:Hin.
  - apply andb_true_iff in Hin as [H1 H2].
    apply Z.leb_le in H1. apply Z.ltb_lt in H2.
    destruct (load_ann_file E _) as [data|e]; [|discriminate].
    cbn [random] in H. destruct (shuffle E Sample _ data) as [data' g].
    cbn [current_shard_data] in H.
    destruct (Py.index data' (idx - start)) as [r'|e] eqn:Hidx;
      cbn [bind] in H; [|discriminate].
    injection H as <- <-. exists start, end_. cbn. auto.
  - destruct (IH H) as (s & e & Hi & Hr). exists s, e. split; [now right|].
    exact Hr.
Qed.

(** C7. For every index [i >= 0], [load_data(i)] and
    [load_data(i + total_length)] look up the same reduced index
    [i mod total_length]: from the same state they have the same outcome
    (the same record, served as a copy) and leave the same state; and
    when [load_data(i)] has served a record, [load_data(i + total_length)]
    called next serves that record again, from the shard then in memory. *)
Theorem load_data_wraparound (self : Dataset) (st : State E) (i : Z) :
  0 < _length self -> 0 <= i ->
  load_data E self st (i + _length self) = load_data E self st i /\
  (NoDup (map fst (shard_id_range self)) ->
   forall r st1,
     load_data E self st i = (Ok (Some r), st1) ->
     load_data E self st1 (i + _length self) = (Ok (Some r), st1)).
Proof.
  intros HL Hi.
  assert (Hsame : forall s, load_data E self s (i + _length self)
                            = load_data E self s i).
  { intros s. unfold load_data.
    destruct (assert_ (shard_mode self) EmptyString); [|reflexivity].
    rewrite !reduced_index by lia.
    replace ((i + _length self) mod _length self) with (i mod _length self);
      [reflexivity|].
    rewrite <- (Z.mod_add i 1 (_length self)) by lia. f_equal. lia. }
  split; [apply Hsame|].
  intros Hnd r st1 Hload.
  assert (Hagain : load_data E self st1 i = (Ok (Some r), st1)).
  { unfold load_data in Hload |- *.
    destruct (assert_ (shard_mode self) EmptyString); [|discriminate].
    rewrite reduced_index in Hload |- * by lia.
    set (idx := i mod _length self) in *.
    destruct (dict_get (shard_id_range self) (current_shard_name st))
      as [[start end_]|e] eqn:Hget; [|discriminate].
    destruct ((start <=? idx) && (idx <=? end_)) eqn:Hhot.
    - destruct (Py.index (current_shard_data st) (idx - start))
        as [r'|e] eqn:Hr;
        cbn [bind] in Hload; [|discriminate].
      injection Hload as <- <-. rewrite Hget, Hhot, Hr. reflexivity.
    - apply load_data_scan_found in Hload as (s & e & Hin & Hrange & Hr).
      rewrite (dict_get_In _ _ _ Hnd Hin).
      destruct (Z.leb_spec s idx); [|lia].
      destruct (Z.leb_spec idx e); [|lia]. cbn [andb].
      rewrite Hr. reflexivity. }
  now rewrite Hsame.
Qed.

End WithEnv.

(** C2 as stated fails: on the dataset as [__init__] builds it (here from
    an empty first shard file), [load_data(68379)], the last index of the
    second shard, returns [None]; nothing is raised. *)
Lemma load_data_gap_counterexample :
  exists self st,
    __init__ env "data" "img" 256 6 None true 42 = Ok (self, st) /\
    load_data env self st 68379 = (Ok None, st).
Proof.
  destruct (load_data_after_init_gap env "data" "img" 256 6 None true 42 [])
    as (self & st & Hinit & Hgap).
  - intros _. apply Permutation_refl.
  - intros name. reflexivity.
  - exists self, st. split; [exact Hinit|]. apply (Hgap 2). lia.
Qed.

Lemma load_data_gap_silent_witness :
  load_data env (small_dataset None) small_state 5 = (Ok None, small_state) /\
  getitem env (small_dataset None) small_state 5
  = (Raise TypeError, small_state).
Proof.
  apply (load_data_gap_silent env (small_dataset None) small_state 5 5 0 2).
  - reflexivity.
  - reflexivity.
  - vm_compute. reflexivity.
  - lia.
  - intros name s e [H|[H|[]]]; injection H as _ <- <-; lia.
Defined.

Lemma load_data_wraparound_witness :
  load_data env (small_dataset None) small_state (4 + 6)
  = load_data env (small_dataset None) small_state 4 /\
  load_data env (small_dataset None) small_state (1 + 6)
  = (Ok (Some (one_image_sample "b" [])), small_state).
Proof.
  split.
  - apply (load_data_wraparound env (small_dataset None) small_state 4);
      simpl; lia.
  - apply (proj2 (load_data_wraparound env (small_dataset None) small_state 1
                    ltac:(simpl; lia) ltac:(lia))).
    + vm_compute. repeat constructor; simpl; intuition discriminate.
    + reflexivity.
Defined.

End ShardIndexProofs.

(** ** InterleavedDataset: sample assembly and the retry loop *)

Module AssemblyProofs.
Import InterleavedDataset Examples.

Section WithEnv.
Variable E : Env.

Lemma parse_sample_one_image A m :
  parse_sample E (Some (one_image_sample A m))
  = Ok ([Some A; None], [None; Some "caption"], [Some m; None], [true]).
Proof. reflexivity. Qed.

Lemma load_images_loop_one (self : Dataset) path img :
  image_open E path = Ok img -> 0 < max_num_images self ->
  load_images_loop E self [(path, true)] 0 [] 0 [true] = ([img], [true]).
Proof.
  intros Himg Hmax. cbn [load_images_loop].
  destruct (Z.geb_spec 0 (max_num_images self)) as [?|_]; [lia|].
  unfold load_image. now rewrite Himg.
Qed.

Lemma replace_image_once new :
  PyStr.replace_count "<image>caption" "<image>" new 1 = new +++ "caption".
Proof. vm_compute. reflexivity. Qed.

(** The text of the example: one placeholder block, then the caption. *)
Lemma assemble_text_one_image (self : Dataset) :
  assemble_text E self [Some "<image>"; Some "caption"] 1
  = image_tokens E self +++ "caption".
Proof.
  unfold assemble_text.
  replace (PyStr.replace
             (PyStr.replace
                (PyStr.join (PyStr.LF +++ PyStr.LF)
                   (truthy_texts [Some "<image>"; Some "caption"]))
                ("<image>" +++ PyStr.LF +++ PyStr.LF) "<image>")
             (PyStr.LF +++ PyStr.LF +++ "<image>") "<image>")
    with "<image>caption" by (vm_compute; reflexivity).
  apply replace_image_once.
Qed.

(** The three masking assignments together mask the three marker ids. *)
Lemma mask_id_three s e c ids :
  mask_id c (mask_id e (mask_id s ids))
  = map (fun t => if (t =? s) || (t =? e) || (t =? c) then -100 else t) ids.
Proof.
  unfold mask_id. rewrite !map_map. apply map_ext. intros t.
  destruct (Z.eqb_spec t s) as [->|Hs]; cbn [orb].
  - destruct (-100 =? e); destruct (-100 =? c); reflexivity.
  - destruct (Z.eqb_spec t e) as [->|He]; cbn [orb]; [|reflexivity].
    destruct (-100 =? c); reflexivity.
Qed.

Lemma count_app {A : Type} (p : A -> bool) l1 l2 :
  count p (l1 ++ l2) = count p l1 + count p l2.
Proof. unfold count, Py.len. rewrite filter_app, length_app. lia. Qed.

Lemma count_repeat_eq c (n : nat) :
  count (fun t => t =? c) (List.repeat c n) = Z.of_nat n.
Proof.
  unfold count, Py.len. induction n as [|n IH]; cbn [List.repeat filter].
  - reflexivity.
  - rewrite Z.eqb_refl. cbn [length]. lia.
Qed.

Lemma count_absent c l :
  Forall (fun t => t <> c) l -> count (fun t => t =? c) l = 0.
Proof.
  unfold count, Py.len. induction 1 as [|t l Ht _ IH]; cbn [filter].
  - reflexivity.
  - destruct (Z.eqb_spec t c); [contradiction|exact IH].
Qed.

(** C8. For the record with images [[A, None]], texts
    [[None, "caption"]], metadata [[m, None]] and valid [[True]], whose
    image opens: the text given to the tokenizer is one placeholder block
    (start marker, [num_image_token] context markers, end marker)
    followed by the caption. When the token row has exactly
    [num_image_token] context-marker ids, [getitem] returns it as
    [input_ids], and [labels] is that row with -100 at the start-marker,
    context-marker and end-marker ids and the token id everywhere else;
    with any other count (the tokenizer cut into the block) [getitem]
    raises instead. In particular, when the tokenizer maps the block to
    one start id, [num_image_token] context ids and one end id, and the
    caption to other ids, [input_ids] holds exactly that one block and
    [labels] has -100 on the block and the caption's ids after it. *)
Theorem getitem_one_image (self : Dataset) (st st' : State E) (index : Z)
  (A : string) (m : Meta) (img : Img E) (tok : Tokenizer) :
  load_data E self st index = (Ok (Some (one_image_sample A m)), st') ->
  image_open E (PyStr.path_join (image_path self) (sha256_hexdigest E A))
  = Ok img ->
  0 < max_num_images self ->
  module_tokenizer E = Some tok ->
  let text :=
    (IMG_START_TOKEN E
     +++ PyStr.repeat (IMG_CONTEXT_TOKEN E) (num_image_token self)
     +++ IMG_END_TOKEN E) +++ "caption" in
  let ids := encode (self_tokenizer E) text (model_max_length tok) in
  let start_id := convert_tokens_to_ids tok (IMG_START_TOKEN E) in
  let end_id := convert_tokens_to_ids tok (IMG_END_TOKEN E) in
  let context_id := convert_tokens_to_ids tok (IMG_CONTEXT_TOKEN E) in
  (count (fun t => t =? context_id) ids = num_image_token self ->
   exists bundle,
     getitem E self st index = (Ok bundle, st') /\
     input_ids bundle = ids /\
     count (fun t => t =? context_id) (input_ids bundle)
     = num_image_token self /\
     labels bundle
     = map (fun t => if (t =? start_id) || (t =? end_id) || (t =? context_id)
                     then -100 else t) ids /\
     pixel_values bundle = [transform E img] /\
     image_flags bundle = [1]) /\
  (count (fun t => t =? context_id) ids <> num_image_token self ->
   getitem E self st index
   = (Raise (AssertionError "image tokens are truncated"), st')) /\
  (forall rest,
     0 <= num_image_token self ->
     start_id <> context_id -> end_id <> context_id ->
     Forall (fun t => t <> start_id /\ t <> end_id /\ t <> context_id) rest ->
     ids = start_id
           :: List.repeat context_id (Z.to_nat (num_image_token self))
           ++ end_id :: rest ->
     exists bundle,
       getitem E self st index = (Ok bundle, st') /\
       input_ids bundle
       = start_id
         :: List.repeat context_id (Z.to_nat (num_image_token self))
         ++ end_id :: rest /\
       labels bundle
       = -100 :: List.repeat (-100) (Z.to_nat (num_image_token self))
         ++ -100 :: rest).
Proof.
  intros Hload Himg Hmax Htok text ids start_id end_id context_id.
  unfold getitem. rewrite Hload. unfold assemble.
  rewrite parse_sample_one_image. cbn [bind].
  cbn [combine flat_map fst app].
  unfold get_img_filename, encode_hash_sha256.
  rewrite (load_images_loop_one self _ img Himg Hmax).
  change (Py.len [img]) with 1.
  change (count (fun v : bool => v) [true]) with 1.
  cbn [Z.gtb Z.compare Z.eqb negb andb assert_ bind].
  change (mark_image_slots [None; Some "caption"] 0 [true])
    with (@Ok (list (option string)) [Some "<image>"; Some "caption"]).
  cbn [bind]. rewrite Htok. cbn [bind].
  rewrite assemble_text_one_image. unfold image_tokens.
  fold text. fold ids. fold start_id. fold end_id. fold context_id.
  rewrite Z.mul_1_r.
  assert (Hok : count (fun t => t =? context_id) ids = num_image_token self ->
    exists bundle : Bundle E,
      (_ <- assert_ (count (fun t => t =? context_id) ids
                     =? num_image_token self)
                    "image tokens are truncated" ;;
       Ok {| input_ids := ids;
             labels := mask_id context_id
                         (mask_id end_id (mask_id start_id ids));
             attention_mask :=
               map (fun t => negb (t =? pad_token_id tok)) ids;
             pixel_values := preprocess_image E [img];
             image_flags :=
               List.repeat 1
                 (Z.to_nat (Py.len (preprocess_image E [img]))) |},
       st') = (Ok bundle, st') /\
      input_ids bundle = ids /\
      count (fun t => t =? context_id) (input_ids bundle)
      = num_image_token self /\
      labels bundle
      = map (fun t => if (t =? start_id) || (t =? end_id)
                         || (t =? context_id)
                      then -100 else t) ids /\
      pixel_values bundle = [transform E img] /\
      image_flags bundle = [1]).
  { intros Hcount. rewrite Hcount, Z.eqb_refl. cbn [assert_ bind].
    eexists. split; [reflexivity|].
    cbn [input_ids labels pixel_values image_flags].
    split; [reflexivity|]. split; [exact Hcount|].
    split; [apply mask_id_three|]. split; reflexivity. }
  split; [exact Hok|]. split.
  - intros Hcount.
    destruct (Z.eqb_spec (count (fun t => t =? context_id) ids)
                         (num_image_token self)) as [?|_]; [contradiction|].
    reflexivity.
  - intros rest Hn Hsc Hec Hrest Hids.
    assert (Hcount : count (fun t => t =? context_id) ids
                     = num_image_token self).
    { assert (C1 : count (fun t => t =? context_id) [start_id] = 0)
        by (apply count_absent; now repeat constructor).
      assert (C2 : count (fun t => t =? context_id) [end_id] = 0)
        by (apply count_absent; now repeat constructor).
      assert (C3 : count (fun t => t =? context_id) rest = 0).
      { apply count_absent. eapply Forall_impl; [|exact Hrest].
        intros t Ht. exact (proj2 (proj2 Ht)). }
      rewrite Hids.
      change (start_id
              :: List.repeat context_id (Z.to_nat (num_image_token self))
              ++ end_id :: rest)
        with ([start_id]
              ++ List.repeat context_id (Z.to_nat (num_image_token self))
              ++ [end_id] ++ rest).
      rewrite !count_app, count_repeat_eq, C1, C2, C3. lia. }
    destruct (Hok Hcount) as (bundle & Hget & Hin & _ & Hlab & _).
    exists bundle. split; [exact Hget|]. split; [now rewrite Hin|].
    rewrite Hlab, Hids. cbn [map]. rewrite map_app, map_repeat. cbn [map].
    rewrite Z.eqb_refl. cbn [orb].
    rewrite (Z.eqb_refl end_id), (Z.eqb_refl context_id), !orb_true_r.
    do 4 f_equal.
    rewrite <- (map_id rest) at 2. apply map_ext_in. intros t Ht.
    rewrite Forall_forall in Hrest. destruct (Hrest t Ht) as (H1 & H2 & H3).
    apply Z.eqb_neq in H1, H2, H3. now rewrite H1, H2, H3.
Qed.

(** *** The retry loop of [__getitem__] *)

(** C3 is violated by the code. When the dataset was built with
    [train_num_samples] and the assembly of the index raises, the handler
    evaluates [len(self)], [__len__] reads [self.data_args], which the
    class never assigns, and the [AttributeError] leaves [__getitem__]. *)
Theorem getitem_raises_AttributeError (self : Dataset) (st st' : State E)
  (index n : Z) (e : exn) (fuel : nat) :
  train_num_samples self = Some n ->
  getitem E self st index = (Raise e, st') ->
  __getitem__ E (S fuel) self st index = (Some (Raise AttributeError), st').
Proof.
  intros Hn Hget. cbn [__getitem__]. rewrite Hget.
  unfold __len__. rewrite Hn. reflexivity.
Qed.

(** Without [train_num_samples] the loop does what C3 says: no exception
    leaves it, and after [k] failed attempts the first index that
    assembles gives the result. *)
Lemma getitem_never_raises (self : Dataset) :
  train_num_samples self = None -> _length self <> 0 ->
  forall fuel st index e,
    fst (__getitem__ E fuel self st index) <> Some (Raise e).
Proof.
  intros Hn HL. induction fuel as [|fuel IH]; intros st index e;
    cbn [__getitem__]; [discriminate|].
  destruct (getitem E self st index) as [[item|err] st1]; [discriminate|].
  unfold __len__, Py.mod_. rewrite Hn. cbn [bind].
  destruct (Z.eqb_spec (_length self) 0) as [?|_]; [contradiction|].
  apply IH.
Qed.

Lemma getitem_returns_first_success (self : Dataset) :
  train_num_samples self = None -> _length self <> 0 ->
  forall k st index st1 index1 item st2 fuel,
    failed_attempts E self k st index st1 index1 ->
    getitem E self st1 index1 = (Ok item, st2) ->
    (k < fuel)%nat ->
    __getitem__ E fuel self st index = (Some (Ok item), st2).
Proof.
  intros Hn HL k st index st1 index1 item st2 fuel Hfail.
  revert fuel.
  induction Hfail as [st index|k st index e sa sb index2 Hget _ IH];
    intros fuel Hok Hk; (destruct fuel as [|fuel]; [lia|]);
    cbn [__getitem__].
  - now rewrite Hok.
  - rewrite Hget. unfold __len__, Py.mod_. rewrite Hn. cbn [bind].
    destruct (Z.eqb_spec (_length self) 0) as [?|_]; [contradiction|].
    apply IH; [exact Hok|lia].
Qed.

End WithEnv.

Lemma getitem_one_image_witness :
  exists bundle,
    getitem env (small_dataset None) small_state 1 = (Ok bundle, small_state)
    /\ input_ids bundle
       = [1; 3; 3; 2; 199; 197; 212; 216; 205; 211; 210]
    /\ labels bundle
       = [-100; -100; -100; -100; 199; 197; 212; 216; 205; 211; 210].
Proof.
  destruct (getitem_one_image env (small_dataset None) small_state small_state
              1 "b" [] "img/b.ok" char_tokenizer) as (_ & _ & H);
    [vm_compute; reflexivity..|cbn [max_num_images small_dataset]; lia
    |reflexivity|].
  destruct (H [199; 197; 212; 216; 205; 211; 210])
    as (bundle & Hget & Hids & Hlabels);
    [cbn; lia|vm_compute; discriminate|vm_compute; discriminate
    |repeat constructor; vm_compute; discriminate
    |vm_compute; reflexivity|].
  exists bundle. split; [exact Hget|].
  split; [rewrite Hids|rewrite Hlabels]; vm_compute; reflexivity.
Defined.

Lemma getitem_raises_AttributeError_witness :
  __getitem__ env 1 (small_dataset (Some 4)) small_state 5
  = (Some (Raise AttributeError), small_state).
Proof.
  apply (getitem_raises_AttributeError env (small_dataset (Some 4))
           small_state small_state 5 4 TypeError 0).
  - reflexivity.
  - vm_compute. reflexivity.
Defined.

End AssemblyProofs.

(** ** More facts on the Python built-ins *)

Lemma index_in_range {A : Type} (l : list A) (i : Z) :
  0 <= i < Py.len l ->
  exists a, Py.index l i = Ok a /\ nth_error l (Z.to_nat i) = Some a.
Proof.
  intros Hi. unfold Py.index, Py.len in *.
  destruct (Z.ltb_spec i 0) as [?|_]; [lia|].
  destruct (Z.ltb_spec i 0) as [?|_]; [lia|].
  destruct (Z.leb_spec (Z.of_nat (length l)) i) as [?|_]; [lia|].
  cbn [orb].
  destruct (nth_error l (Z.to_nat i)) as [a|] eqn:E; [eauto|].
  apply nth_error_None in E. lia.
Qed.

Lemma index_Ok_inv {A : Type} (l : list A) (i : Z) (a : A) :
  Py.index l i = Ok a -> In a l.
Proof.
  unfold Py.index.
  destruct ((_ <? 0) || (_ <=? _)); [discriminate|].
  destruct (nth_error l _) as [b|] eqn:E; [|discriminate].
  intros H. injection H as <-. eapply nth_error_In, E.
Qed.

(** ** The tiling engine: which grid wins, and what the tiles are *)

Module TilingMore.
Import Image LazySupervisedDataset TilingSpec TilingProofs.

(** *** The order of floats *)

Lemma SFleb_ltb_trans a c b :
  SFleb a c = true -> SFltb c b = true -> SFltb a b = true.
Proof.
  unfold SFleb, SFltb, SFcompare.
  destruct a as [sa|sa| |sa ma ea], c as [sc|sc| |sc mc ec],
           b as [sb|sb| |sb mb eb];
    try destruct sa; try destruct sc; try destruct sb;
    try discriminate; try reflexivity;
    change (Pos.compare_cont Eq) with Pos.compare;
    repeat match goal with
           | |- context [Z.compare ?x ?y] =>
               destruct (Z.compare_spec x y)
           | |- context [Pos.compare ?x ?y] =>
               destruct (Pos.compare_spec x y)
           end; cbn; try discriminate; try reflexivity; intros; try lia.
Qed.

Lemma leb_ltb_trans a c b :
  PrimFloat.leb a c = true -> PrimFloat.ltb c b = true ->
  PrimFloat.ltb a b = true.
Proof.
  rewrite FloatAxioms.leb_spec, !FloatAxioms.ltb_spec.
  apply SFleb_ltb_trans.
Qed.

Lemma ltb_leb a b : PrimFloat.ltb a b = true -> PrimFloat.leb a b = true.
Proof.
  rewrite FloatAxioms.leb_spec, FloatAxioms.ltb_spec.
  unfold SFleb, SFltb. destruct (SFcompare _ _) as [[| |]|]; easy.
Qed.

Lemma ltb_irrefl a : PrimFloat.ltb a a = false.
Proof.
  rewrite FloatAxioms.ltb_spec. unfold SFltb, SFcompare.
  destruct (Prim2SF a) as [s|s| |s m e]; try destruct s; try reflexivity;
    change (Pos.compare_cont Eq) with Pos.compare;
    rewrite Z.compare_refl, Pos.compare_refl; reflexivity.
Qed.

(** *** The loop keeps the first best candidate *)

Lemma closest_step_score ar st r :
  snd r <> 0 ->
  closest_step ar st r
  = Ok (if PrimFloat.ltb (ratio_score ar r) (fst st)
        then (ratio_score ar r, r) else st).
Proof.
  intros Hnz. unfold closest_step, PyFloat.truediv.
  destruct (Z.eqb_spec (snd r) 0) as [?|_]; [contradiction|].
  cbn [bind]. fold (ratio_score ar r).
  now destruct (PrimFloat.ltb (ratio_score ar r) (fst st)).
Qed.

Lemma closest_loop_winner ar rs : forall d0 r0,
  (forall c, In c rs -> snd c <> 0) ->
  exists d r,
    closest_loop ar rs (d0, r0) = Ok (d, r) /\
    (((d, r) = (d0, r0) /\
      forall c, In c rs -> PrimFloat.ltb (ratio_score ar c) d0 = false)
     \/
     (exists pre post,
        rs = pre ++ r :: post /\ d = ratio_score ar r /\
        PrimFloat.ltb d d0 = true /\
        (forall c, In c pre -> PrimFloat.leb (ratio_score ar c) d = false) /\
        (forall c, In c post -> PrimFloat.ltb (ratio_score ar c) d = false))).
Proof.
  induction rs as [|c rs IH]; intros d0 r0 Hnz; cbn [closest_loop].
  - exists d0, r0. split; [reflexivity|]. left. split; [reflexivity|].
    intros c [].
  - rewrite closest_step_score by (apply Hnz; now left). cbn [bind fst].
    assert (Hnz' : forall x, In x rs -> snd x <> 0)
      by (intros; apply Hnz; now right).
    destruct (PrimFloat.ltb (ratio_score ar c) d0) eqn:Hc; cbv iota.
    + destruct (IH (ratio_score ar c) c Hnz') as (d & r & Hl & H).
      exists d, r. split; [exact Hl|]. right.
      destruct H as [[Heq Hall]|(pre & post & -> & -> & Hlt & Hpre & Hpost)].
      * injection Heq as -> ->. exists [], rs. repeat split; auto.
        intros x [].
      * exists (c :: pre), post. repeat split; auto.
        -- apply (leb_ltb_trans _ (ratio_score ar c)); [|exact Hc].
           now apply ltb_leb.
        -- intros x [<-|Hx]; [|now apply Hpre].
           destruct (PrimFloat.leb (ratio_score ar c) (ratio_score ar r))
             eqn:Hle; [|reflexivity].
           pose proof (leb_ltb_trans _ _ _ Hle Hlt) as Habs.
           now rewrite ltb_irrefl in Habs.
    + destruct (IH d0 r0 Hnz') as (d & r & Hl & H).
      exists d, r. split; [exact Hl|].
      destruct H as [[Heq Hall]|(pre & post & -> & -> & Hlt & Hpre & Hpost)].
      * left. split; [exact Heq|]. intros x [<-|Hx]; auto.
      * right. exists (c :: pre), post. repeat split; auto.
        intros x [<-|Hx]; [|now apply Hpre].
        destruct (PrimFloat.leb (ratio_score ar c) (ratio_score ar r))
          eqn:Hle; [|reflexivity].
        pose proof (leb_ltb_trans _ _ _ Hle Hlt) as Habs. congruence.
Qed.

(** X1. Among candidate grids with non-zero rows, the loop of
    [find_closest_aspect_ratio] picks the first best one: either no
    candidate scores below infinity and the default (1, 1) stays, or the
    winner is a candidate, no candidate iterated before it scores as low
    or lower, and none iterated after it scores strictly lower. The
    function returns that winner after the two special cases. *)
Theorem find_closest_aspect_ratio_first_best image_size ar rs w h :
  (forall c, In c rs -> snd c <> 0) ->
  exists d r,
    closest_loop ar rs (PyFloat.inf, (1, 1)) = Ok (d, r) /\
    find_closest_aspect_ratio image_size ar rs w h
    = Ok (special_cases image_size r (w * h)) /\
    ((r = (1, 1) /\
      forall c, In c rs ->
                PrimFloat.ltb (ratio_score ar c) PyFloat.inf = false)
     \/
     (exists pre post,
        rs = pre ++ r :: post /\ d = ratio_score ar r /\
        (forall c, In c pre -> PrimFloat.leb (ratio_score ar c) d = false) /\
        (forall c, In c post -> PrimFloat.ltb (ratio_score ar c) d = false))).
Proof.
  intros Hnz.
  destruct (closest_loop_winner ar rs PyFloat.inf (1, 1) Hnz)
    as (d & r & Hloop & H).
  exists d, r. split; [exact Hloop|]. split.
  - unfold find_closest_aspect_ratio.
    change (closest_loop ar rs (PyFloat.inf, (1, 1)) = Ok (d, r)) in Hloop.
    now rewrite Hloop.
  - destruct H as [[Heq Hall]|(pre & post & E & Hd & _ & Hpre & Hpost)].
    + left. injection Heq as _ ->. auto.
    + right. exists pre, post. auto.
Qed.

Lemma find_closest_aspect_ratio_first_best_witness :
  exists d r,
    closest_loop (PrimFloat.div 800 600) [(1, 1); (2, 1); (3, 2); (4, 3)]
      (PyFloat.inf, (1, 1)) = Ok (d, r) /\
    r = (4, 3).
Proof.
  destruct (find_closest_aspect_ratio_first_best 448 (PrimFloat.div 800 600)
              [(1, 1); (2, 1); (3, 2); (4, 3)] 800 600)
    as (d & r & Hloop & _ & _).
  - intros c [<-|[<-|[<-|[<-|[]]]]]; simpl; lia.
  - exists d, r. split; [exact Hloop|].
    vm_compute in Hloop. congruence.
Defined.

(** *** What the tiles are *)

Lemma mapM_map {A B : Type} (f : A -> res B) (g : A -> B) l :
  (forall x, In x l -> f x = Ok (g x)) -> mapM f l = Ok (map g l).
Proof.
  induction l as [|x xs IH]; intros H; cbn [mapM map]; [reflexivity|].
  rewrite (H x (or_introl eq_refl)). cbn [bind].
  rewrite IH by (intros; apply H; now right). reflexivity.
Qed.

Lemma tile_box_eq image_size c i :
  0 < image_size -> 1 <= c ->
  tile_box image_size (image_size * c) i
  = Ok (i mod c * image_size, i / c * image_size,
        (i mod c + 1) * image_size, (i / c + 1) * image_size).
Proof.
  intros Hs Hc. unfold tile_box, Py.floordiv, Py.mod_.
  destruct (Z.eqb_spec image_size 0) as [?|_]; [lia|]. cbn [bind].
  replace (image_size * c / image_size) with c
    by (rewrite Z.mul_comm, Z.div_mul; lia).
  destruct (Z.eqb_spec c 0) as [?|_]; [lia|]. reflexivity.
Qed.

(** The output of [dynamic_preprocess] once the grid is known. *)
Lemma dynamic_preprocess_explicit image_size use_thumbnail order image mn mx g :
  0 < image_size -> 1 <= fst g -> 1 <= snd g ->
  best_grid image_size order (fst (size image)) (snd (size image)) mn mx
  = Ok g ->
  dynamic_preprocess image_size use_thumbnail order image mn mx
  = Ok (map (tile_crop image_size (fst g)
               (Resized image (image_size * fst g) (image_size * snd g)))
            (Py.range 0 (fst g * snd g))
        ++ (if use_thumbnail && negb (fst g * snd g =? 1)
            then [Resized image image_size image_size] else [])).
Proof.
  intros Hs Hc Hr Hg. unfold dynamic_preprocess.
  destruct (size image) as [w h]. cbn [fst snd] in Hg. rewrite Hg.
  cbn [bind].
  rewrite (mapM_map _ (tile_crop image_size (fst g)
             (Resized image (image_size * fst g) (image_size * snd g)))).
  2:{ intros i _. rewrite tile_box_eq by assumption. reflexivity. }
  cbn [bind]. unfold Py.len. rewrite length_map, range_length.
  replace (Z.of_nat (Z.to_nat (fst g * snd g - 0))) with (fst g * snd g)
    by nia.
  rewrite Z.eqb_refl. cbn [assert_ bind].
  destruct (use_thumbnail && negb (fst g * snd g =? 1));
    [reflexivity|now rewrite app_nil_r].
Qed.

(** X2. [dynamic_preprocess] returns the crops of the resized image tile
    by tile in row-major order (tile [i] is column [i % cols], row
    [i // cols], each [image_size] wide and high), followed, when the
    thumbnail applies, by the whole original image resized to one tile. *)
Theorem dynamic_preprocess_row_major image_size use_thumbnail order image
  mn mx :
  set_iteration order -> 0 < image_size -> snd (size image) <> 0 ->
  exists cols rows,
    best_grid image_size order (fst (size image)) (snd (size image)) mn mx
    = Ok (cols, rows) /\
    1 <= cols /\ 1 <= rows /\
    dynamic_preprocess image_size use_thumbnail order image mn mx
    = Ok (map (tile_crop image_size cols
                 (Resized image (image_size * cols) (image_size * rows)))
              (Py.range 0 (cols * rows))
          ++ (if use_thumbnail && negb (cols * rows =? 1)
              then [Resized image image_size image_size] else [])).
Proof.
  intros Hord Hs Hh.
  destruct (best_grid_range image_size order (fst (size image))
              (snd (size image)) mn mx Hord Hh) as ([c r] & Hg & Hin).
  apply In_target_ratio_gen_pos in Hin as [Hc Hr]. cbn [fst snd] in Hc, Hr.
  exists c, r. split; [exact Hg|]. split; [exact Hc|]. split; [exact Hr|].
  now apply (dynamic_preprocess_explicit _ _ _ _ _ _ (c, r)).
Qed.

Lemma dynamic_preprocess_row_major_witness :
  dynamic_preprocess 448 true generation_order (Decoded "a" 800 600) 1 6
  = Ok [Cropped (Resized (Decoded "a" 800 600) 896 896) 0 0 448 448;
        Cropped (Resized (Decoded "a" 800 600) 896 896) 448 0 896 448;
        Cropped (Resized (Decoded "a" 800 600) 896 896) 0 448 448 896;
        Cropped (Resized (Decoded "a" 800 600) 896 896) 448 448 896 896;
        Resized (Decoded "a" 800 600) 448 448].
Proof.
  destruct (dynamic_preprocess_row_major 448 true generation_order
              (Decoded "a" 800 600) 1 6 generation_order_set
              ltac:(lia) ltac:(simpl; lia))
    as (c & r & Hg & _ & _ & Ht).
  rewrite Ht. vm_compute in Hg. injection Hg as <- <-.
  vm_compute. reflexivity.
Defined.

(** X3. The crop boxes of a [cols x rows] grid tile the resized image:
    every box lies inside it, and every pixel of it lies in the box of
    exactly one tile. *)
Theorem tile_boxes_partition image_size cols rows :
  0 < image_size -> 1 <= cols -> 1 <= rows ->
  (forall i, 0 <= i < cols * rows ->
     exists l u,
       tile_box image_size (image_size * cols) i
       = Ok (l, u, l + image_size, u + image_size) /\
       0 <= l /\ l + image_size <= image_size * cols /\
       0 <= u /\ u + image_size <= image_size * rows) /\
  (forall x y, 0 <= x < image_size * cols -> 0 <= y < image_size * rows ->
     exists i, 0 <= i < cols * rows /\
       (forall box, tile_box image_size (image_size * cols) i = Ok box ->
                    box_contains box x y) /\
       (forall j box, 0 <= j < cols * rows ->
          tile_box image_size (image_size * cols) j = Ok box ->
          box_contains box x y -> j = i)).
Proof.
  intros Hs Hc Hr. split.
  - intros i Hi. rewrite tile_box_eq by assumption.
    pose proof (Z.mod_pos_bound i cols ltac:(lia)) as Hm.
    assert (0 <= i / cols) by (apply Z.div_pos; lia).
    assert (i / cols < rows) by (apply Z.div_lt_upper_bound; nia).
    eexists _, _. split; [f_equal; f_equal; [f_equal|]; lia|]. nia.
  - intros x y Hx Hy.
    assert (Hxs : 0 <= x / image_size < cols).
    { split; [apply Z.div_pos; lia|apply Z.div_lt_upper_bound; lia]. }
    assert (Hys : 0 <= y / image_size < rows).
    { split; [apply Z.div_pos; lia|apply Z.div_lt_upper_bound; lia]. }
    pose proof (Z.mod_pos_bound x image_size Hs) as Hxm.
    pose proof (Z.mod_pos_bound y image_size Hs) as Hym.
    pose proof (Z.div_mod x image_size ltac:(lia)) as Hxd.
    pose proof (Z.div_mod y image_size ltac:(lia)) as Hyd.
    exists (y / image_size * cols + x / image_size).
    assert (Hmod : (y / image_size * cols + x / image_size) mod cols
                   = x / image_size).
    { rewrite Z.add_comm, Z.mod_add by lia. apply Z.mod_small. lia. }
    assert (Hdiv : (y / image_size * cols + x / image_size) / cols
                   = y / image_size).
    { rewrite Z.add_comm, Z.div_add by lia.
      rewrite Z.div_small by lia. lia. }
    split; [nia|]. split.
    + intros box. rewrite tile_box_eq by assumption. intros Hb.
      injection Hb as <-. unfold box_contains. rewrite Hmod, Hdiv. nia.
    + intros j box Hj. rewrite tile_box_eq by assumption. intros Hb.
      injection Hb as <-. unfold box_contains. intros [Hbx Hby].
      pose proof (Z.mod_pos_bound j cols ltac:(lia)) as Hjm.
      pose proof (Z.div_mod j cols ltac:(lia)) as Hjd.
      assert (j mod cols = x / image_size).
      { apply (Z.div_unique x image_size _ (x - j mod cols * image_size));
          nia. }
      assert (j / cols = y / image_size).
      { apply (Z.div_unique y image_size _ (y - j / cols * image_size));
          nia. }
      nia.
Qed.

Lemma tile_boxes_partition_witness :
  exists i, 0 <= i < 3 * 2 /\
    (forall box, tile_box 448 (448 * 3) i = Ok box ->
                 box_contains box 1000 500).
Proof.
  destruct (tile_boxes_partition 448 3 2 ltac:(lia) ltac:(lia) ltac:(lia))
    as [_ H].
  destruct (H 1000 500 ltac:(lia) ltac:(lia)) as (i & Hi & Hin & _).
  exists i. split; [exact Hi|exact Hin].
Defined.

End TilingMore.

(** ** LazySupervisedDataset: items, the retry loop, length grouping *)

Module LazyItemsProofs.
Import Image LazySupervisedDataset TilingSpec TilingProofs TilingMore.
Import LazyItems.

(** X4. Whatever the bounds [min_num] and [max_num], the grid [best_grid]
    returns for an image of non-zero height has at least one column and
    one row, and is either one of the enumerated candidates (with
    [min_num <= cols * rows <= max_num]) or one of (1, 1) and (2, 2);
    when no grid fits the bounds ([max_num < min_num] or [max_num < 1]) it
    is (1, 1) for an image smaller in area than one tile and (2, 2)
    otherwise. *)
Theorem best_grid_candidate_or_square image_size order w h mn mx :
  set_iteration order -> h <> 0 ->
  exists cols rows,
    best_grid image_size order w h mn mx = Ok (cols, rows) /\
    1 <= cols /\ 1 <= rows /\
    (mn <= cols * rows <= mx \/ (cols, rows) = (1, 1)
     \/ (cols, rows) = (2, 2)) /\
    (mx < mn \/ mx < 1 ->
     (cols, rows) = if w * h <? image_size * image_size
                    then (1, 1) else (2, 2)).
Proof.
  intros Hord Hh.
  destruct (best_grid_range image_size order w h mn mx Hord Hh)
    as ([c r] & Hg & Hin).
  exists c, r. split; [exact Hg|].
  destruct (In_target_ratio_gen_pos mn mx (c, r) Hin) as [Hc Hr].
  cbn [fst snd] in Hc, Hr. split; [exact Hc|]. split; [exact Hr|]. split.
  - destruct Hin as [Hin|[Hin|Hin]]; auto.
    apply In_target_ratio_gen in Hin as (n & ?). left. lia.
  - intros Hempty.
    assert (Hnil : order (target_ratio_gen mn mx) = []).
    { destruct (order (target_ratio_gen mn mx)) as [|[i j] l] eqn:E;
        [reflexivity|exfalso].
      assert (Hi : In (i, j) (order (target_ratio_gen mn mx)))
        by (rewrite E; now left).
      apply (proj1 (set_iteration_In _ _ _ Hord)) in Hi.
      apply In_target_ratio_gen in Hi as (n & ?). nia. }
    unfold best_grid, PyFloat.truediv in Hg.
    destruct (Z.eqb_spec h 0) as [?|_]; [contradiction|].
    cbn [bind] in Hg. rewrite Hnil in Hg.
    unfold find_closest_aspect_ratio in Hg. cbn in Hg.
    unfold special_cases in Hg. cbn in Hg.
    destruct (w * h <? image_size * image_size); congruence.
Qed.

Lemma best_grid_candidate_or_square_witness :
  exists cols rows,
    best_grid 448 generation_order 1000 800 7 3 = Ok (cols, rows) /\
    (cols, rows) = (2, 2).
Proof.
  destruct (best_grid_candidate_or_square 448 generation_order 1000 800 7 3
              generation_order_set ltac:(lia))
    as (c & r & Hg & _ & _ & _ & He).
  exists c, r. split; [exact Hg|]. apply He. lia.
Defined.

(** The grid of a square image under the default bounds 1 and 6. *)
Lemma best_grid_square_default image_size order w :
  set_iteration order -> 0 < w < 2 ^ 53 ->
  best_grid image_size order w w 1 6
  = Ok (if w * w <? image_size * image_size then (1, 1) else (2, 2)).
Proof.
  intros Hord Hw. unfold best_grid.
  rewrite truediv_self by exact Hw. cbn [bind].
  unfold find_closest_aspect_ratio.
  destruct (closest_loop_square (order (target_ratio_gen 1 6))
              (PyFloat.inf, (1, 1))) as (st & -> & _ & Hwon).
  - intros [i j] Hin. apply (proj1 (set_iteration_In _ _ _ Hord)) in Hin.
    apply In_target_ratio_gen in Hin as (n & ?). simpl. lia.
  - right. reflexivity.
  - cbn [bind]. f_equal. apply special_cases_square.
    apply Hwon. right. exists (1, 1). split; [|reflexivity].
    apply (set_iteration_In _ _ _ Hord). apply In_target_ratio_gen.
    exists 1. lia.
Qed.

Lemma prefix_append p : forall s, String.prefix p (p +++ s) = true.
Proof.
  induction p as [|c p IH]; intros s; cbn.
  - now destruct s.
  - destruct (ascii_dec c c) as [_|Hn]; [apply IH|contradiction].
Qed.

Lemma contains_append p s : PyStr2.contains (p +++ s) p = true.
Proof.
  pose proof (prefix_append p s) as H.
  destruct (p +++ s); cbn [PyStr2.contains]; now rewrite H.
Qed.

Section Items.
Variable Tensor : Type.
Variable template_name : string.
Variable root : string.
Variable num_image_token : Z.
Variable image_size : Z.
Variable dynamic_image_size : bool.
Variable use_thumbnail : bool.
Variable transform : Image.image -> Tensor.
Variable preprocess_mpt : Preprocess.
Variable preprocess_internlm : Preprocess.
Variable preprocess : Preprocess.
Variable open_image : string -> res Image.image.
Variable json_loads : string -> res DataItem.
Variable set_order : list ratio -> list ratio.

Notation pure_text :=
  (pure_text_get_item Tensor template_name num_image_token image_size
     use_thumbnail transform preprocess_mpt preprocess_internlm preprocess
     set_order).
Notation multi_modal :=
  (multi_modal_get_item Tensor template_name root num_image_token image_size
     dynamic_image_size use_thumbnail transform preprocess_mpt
     preprocess_internlm preprocess open_image set_order).
Notation chosen_preprocess :=
  (preprocess_function template_name preprocess_mpt preprocess_internlm
     preprocess).

(** X5. [pure_text_get_item] tiles a blank 224 x 224 image and asserts
    that one tile came out. That holds exactly when [image_size] exceeds
    224: then the item carries that one tile with the flag 0 and the
    preprocessor is asked for [num_image_token] tokens with
    [text_only=True]. With [image_size <= 224] the blank image gets the
    grid (2, 2), four tiles (five with the thumbnail), and the method
    raises the assertion for every record. *)
Theorem pure_text_get_item_one_patch (conversations : list Turn) :
  set_iteration set_order -> 0 < image_size ->
  (image_size <= 224 ->
   pure_text conversations
   = Raise (AssertionError
              ("The number of patches should be 1, but got "
               +++ (if use_thumbnail then "5" else "4") +++ "."))) /\
  (224 < image_size ->
   pure_text conversations
   = (ret <- chosen_preprocess conversations (num_image_token * 1)
               (Some true) ;;
      Ok {| input_ids := row_input_ids ret;
            labels := row_labels ret;
            attention_mask := row_attention_mask ret;
            pixel_values :=
              [transform (Cropped (Resized blank_image image_size image_size)
                            0 0 image_size image_size)];
            image_flags := [0] |})).
Proof.
  intros Hord Hs.
  assert (Hg : best_grid image_size set_order 224 224 1 6
               = Ok (if 224 * 224 <? image_size * image_size
                     then (1, 1) else (2, 2)))
    by (apply best_grid_square_default; [exact Hord|lia]).
  split; intros Hsz; unfold pure_text_get_item.
  - destruct (Z.ltb_spec (224 * 224) (image_size * image_size)); [nia|].
    rewrite (dynamic_preprocess_explicit image_size use_thumbnail set_order
               blank_image 1 6 (2, 2)) by (cbn; lia || exact Hg).
    cbn [bind fst snd]. unfold Py.len.
    rewrite length_map, length_app, length_map, range_length.
    destruct use_thumbnail; reflexivity.
  - destruct (Z.ltb_spec (224 * 224) (image_size * image_size)); [|nia].
    rewrite (dynamic_preprocess_explicit image_size use_thumbnail set_order
               blank_image 1 6 (1, 1)) by (cbn; lia || exact Hg).
    cbn [bind fst snd]. rewrite andb_false_r.
    change (Py.range 0 (1 * 1)) with [0]. cbn [map app].
    change (Py.len [transform (tile_crop image_size 1
              (Resized blank_image (image_size * 1) (image_size * 1)) 0)])
      with 1.
    cbn [Z.eqb Pos.eqb assert_ bind]. unfold tile_crop.
    rewrite !Z.mul_1_r. change (0 mod 1) with 0. change (0 / 1) with 0.
    rewrite !Z.mul_0_l, !Z.add_0_l, !Z.mul_1_l. reflexivity.
Qed.

(** X6. [multi_modal_get_item] on a record with a non-empty conversation
    whose image opens: the first turn is given an [<image>] tag in front
    when it has none and is left as it is otherwise, so it always carries
    one; the image becomes one tile without dynamic tiling and the tiles
    of [dynamic_preprocess] with it; the preprocessor is asked for
    [num_image_token] tokens per tile, and [image_flags] holds one 1 per
    tile. *)
Theorem multi_modal_get_item_tiles (img : string) (first : Turn)
  (rest : list Turn) (im : Image.image) :
  set_iteration set_order -> 0 < image_size -> snd (size im) <> 0 ->
  open_image (image_path_of root img) = Ok im ->
  exists first' tiles,
    ensure_image_tag (first :: rest) = Ok (first' :: rest) /\
    PyStr2.contains (value first') "<image>" = true /\
    (PyStr2.contains (value first) "<image>" = true -> first' = first) /\
    (if dynamic_image_size
     then dynamic_preprocess image_size use_thumbnail set_order im 1 6
          = Ok tiles
     else tiles = [im]) /\
    1 <= Py.len tiles /\
    multi_modal img (first :: rest)
    = (ret <- chosen_preprocess (first' :: rest)
                (num_image_token * Py.len tiles) None ;;
       Ok {| input_ids := row_input_ids ret;
             labels := row_labels ret;
             attention_mask := row_attention_mask ret;
             pixel_values := map transform tiles;
             image_flags := List.repeat 1 (Z.to_nat (Py.len tiles)) |}).
Proof.
  intros Hord Hs Hh Hopen.
  assert (Htag : exists first',
    ensure_image_tag (first :: rest) = Ok (first' :: rest) /\
    PyStr2.contains (value first') "<image>" = true /\
    (PyStr2.contains (value first) "<image>" = true -> first' = first)).
  { unfold ensure_image_tag.
    destruct (PyStr2.contains (value first) "<image>") eqn:Hc; cbn [negb].
    - exists first. auto.
    - eexists. split; [reflexivity|]. split; [|discriminate].
      cbn [value].
      exact (contains_append "<image>" (PyStr.LF +++ value first)). }
  destruct Htag as (first' & Htag & Hhas & Hsame).
  assert (Htiles : exists tiles,
    (if dynamic_image_size
     then dynamic_preprocess image_size use_thumbnail set_order im 1 6
     else Ok [im]) = Ok tiles /\
    (if dynamic_image_size
     then dynamic_preprocess image_size use_thumbnail set_order im 1 6
          = Ok tiles
     else tiles = [im]) /\
    1 <= Py.len tiles /\
    (dynamic_image_size = false -> Py.len (map transform tiles) = 1)).
  { destruct dynamic_image_size.
    - destruct (best_grid_range image_size set_order (fst (size im))
                  (snd (size im)) 1 6 Hord Hh) as (g & Hg & Hin).
      apply In_target_ratio_gen_pos in Hin as [Hc Hr].
      rewrite (dynamic_preprocess_explicit image_size use_thumbnail
                 set_order im 1 6 g Hs Hc Hr Hg).
      eexists. split; [reflexivity|]. split; [reflexivity|].
      split; [|discriminate].
      unfold Py.len. rewrite length_app, length_map, range_length. nia.
    - exists [im]. repeat split; reflexivity. }
  destruct Htiles as (tiles & Htiles & Hshape & Hlen & Hone).
  exists first', tiles. split; [exact Htag|]. split; [exact Hhas|].
  split; [exact Hsame|]. split; [exact Hshape|]. split; [exact Hlen|].
  unfold multi_modal_get_item. rewrite Htag. cbn [bind].
  rewrite Hopen. cbn [bind]. rewrite Htiles. cbn [bind].
  assert (Hl : Py.len (map transform tiles) = Py.len tiles)
    by (unfold Py.len; now rewrite length_map).
  rewrite Hl.
  destruct dynamic_image_size; cbn [negb bind]; [reflexivity|].
  rewrite <- Hl, (Hone eq_refl). reflexivity.
Qed.

Notation getitem :=
  (getitem_ Tensor template_name root num_image_token image_size
     dynamic_image_size use_thumbnail transform preprocess_mpt
     preprocess_internlm preprocess open_image json_loads set_order).

Lemma getitem_loop_raise (raw_data : list string) (fuel : nat) :
  forall i draws reads0 reads e,
    0 <= i < Py.len raw_data ->
    (forall d, In d draws -> 0 <= d <= Py.len raw_data - 1) ->
    getitem_loop (Bundle Tensor)
      (try_body Tensor template_name root num_image_token image_size
         dynamic_image_size use_thumbnail transform preprocess_mpt
         preprocess_internlm preprocess open_image json_loads set_order)
      (except_body json_loads) fuel raw_data i draws reads0
    = (reads, Some (Raise e)) ->
    exists before p line,
      reads = before ++ [p] /\ Py.index raw_data p = Ok line /\
      json_loads line = Raise e.
Proof.
  induction fuel as [|fuel IH]; intros i draws reads0 reads e Hi Hd;
    cbn [getitem_loop]; [discriminate|].
  destruct (index_in_range raw_data i Hi) as (line & Hline & _).
  rewrite Hline. cbn [bind].
  destruct (try_body _ _ _ _ _ _ _ _ _ _ _ _ _ _ line); [discriminate|].
  unfold except_body.
  destruct (json_loads line) as [item|e'] eqn:Hjson; cbn [bind].
  - destruct draws as [|d draws]; [discriminate|].
    apply IH.
    + specialize (Hd d (or_introl eq_refl)). lia.
    + intros d' Hd'. apply Hd. now right.
  - intros H. injection H as <- <-. now exists reads0, i, line.
Qed.


End Items.

Lemma pure_text_get_item_one_patch_witness :
  pure_text_get_item string "Hermes-2" 256 224 false (fun _ => "tensor")
    (fun _ _ _ => Raise TypeError) (fun _ _ _ => Raise TypeError)
    (fun _ _ _ => Raise TypeError) generation_order []
  = Raise (AssertionError "The number of patches should be 1, but got 4.").
Proof.
  apply (proj1 (pure_text_get_item_one_patch string "Hermes-2" 256 224 false
                  (fun _ => "tensor") (fun _ _ _ => Raise TypeError)
                  (fun _ _ _ => Raise TypeError)
                  (fun _ _ _ => Raise TypeError) generation_order []
                  generation_order_set ltac:(lia))).
  lia.
Defined.

Lemma multi_modal_get_item_tiles_witness :
  exists first' (tiles : list Image.image),
    ensure_image_tag [{| from_ := "human"; value := "What is this?" |}]
    = Ok [first'] /\
    PyStr2.contains (value first') "<image>" = true /\
    Py.len tiles = 5.
Proof.
  destruct (multi_modal_get_item_tiles string "Hermes-2" "root" 256 448 true
              true (fun _ => "tensor") (fun _ _ _ => Raise TypeError)
              (fun _ _ _ => Raise TypeError) (fun _ _ _ => Raise TypeError)
              (fun path => Ok (Decoded path 800 600)) generation_order
              "a.jpg" {| from_ := "human"; value := "What is this?" |} []
              (Decoded "root/a.jpg" 800 600) generation_order_set
              ltac:(lia) ltac:(simpl; lia) ltac:(vm_compute; reflexivity))
    as (first' & tiles & Htag & Hhas & _ & Htiles & _).
  exists first', tiles. split; [exact Htag|]. split; [exact Hhas|].
  vm_compute in Htiles. injection Htiles as <-. reflexivity.
Defined.


(** X8. When the annotation file has fewer lines than there are ranks,
    every rank keeps no line at all: [__len__] is 0 and every
    [__getitem__] raises [ZeroDivisionError] before reading anything. *)
Theorem fewer_lines_than_ranks (lines : list string) (world_size rank : Z) :
  0 <= rank < world_size -> Py.len lines < world_size ->
  init_raw_data lines world_size rank = Ok [] /\
  LazySupervisedDataset.__len__ [] world_size = 0 /\
  forall bundle try_body except_body fuel i draws,
    __getitem__ bundle try_body except_body fuel [] i draws
    = ([], Some (Raise ZeroDivisionError)).
Proof.
  intros Hr Hlen. split; [|split; [reflexivity|reflexivity]].
  unfold init_raw_data, Py.floordiv.
  destruct (Z.eqb_spec world_size 0) as [?|_]; [lia|]. cbn [bind].
  rewrite Z.div_small by (unfold Py.len in *; lia).
  rewrite Z.mul_0_l. f_equal. unfold Py.slice, Py.adjust. cbn.
  now rewrite Z.min_l by (unfold Py.len; lia).
Qed.

Lemma fewer_lines_than_ranks_witness :
  init_raw_data ["a"; "b"; "c"] 4 2 = Ok [].
Proof.
  apply (fewer_lines_than_ranks ["a"; "b"; "c"] 4 2);
    [lia | vm_compute; reflexivity].
Defined.

(** *** Length grouping *)

Section Grouping.
Variable token_length_of : string -> Z.

Lemma int_dict_get_snoc cache k v k' :
  int_dict_get (cache ++ [(k, v)]) k'
  = match int_dict_get cache k' with
    | Some x => Some x
    | None => if k =? k' then Some v else None
    end.
Proof.
  induction cache as [|[a b] cache IH]; cbn [app int_dict_get].
  - reflexivity.
  - destruct (a =? k'); [reflexivity|exact IH].
Qed.

Lemma find_snoc {A : Type} (p : A -> bool) l x :
  find p (l ++ [x])
  = match find p l with
    | Some y => Some y
    | None => if p x then Some x else None
    end.
Proof.
  induction l as [|a l IH]; cbn [app find]; [reflexivity|].
  destruct (p a); [reflexivity|exact IH].
Qed.

Lemma find_app_some {A : Type} (p : A -> bool) l l' y :
  find p l = Some y -> find p (l ++ l') = Some y.
Proof.
  induction l as [|a l IH]; cbn [app find]; [discriminate|].
  destruct (p a); auto.
Qed.

Lemma group_by_length_loop_spec rest : forall raw_done cache out,
  cached_for token_length_of raw_done cache ->
  snd (group_by_length_loop token_length_of rest cache out)
  = out ++ map (fun line =>
                  match first_of_same_length (raw_done ++ rest) line with
                  | Some y => token_length_of (conversations_text y)
                  | None => token_length_of (conversations_text line)
                  end) rest.
Proof.
  induction rest as [|x rest IH]; intros raw_done cache out Hc;
    cbn [group_by_length_loop map].
  - now rewrite app_nil_r.
  - pose proof (Hc (PyStr.len (conversations_text x))) as Hx.
    assert (Happ : raw_done ++ x :: rest = (raw_done ++ [x]) ++ rest)
      by now rewrite <- app_assoc.
    assert (Hstep : forall v,
      match find (same_count (PyStr.len (conversations_text x))) raw_done
      with
      | Some y => Some (token_length_of (conversations_text y))
      | None => Some (token_length_of (conversations_text x))
      end = Some v ->
      out ++ [v] ++ map (fun line =>
                  match first_of_same_length ((raw_done ++ [x]) ++ rest) line
                  with
                  | Some y => token_length_of (conversations_text y)
                  | None => token_length_of (conversations_text line)
                  end) rest
      = out ++ map (fun line =>
                  match first_of_same_length (raw_done ++ x :: rest) line with
                  | Some y => token_length_of (conversations_text y)
                  | None => token_length_of (conversations_text line)
                  end) (x :: rest)).
    { intros v Hv. rewrite <- Happ. cbn [map app]. do 2 f_equal.
      unfold first_of_same_length.
      destruct (find (same_count (PyStr.len (conversations_text x))) raw_done)
        as [y|] eqn:Hf.
      - rewrite (find_app_some _ _ _ _ Hf). congruence.
      - rewrite Happ, (find_app_some _ _ _ x).
        + congruence.
        + rewrite find_snoc, Hf. unfold same_count. now rewrite Z.eqb_refl. }
    unfold cached_for in Hc.
    destruct (int_dict_get cache (PyStr.len (conversations_text x)))
      as [v|] eqn:Hget.
    + rewrite (IH (raw_done ++ [x]) cache (out ++ [v])).
      * rewrite <- app_assoc. apply Hstep.
        destruct (find (same_count (PyStr.len (conversations_text x)))
                    raw_done); [now cbn in Hx|discriminate].
      * intros k. rewrite find_snoc, Hc.
        destruct (find (same_count k) raw_done) as [y|] eqn:Hf;
          [reflexivity|].
        unfold same_count at 1.
        destruct (Z.eqb_spec (PyStr.len (conversations_text x)) k)
          as [<-|_]; [|reflexivity].
        rewrite Hf in Hx. discriminate.
    + rewrite (IH (raw_done ++ [x])
                 (cache ++ [(PyStr.len (conversations_text x),
                             token_length_of (conversations_text x))])
                 (out ++ [token_length_of (conversations_text x)])).
      * rewrite <- app_assoc. apply Hstep.
        destruct (find (same_count (PyStr.len (conversations_text x)))
                    raw_done); [discriminate|reflexivity].
      * intros k. rewrite find_snoc, int_dict_get_snoc, Hc.
        destruct (find (same_count k) raw_done) as [y|]; [reflexivity|].
        unfold same_count at 1. cbn [option_map].
        now destruct (PyStr.len (conversations_text x) =? k).
Qed.

(** X9. With [group_by_length], the token length recorded for a line is
    the length the tokenizer gave to the first line of the rank whose
    text after ['conversations'] has the same number of characters: the
    tokenizer runs once per distinct character count, and two lines with
    the same count get the same length whatever their texts. *)
Theorem group_by_length_by_character_count (raw_data : list string) :
  init_length token_length_of raw_data
  = map (fun line =>
           match first_of_same_length raw_data line with
           | Some y => token_length_of (conversations_text y)
           | None => token_length_of (conversations_text line)
           end) raw_data /\
  forall i j a b la lb,
    nth_error raw_data i = Some a -> nth_error raw_data j = Some b ->
    PyStr.len (conversations_text a) = PyStr.len (conversations_text b) ->
    nth_error (init_length token_length_of raw_data) i = Some la ->
    nth_error (init_length token_length_of raw_data) j = Some lb ->
    la = lb.
Proof.
  assert (Heq : init_length token_length_of raw_data
    = map (fun line =>
             match first_of_same_length raw_data line with
             | Some y => token_length_of (conversations_text y)
             | None => token_length_of (conversations_text line)
             end) raw_data).
  { unfold init_length.
    rewrite (group_by_length_loop_spec raw_data [] [] []); [reflexivity|].
    intros k. reflexivity. }
  split; [exact Heq|].
  intros i j a b la lb Ha Hb Hlen Hla Hlb.
  rewrite Heq in Hla, Hlb.
  rewrite nth_error_map, Ha in Hla. rewrite nth_error_map, Hb in Hlb.
  cbn in Hla, Hlb. injection Hla as <-. injection Hlb as <-.
  unfold first_of_same_length. rewrite Hlen.
  destruct (find _ raw_data) as [y|] eqn:Hf; [reflexivity|].
  apply nth_error_In in Hb.
  pose proof (find_none _ _ Hf b Hb) as Hnone. unfold same_count in Hnone.
  rewrite Z.eqb_refl in Hnone. discriminate.
Qed.

End Grouping.

Lemma group_by_length_by_character_count_witness :
  init_length PyStr.len
    ["id 1 conversations abc"; "id 22 conversations xyz";
     "conversations hello"]
  = [4; 4; 6].
Proof.
  rewrite (proj1 (group_by_length_by_character_count PyStr.len _)).
  vm_compute. reflexivity.
Defined.

End LazyItemsProofs.

(** ** JSON-Lines loading: what is returned, what is raised, the fetch *)

Module JsonLinesMore.
Import JsonLinesProofs Fetch.

Section WithParser.
Variable R : Type.
Variable json_loads : string -> res (option R).

Lemma load_json_line_loop_sound (n : nat) : forall line data line',
  load_json_line_loop R json_loads n line = (data, line') ->
  exists k,
    (k <= n)%nat /\ line' = trims k line /\
    (forall j, (j < k)%nat -> fails R json_loads (trims j line)) /\
    match data with
    | Some v => (k < n)%nat /\ json_loads (trims k line) = Ok (Some v)
    | None => k = n \/ json_loads (trims k line) = Ok None
    end.
Proof.
  induction n as [|n IH]; intros line data line' H;
    cbn [load_json_line_loop] in H.
  - injection H as <- <-. exists 0%nat.
    split; [lia|]. split; [reflexivity|]. split; [intros j Hj; lia|].
    now left.
  - destruct (json_loads line) as [d|e] eqn:Hl.
    + injection H as <- <-. exists 0%nat.
      split; [lia|]. split; [reflexivity|]. split; [intros j Hj; lia|].
      destruct d as [v|]; cbn; [split; [lia|exact Hl]|now right].
    + apply IH in H as (k & Hk & -> & Hfail & Hdata).
      exists (S k). split; [lia|]. split; [now rewrite trims_succ|].
      split.
      * intros [|j] Hj; [exists e; exact Hl|].
        rewrite trims_succ. apply Hfail. lia.
      * rewrite trims_succ.
        destruct data as [v|]; [split; [lia|apply Hdata]|].
        destruct Hdata as [->|Hnull]; [now left|now right].
Qed.

(** X10. [load_json_line] for any number of attempts. With
    [try_times <= 0] no attempt is made and reading [data] raises
    [UnboundLocalError]. A value that is returned is what [json.loads]
    gave for the line with its last [k] characters removed, for the
    least [k] at which [json.loads] does not raise, and [k < try_times].
    Anything else raised is the [Exception] naming the line as it was
    cut when the loop ended. *)
Theorem load_json_line_sound (line : string) (try_times : Z) :
  (try_times <= 0 ->
   load_json_line R json_loads line try_times = Raise UnboundLocalError) /\
  (forall v,
     load_json_line R json_loads line try_times = Ok v ->
     exists k,
       Z.of_nat k < try_times /\
       json_loads (trims k line) = Ok (Some v) /\
       forall j, (j < k)%nat -> fails R json_loads (trims j line)) /\
  (forall e,
     0 < try_times ->
     load_json_line R json_loads line try_times = Raise e ->
     exists k,
       Z.of_nat k <= try_times /\
       e = Exception_ ("Failed to get " +++ trims k line) /\
       (forall j, (j < k)%nat -> fails R json_loads (trims j line)) /\
       (Z.of_nat k = try_times \/ json_loads (trims k line) = Ok None)).
Proof.
  unfold load_json_line.
  destruct (Z.leb_spec try_times 0) as [Hle|Hgt].
  - split; [reflexivity|]. split; [discriminate|]. intros e He. lia.
  - split; [lia|].
    destruct (load_json_line_loop R json_loads (Z.to_nat try_times) line)
      as [data line'] eqn:Hloop.
    apply load_json_line_loop_sound in Hloop
      as (k & Hk & -> & Hfail & Hdata).
    split.
    + intros v Hv. destruct data as [v'|]; [|discriminate].
      injection Hv as ->. destruct Hdata as [Hlt Hok].
      exists k. split; [lia|]. split; [exact Hok|exact Hfail].
    + intros e _ He. destruct data as [v'|]; [discriminate|].
      injection He as <-. exists k. split; [lia|]. split; [reflexivity|].
      split; [exact Hfail|]. destruct Hdata as [->|Hnull]; [left; lia|].
      now right.
Qed.

Lemma load_jsonl_loop_acc lines : forall data,
  load_jsonl_loop R json_loads lines data
  = match load_jsonl_loop R json_loads lines [] with
    | Ok vs => Ok (data ++ vs)
    | Raise e => Raise e
    end.
Proof.
  induction lines as [|line lines IH]; intros data;
    cbn [load_jsonl_loop].
  - now rewrite app_nil_r.
  - destruct (PyStr.len (PyStr.strip line) >? 2); [|apply IH].
    destruct (load_json_line R json_loads line 20) as [v|e];
      [|reflexivity].
    rewrite (IH (data ++ [v])), (IH ([] ++ [v])).
    destruct (load_jsonl_loop R json_loads lines []); [|reflexivity].
    now rewrite <- app_assoc.
Qed.

(** X11. The loop of [load_jsonl] returns one value per line that has
    more than two characters once stripped, in the order of the file:
    the value [load_json_line] gives for that line; shorter lines are
    never parsed. It returns exactly when every such line loads. When it
    raises, it raises the [ValueError] naming the first line that does
    not load, chained to the error of [load_json_line], and the lines
    after that one are not looked at. *)
Theorem load_jsonl_loop_long_lines (lines : list string) :
  (forall data,
     load_jsonl_loop R json_loads lines [] = Ok data <->
     Forall2 (fun line v => load_json_line R json_loads line 20 = Ok v)
             (filter long_line lines) data) /\
  (forall e,
     load_jsonl_loop R json_loads lines [] = Raise e ->
     exists before line after cause,
       lines = before ++ line :: after /\
       long_line line = true /\
       load_json_line R json_loads line 20 = Raise cause /\
       e = ValueError ("Failed to load line: " +++ line) cause /\
       exists loaded,
         load_jsonl_loop R json_loads before [] = Ok loaded).
Proof.
  induction lines as [|line lines [IHok IHerr]].
  - split.
    + intros data. cbn. split.
      * intros H. injection H as <-. constructor.
      * intros H. inversion H. reflexivity.
    + intros e H. discriminate.
  - cbn [load_jsonl_loop filter]. fold (long_line line).
    destruct (long_line line) eqn:Hlong.
    + destruct (load_json_line R json_loads line 20) as [v|cause] eqn:Hl.
      * rewrite load_jsonl_loop_acc. split.
        -- intros data. split.
           ++ intros H.
              destruct (load_jsonl_loop R json_loads lines []) as [vs|]
                eqn:Hrest; [|discriminate].
              injection H as <-. cbn [app]. constructor; [exact Hl|].
              now apply IHok.
           ++ intros H. inversion H as [|l v' ls vs Hv Hrest]; subst.
              assert (v' = v) as -> by congruence.
              apply IHok in Hrest. now rewrite Hrest.
        -- intros e H.
           destruct (load_jsonl_loop R json_loads lines []) as [vs|e']
             eqn:Hrest; [discriminate|].
           injection H as <-.
           destruct (IHerr e' eq_refl)
             as (before & l & after & cause & -> & Hl' & Hc & -> & vs & Hb).
           exists (line :: before), l, after, cause.
           split; [reflexivity|]. split; [exact Hl'|].
           split; [exact Hc|]. split; [reflexivity|].
           cbn [load_jsonl_loop]. fold (long_line line).
           rewrite Hlong, Hl, load_jsonl_loop_acc, Hb. eauto.
      * split; [intros data; split; [discriminate|]|].
        -- intros H. inversion H; subst. congruence.
        -- intros e H. injection H as <-.
           exists [], line, lines, cause.
           split; [reflexivity|]. split; [exact Hlong|].
           split; [exact Hl|]. split; [reflexivity|].
           exists []. reflexivity.
    + split.
      * exact IHok.
      * intros e H.
        destruct (IHerr e H)
          as (before & l & after & cause & -> & Hl' & Hc & -> & vs & Hb).
        exists (line :: before), l, after, cause.
        split; [reflexivity|]. split; [exact Hl'|].
        split; [exact Hc|]. split; [reflexivity|].
        cbn [load_jsonl_loop]. fold (long_line line).
        rewrite Hlong. eauto.
Qed.

End WithParser.

Lemma load_json_line_sound_witness :
  exists k,
    Z.of_nat k < 5 /\
    Examples.json_loads_array (trims k "[1, 2]xy") = Ok (Some [1; 2]).
Proof.
  destruct (proj1 (proj2 (load_json_line_sound (list Z)
                            Examples.json_loads_array "[1, 2]xy" 5))
              [1; 2] ltac:(vm_compute; reflexivity))
    as (k & Hk & Hok & _).
  exists k. split; [exact Hk|exact Hok].
Defined.

Lemma load_jsonl_loop_long_lines_witness :
  load_jsonl_loop (list Z) Examples.json_loads_array
    ["[1, 2]"; "{}"; " [1, 2] x"] []
  = Ok [[1; 2]; [1; 2]].
Proof.
  apply (proj1 (load_jsonl_loop_long_lines (list Z)
                  Examples.json_loads_array ["[1, 2]"; "{}"; " [1, 2] x"])).
  let l := eval vm_compute in
             (filter long_line ["[1, 2]"; "{}"; " [1, 2] x"]) in
  change (filter long_line ["[1, 2]"; "{}"; " [1, 2] x"]) with l.
  constructor; [vm_compute; reflexivity|].
  constructor; [vm_compute; reflexivity|]. constructor.
Defined.

Section WithClient.
Variable client_get : Z -> string -> res string.
Variable open_read : string -> res string.
Variable R : Type.
Variable json_load : string -> res R.
Variable S' : Type.
Variable json_loads : string -> res (option S').

Lemma get_loop_first_success (k : nat) : forall n url t bytes,
  (k < n)%nat ->
  (forall j, (j < k)%nat ->
     exists e, client_get (t + Z.of_nat j) url = Raise e) ->
  client_get (t + Z.of_nat k) url = Ok bytes ->
  Fetch.get_loop client_get n url t = Some bytes.
Proof.
  induction k as [|k IH]; intros n url t bytes Hn Hfail Hok;
    (destruct n as [|n]; [lia|]); cbn [Fetch.get_loop].
  - rewrite Z.add_0_r in Hok. now rewrite Hok.
  - destruct (Hfail 0%nat ltac:(lia)) as (e & He).
    rewrite Z.add_0_r in He. rewrite He.
    apply IH; [lia| |].
    + intros j Hj. destruct (Hfail (S j) ltac:(lia)) as (e' & He').
      exists e'. rewrite <- He'. f_equal. lia.
    + rewrite <- Hok. f_equal. lia.
Qed.

Lemma get_loop_all_fail (n : nat) : forall url t,
  (forall j, (j < n)%nat ->
     exists e, client_get (t + Z.of_nat j) url = Raise e) ->
  Fetch.get_loop client_get n url t = None.
Proof.
  induction n as [|n IH]; intros url t Hfail; cbn [Fetch.get_loop];
    [reflexivity|].
  destruct (Hfail 0%nat ltac:(lia)) as (e & He).
  rewrite Z.add_0_r in He. rewrite He. apply IH.
  intros j Hj. destruct (Hfail (S j) ltac:(lia)) as (e' & He').
  exists e'. rewrite <- He'. f_equal. lia.
Qed.

(** X12. Reading a remote file (a path that contains [s3://]). The client
    is called until a call returns, ten times at most, and errors of the
    calls before are dropped: when call [k < 10] is the first to return,
    [load_json] decodes what it returned and [load_jsonl] loads its
    lines. When ten calls in a row raise, no error of the client comes
    out: [load_jsonl] raises [UnboundLocalError] for its variable
    [bytes], and [load_json] decodes an empty file. *)
Theorem remote_file_retries (url : string) :
  PyStr2.contains url "s3://" = true ->
  (forall (k : nat) bytes,
     (k < 10)%nat ->
     (forall j, (j < k)%nat ->
        exists e, client_get (Z.of_nat j) url = Raise e) ->
     client_get (Z.of_nat k) url = Ok bytes ->
     Fetch.load_json client_get open_read R json_load url = json_load bytes
     /\ load_jsonl S' json_loads (Fetch.read_lines client_get open_read) url
        = load_jsonl_loop S' json_loads (PyStr2.readlines bytes) []) /\
  ((forall j, (j < 10)%nat ->
      exists e, client_get (Z.of_nat j) url = Raise e) ->
   Fetch.load_json client_get open_read R json_load url
   = json_load EmptyString
   /\ load_jsonl S' json_loads (Fetch.read_lines client_get open_read) url
      = Raise UnboundLocalError).
Proof.
  intros Hurl. unfold Fetch.load_json, load_jsonl, Fetch.read_lines.
  rewrite Hurl. split.
  - intros k bytes Hk Hfail Hok.
    rewrite (get_loop_first_success k 10 url 0 bytes Hk Hfail Hok).
    split; reflexivity.
  - intros Hfail. rewrite (get_loop_all_fail 10 url 0 Hfail).
    split; reflexivity.
Qed.

End WithClient.

Lemma remote_file_retries_witness :
  load_jsonl (list Z) Examples.json_loads_array
    (Fetch.read_lines
       (fun k _ => if k <? 3 then Raise (OSError "timeout")
                   else Ok ("[1, 2]" +++ PyStr.LF +++ "[1, 2]"))
       (fun path => Raise (OSError path)))
    "cluster:s3://bucket/shard.jsonl"
  = Ok [[1; 2]; [1; 2]].
Proof.
  pose proof (remote_file_retries
    (fun k _ => if k <? 3 then Raise (OSError "timeout")
                else Ok ("[1, 2]" +++ PyStr.LF +++ "[1, 2]"))
    (fun path => Raise (OSError path))
    (option (list Z)) Examples.json_loads_array
    (list Z) Examples.json_loads_array
    "cluster:s3://bucket/shard.jsonl" ltac:(vm_compute; reflexivity)) as H.
  destruct H as [H _].
  destruct (H 3%nat ("[1, 2]" +++ PyStr.LF +++ "[1, 2]") ltac:(lia))
    as [_ Hl].
  - intros [|[|[|j]]] Hj; try lia; exists (OSError "timeout");
      vm_compute; reflexivity.
  - vm_compute. reflexivity.
  - rewrite Hl. vm_compute. reflexivity.
Defined.

End JsonLinesMore.

(** ** The shard table: partition, lookup, the range check, swaps *)

Module ShardMore.
Import InterleavedDataset ShardIndexProofs ShardCheck.

Lemma mapM_index {A : Type} (l : list A) (idxs : list Z) :
  (forall idx, In idx idxs -> 0 <= idx < Py.len l) ->
  exists part,
    mapM (fun idx => Py.index l idx) idxs = Ok part /\
    map Some part = map (fun idx => nth_error l (Z.to_nat idx)) idxs.
Proof.
  induction idxs as [|idx idxs IH]; intros H; cbn [mapM map].
  - now exists [].
  - destruct (index_in_range l idx (H idx (or_introl eq_refl)))
      as (a & -> & Ha).
    destruct IH as (part & -> & Hpart); [intros; apply H; now right|].
    exists (a :: part). cbn [bind map]. now rewrite Ha, Hpart.
Qed.

(** X13. [partition_for_rank] strides through the list: for a rank
    [>= 0] and a positive [world_num] it returns the items at the
    positions [rank], [rank + world_num], [rank + 2 * world_num], ... below
    the length, in that order, and nothing else; so the item at position
    [i] is item number [i // world_num] of the part of rank
    [i % world_num], and the parts of the ranks [0 .. world_num - 1] hold
    every item once. *)
Theorem partition_for_rank_stride {A : Type} (l : list A) (rank w : Z) :
  0 <= rank -> 0 < w ->
  exists part,
    partition_for_rank l rank w = Ok part /\
    (forall j : nat,
       nth_error part j
       = if rank + Z.of_nat j * w <? Py.len l
         then nth_error l (Z.to_nat (rank + Z.of_nat j * w))
         else None) /\
    (forall i : nat,
       (i < length l)%nat -> Z.of_nat i mod w = rank ->
       nth_error part (Z.to_nat (Z.of_nat i / w)) = nth_error l i).
Proof.
  intros Hr Hw. unfold partition_for_rank, Py.range_step.
  set (m := Z.to_nat ((Py.len l - rank + w - 1) / w)).
  assert (Hin : forall k : nat,
            (k < m)%nat <-> rank + Z.of_nat k * w < Py.len l).
  { intros k. unfold m.
    pose proof (Z.div_mod (Py.len l - rank + w - 1) w ltac:(lia)) as Hdm.
    pose proof (Z.mod_pos_bound (Py.len l - rank + w - 1) w Hw) as Hmod.
    set (q := (Py.len l - rank + w - 1) / w) in *.
    split; intros Hk.
    - assert (Z.of_nat k + 1 <= q) by lia. nia.
    - assert (Z.of_nat k < q); [|lia].
      apply Z.nle_gt. intros Hq. nia. }
  destruct (mapM_index l (map (fun k => rank + Z.of_nat k * w) (seq 0 m)))
    as (part & Hpart & Hsome).
  { intros idx Hidx. apply in_map_iff in Hidx as (k & <- & Hk).
    apply in_seq in Hk. split; [nia|]. apply Hin. lia. }
  exists part. split; [exact Hpart|].
  assert (Hnth : forall j : nat,
            nth_error part j
            = if rank + Z.of_nat j * w <? Py.len l
              then nth_error l (Z.to_nat (rank + Z.of_nat j * w))
              else None).
  { intros j.
    assert (Hj : nth_error (map Some part) j
                 = nth_error (map (fun idx => nth_error l (Z.to_nat idx))
                                (map (fun k => rank + Z.of_nat k * w)
                                     (seq 0 m))) j)
      by now rewrite Hsome.
    rewrite map_map, !nth_error_map in Hj.
    destruct (Z.ltb_spec (rank + Z.of_nat j * w) (Py.len l)) as [Hlt|Hge].
    - apply Hin in Hlt.
      rewrite (nth_error_nth' _ 0%nat) in Hj by (now rewrite length_seq).
      rewrite seq_nth in Hj by exact Hlt. cbn in Hj.
      destruct (nth_error part j) as [a|]; cbn in Hj.
      + now injection Hj as <-.
      + discriminate.
    - assert (~ (j < m)%nat) by (intros Hlt; apply Hin in Hlt; lia).
      destruct (nth_error (seq 0 m) j) eqn:E.
      + exfalso.
        assert (Hs : nth_error (seq 0 m) j <> None) by congruence.
        apply nth_error_Some in Hs. rewrite length_seq in Hs. lia.
      + cbn in Hj. now destruct (nth_error part j). }
  split; [exact Hnth|].
  intros i Hi Hmod. rewrite Hnth.
  assert (Hq : 0 <= Z.of_nat i / w) by (apply Z.div_pos; lia).
  replace (rank + Z.of_nat (Z.to_nat (Z.of_nat i / w)) * w)
    with (Z.of_nat i)
    by (rewrite Z2Nat.id by exact Hq;
        pose proof (Z.div_mod (Z.of_nat i) w ltac:(lia)); lia).
  destruct (Z.ltb_spec (Z.of_nat i) (Py.len l)) as [_|Hge];
    [now rewrite Nat2Z.id|unfold Py.len in Hge; lia].
Qed.

Lemma partition_for_rank_stride_witness :
  partition_for_rank ["a"; "b"; "c"; "d"; "e"] 1 2 = Ok ["b"; "d"].
Proof.
  destruct (partition_for_rank_stride ["a"; "b"; "c"; "d"; "e"] 1 2
              ltac:(lia) ltac:(lia)) as (part & -> & Hnth & _).
  f_equal.
  pose proof (Hnth 0%nat) as H0. pose proof (Hnth 1%nat) as H1.
  pose proof (Hnth 2%nat) as H2. vm_compute in H0, H1, H2.
  destruct part as [|x [|y [|z part]]]; try discriminate.
  now injection H0 as ->; injection H1 as ->.
Defined.

Lemma shard_entries_lookup n order : forall i0 (i : nat) k,
  NoDup order -> nth_error order i = Some k ->
  dict_get (shard_entries n order i0) (shard_file k)
  = Ok (n * (i0 + Z.of_nat i), n * (i0 + Z.of_nat i + 1) - 1).
Proof.
  induction order as [|k0 order IH]; intros i0 i k Hnd Hk;
    [now destruct i|].
  inversion Hnd as [|? ? Hfresh Hnd']; subst.
  cbn [shard_entries dict_get].
  destruct i as [|i]; cbn [nth_error] in Hk.
  - injection Hk as ->. rewrite String.eqb_refl. do 3 f_equal; lia.
  - destruct (String.eqb_spec (shard_file k0) (shard_file k)) as [Heq|_].
    + apply shard_file_inj in Heq. subst k0. exfalso. apply Hfresh.
      eapply nth_error_In, Hk.
    + rewrite (IH (i0 + 1) i k Hnd' Hk). do 3 f_equal; lia.
Qed.

Lemma shard_entries_In n order : forall i0 name s e,
  In (name, (s, e)) (shard_entries n order i0) <->
  exists (i : nat) k,
    nth_error order i = Some k /\ name = shard_file k /\
    s = n * (i0 + Z.of_nat i) /\ e = n * (i0 + Z.of_nat i + 1) - 1.
Proof.
  induction order as [|k0 order IH]; intros i0 name s e;
    cbn [shard_entries In].
  - split; [intros []|intros ([|i] & k & H & _); discriminate].
  - rewrite IH. split.
    + intros [H|(i & k & Hk & -> & -> & ->)].
      * injection H as <- <- <-. exists 0%nat, k0.
        split; [reflexivity|]. split; [reflexivity|]. split; lia.
      * exists (S i), k. cbn [nth_error].
        split; [exact Hk|]. split; [reflexivity|]. split; lia.
    + intros ([|i] & k & Hk & -> & -> & ->); cbn [nth_error] in Hk.
      * injection Hk as ->. left.
        replace (i0 + Z.of_nat 0) with i0 by lia. reflexivity.
      * right. exists i, k.
        split; [exact Hk|]. split; [reflexivity|]. split; lia.
Qed.

(** X14. The table [__init__] builds from an order without repeats: the
    shard at position [i] of the order is given the inclusive range
    [(n * i, n * (i + 1) - 1)], and looking its file name up gives that
    range; the ranges are disjoint and cover [0 .. n * len(order) - 1]:
    an index [idx] lies in the range of one entry only, that of the shard
    at position [idx // n]. *)
Theorem shard_id_range_lookup (n : Z) (order : list Z) :
  0 < n -> NoDup order ->
  exists table,
    build_shard_id_range n order = Ok table /\
    (forall (i : nat) k,
       nth_error order i = Some k ->
       dict_get table (shard_file k)
       = Ok (n * Z.of_nat i, n * (Z.of_nat i + 1) - 1)) /\
    (forall idx,
       0 <= idx < n * Py.len order ->
       exists k,
         nth_error order (Z.to_nat (idx / n)) = Some k /\
         forall name s e,
           In (name, (s, e)) table /\ s <= idx <= e <->
           name = shard_file k /\ s = n * (idx / n) /\
           e = n * (idx / n + 1) - 1).
Proof.
  intros Hn Hnd. exists (shard_entries n order 0).
  split; [now apply build_shard_id_range_spec|]. split.
  - intros i k Hk. now rewrite (shard_entries_lookup n order 0 i k Hnd Hk).
  - intros idx Hidx.
    pose proof (Z.div_mod idx n ltac:(lia)) as Hdm.
    pose proof (Z.mod_pos_bound idx n Hn) as Hmod.
    assert (Hq : 0 <= idx / n < Py.len order).
    { split; [apply Z.div_pos; lia|].
      apply Z.div_lt_upper_bound; lia. }
    destruct (nth_error order (Z.to_nat (idx / n))) as [k|] eqn:Hk.
    2:{ apply nth_error_None in Hk. unfold Py.len in Hq. lia. }
    exists k. split; [reflexivity|]. intros name s e.
    rewrite shard_entries_In. split.
    + intros ((i & k' & Hk' & -> & -> & ->) & Hin).
      assert (Z.of_nat i = idx / n) as Hi by nia.
      rewrite <- Hi. rewrite <- Hi, Nat2Z.id in Hk.
      assert (k' = k) as -> by congruence.
      split; [reflexivity|]. split; lia.
    + intros (-> & -> & ->). split; [|nia].
      exists (Z.to_nat (idx / n)), k. rewrite Z2Nat.id by lia.
      split; [exact Hk|]. split; [reflexivity|]. split; lia.
Qed.

Lemma shard_id_range_lookup_witness :
  exists table,
    build_shard_id_range 3 [5; 2] = Ok table /\
    dict_get table (shard_file 2) = Ok (3, 5).
Proof.
  destruct (shard_id_range_lookup 3 [5; 2] ltac:(lia)
              ltac:(repeat constructor; cbn; intuition discriminate))
    as (table & Ht & Hget & _).
  exists table. split; [exact Ht|]. exact (Hget 1%nat 2 eq_refl).
Defined.

(** *** The range check *)

Lemma In_insert_sorted x y l :
  In x (insert_sorted y l) <-> x = y \/ In x l.
Proof.
  induction l as [|z l IH]; cbn [insert_sorted In].
  - intuition congruence.
  - destruct (y <=? z); cbn [In]; rewrite ?IH; intuition congruence.
Qed.

Lemma In_sorted x l : In x (sorted l) <-> In x l.
Proof.
  induction l as [|y l IH]; cbn [sorted fold_right In]; [reflexivity|].
  fold (sorted l). rewrite In_insert_sorted, IH. intuition congruence.
Qed.

Lemma sorted_cons_le x l :
  (forall y, In y l -> x <= y) -> sorted l = l -> sorted (x :: l) = x :: l.
Proof.
  intros Hle Hs. cbn [sorted fold_right]. fold (sorted l). rewrite Hs.
  destruct l as [|y l]; [reflexivity|]. cbn [insert_sorted].
  destruct (Z.leb_spec x y) as [_|Hlt]; [reflexivity|].
  specialize (Hle y (or_introl eq_refl)). lia.
Qed.

Lemma range_cons a b : a < b -> Py.range a b = a :: Py.range (a + 1) b.
Proof.
  intros H. unfold Py.range.
  replace (Z.to_nat (b - a)) with (S (Z.to_nat (b - (a + 1)))) by lia.
  cbn [seq map]. f_equal; [lia|].
  rewrite <- seq_shift, map_map. apply map_ext. intros k. lia.
Qed.

Lemma sorted_range_app (k : nat) : forall a b rest,
  Z.to_nat (b - a) = k ->
  (forall y, In y rest -> b <= y) -> sorted rest = rest ->
  sorted (Py.range a b ++ rest) = Py.range a b ++ rest.
Proof.
  induction k as [|k IH]; intros a b rest Hk Hle Hs.
  - unfold Py.range. rewrite Hk. exact Hs.
  - rewrite range_cons by lia. cbn [app]. apply sorted_cons_le.
    + intros y Hy. apply in_app_or in Hy as [Hy|Hy].
      * apply In_range in Hy. lia.
      * apply Hle in Hy. lia.
    + apply IH; [lia|exact Hle|exact Hs].
Qed.

Lemma collect_ids_bounds n order : forall i0 x,
  0 < n -> In x (collect_ids (shard_entries n order i0)) ->
  exists j, i0 <= j /\ n * j <= x < n * (j + 1) - 1.
Proof.
  induction order as [|k order IH]; intros i0 x Hn;
    cbn [shard_entries collect_ids flat_map snd]; [intros []|].
  intros H. apply in_app_or in H as [H|H].
  - apply In_range in H. exists i0. lia.
  - apply (IH (i0 + 1) x Hn) in H as (j & ? & ?). exists j. lia.
Qed.

Lemma collect_ids_sorted n order : forall i0,
  0 < n ->
  sorted (collect_ids (shard_entries n order i0))
  = collect_ids (shard_entries n order i0).
Proof.
  induction order as [|k order IH]; intros i0 Hn;
    cbn [shard_entries collect_ids flat_map snd]; [reflexivity|].
  apply (sorted_range_app _ _ _ _ eq_refl).
  - intros y Hy. apply collect_ids_bounds in Hy as (j & ? & ?); [|exact Hn].
    nia.
  - apply IH, Hn.
Qed.

(** X15. [check_shard_id_range] reads the second component of a range as
    an exclusive end, the table of [__init__] stores an inclusive one. On
    the table built from a non-empty order without repeats the check
    passes exactly for the lengths below the size of one shard: for
    every [length >= n], the total length included, the assertion fails,
    the id [n - 1] being collected from no range. *)
Theorem check_shard_id_range_own_table (n : Z) (order : list Z)
  (length : Z) :
  0 < n -> order <> [] -> NoDup order -> 0 <= length ->
  exists table,
    build_shard_id_range n order = Ok table /\
    (check_shard_id_range table length = Ok tt <-> length <= n - 1) /\
    (n <= length ->
     check_shard_id_range table length
     = Raise (AssertionError EmptyString)).
Proof.
  intros Hn Hne Hnd Hlen. exists (shard_entries n order 0).
  split; [now apply build_shard_id_range_spec|].
  assert (Hiff : check_shard_id_range (shard_entries n order 0) length
                 = Ok tt <-> length <= n - 1).
  { unfold check_shard_id_range.
    rewrite collect_ids_sorted by exact Hn.
    rewrite slice_to_nonneg by exact Hlen.
    destruct (list_eq_dec Z.eq_dec _ _) as [Heq|Hneq]; cbn [assert_].
    - split; [intros _|reflexivity].
      apply Z.nlt_ge. intros Hgt.
      assert (Hin : In (n - 1) (Py.range 0 length))
        by (apply In_range; lia).
      rewrite <- Heq in Hin.
      assert (Hin' : In (n - 1) (collect_ids (shard_entries n order 0))).
      { rewrite <- (firstn_skipn (Z.to_nat length)).
        apply in_or_app. left. exact Hin. }
      clear Hin. rename Hin' into Hin.
      apply collect_ids_bounds in Hin as (j & Hj & Hlo & Hhi);
        [|exact Hn].
      assert (j < 1) by (apply (Z.mul_lt_mono_pos_l n); lia).
      assert (j = 0) as -> by lia. lia.
    - split; [discriminate|]. intros Hle. exfalso. apply Hneq.
      destruct order as [|k order]; [contradiction|].
      cbn [shard_entries collect_ids flat_map snd].
      replace (n * 0) with 0 by lia.
      rewrite <- (range_app 0 length (n * (0 + 1) - 1)) by lia.
      rewrite <- app_assoc, firstn_app, range_length.
      rewrite firstn_all2 by (rewrite range_length; lia).
      replace (Z.to_nat length - Z.to_nat (length - 0))%nat with 0%nat
        by lia.
      cbn [firstn]. apply app_nil_r. }
  split; [exact Hiff|]. intros Hge. unfold check_shard_id_range in *.
  destruct (list_eq_dec Z.eq_dec _ _); cbn [assert_] in *; [|reflexivity].
  assert (length <= n - 1) by now apply Hiff. lia.
Qed.

Lemma check_shard_id_range_own_table_witness :
  exists table,
    build_shard_id_range 3 [5; 2] = Ok table /\
    check_shard_id_range table 6 = Raise (AssertionError EmptyString).
Proof.
  destruct (check_shard_id_range_own_table 3 [5; 2] 6 ltac:(lia)
              ltac:(discriminate)
              ltac:(repeat constructor; cbn; intuition discriminate)
              ltac:(lia))
    as (table & Ht & _ & Hfail).
  exists table. split; [exact Ht|]. apply Hfail. lia.
Defined.

(** *** Serving an index *)

Section WithEnv.
Variable E : Env.

(** The state after [self.current_shard_name = shard_name], and the
    outcome of the rest of a scan hit. *)
Lemma load_data_scan_first_match (self : Dataset) (st : State E) idx
  before name start end_ after :
  (forall nm s e, In (nm, (s, e)) before -> ~ (s <= idx < e)) ->
  start <= idx < end_ ->
  load_data_scan E self st idx (before ++ (name, (start, end_)) :: after)
  = match load_ann_file E (PyStr.path_join (data_path self) name) with
    | Raise e => (Raise e, Build_State name (current_shard_data st)
                             (random st))
    | Ok data =>
        (r <- Py.index (fst (shuffle E Sample (random st) data))
                (idx - start) ;;
         Ok (Some r),
         Build_State name (fst (shuffle E Sample (random st) data))
           (snd (shuffle E Sample (random st) data)))
    end.
Proof.
  intros Hbefore Hin.
  induction before as [|[nm [s e]] before IH]; cbn [app load_data_scan].
  - destruct (Z.leb_spec start idx); [|lia].
    destruct (Z.ltb_spec idx end_); [|lia]. cbn [andb].
    destruct (load_ann_file E _) as [data|err]; [|reflexivity].
    cbn [random current_shard_data].
    destruct (shuffle E Sample (random st) data) as [data' g].
    reflexivity.
  - destruct ((s <=? idx) && (idx <? e)) eqn:Hhit.
    + exfalso. apply andb_true_iff in Hhit as [H1 H2].
      apply Z.leb_le in H1. apply Z.ltb_lt in H2.
      apply (Hbefore nm s e); [now left|lia].
    + apply IH. intros nm' s' e' H. apply (Hbefore nm' s' e'). now right.
Qed.

Section OnTable.
Variable self : Dataset.
Variable n : Z.
Variable order : list Z.
Hypothesis Hmode : shard_mode self = true.
Hypothesis Hn : 0 < n.
Hypothesis Hnd : NoDup order.
Hypothesis Htable : shard_id_range self = shard_entries n order 0.

Lemma offset_of idx : idx - n * (idx / n) = idx mod n.
Proof. pose proof (Z.div_mod idx n ltac:(lia)). lia. Qed.

Lemma load_data_hot (st : State E) idx k :
  0 <= idx < _length self ->
  nth_error order (Z.to_nat (idx / n)) = Some k ->
  current_shard_name st = shard_file k ->
  load_data E self st idx
  = (r <- Py.index (current_shard_data st) (idx mod n) ;; Ok (Some r), st).
Proof.
  intros Hidx Hk Hname. unfold load_data. rewrite Hmode. cbn [assert_].
  destruct (Z.geb_spec idx (_length self)) as [?|_]; [lia|].
  rewrite Htable, Hname, (shard_entries_lookup n order 0 _ k Hnd Hk).
  pose proof (Z.div_mod idx n ltac:(lia)) as Hdm.
  pose proof (Z.mod_pos_bound idx n Hn) as Hmod.
  assert (0 <= idx / n) by (apply Z.div_pos; lia).
  rewrite Z2Nat.id by lia. rewrite Z.add_0_l.
  destruct (Z.leb_spec (n * (idx / n)) idx); [|lia].
  destruct (Z.leb_spec idx (n * (idx / n + 1) - 1)); [|lia].
  cbn [andb]. rewrite offset_of. reflexivity.
Qed.

Lemma load_data_swap (st : State E) idx k k0 (j0 : nat) :
  0 <= idx < _length self ->
  nth_error order (Z.to_nat (idx / n)) = Some k ->
  nth_error order j0 = Some k0 ->
  current_shard_name st = shard_file k0 ->
  k <> k0 -> idx mod n <> n - 1 ->
  load_data E self st idx
  = match load_ann_file E
            (PyStr.path_join (data_path self) (shard_file k)) with
    | Raise e => (Raise e, Build_State (shard_file k)
                             (current_shard_data st) (random st))
    | Ok data =>
        (r <- Py.index (fst (shuffle E Sample (random st) data))
                (idx mod n) ;;
         Ok (Some r),
         Build_State (shard_file k)
           (fst (shuffle E Sample (random st) data))
           (snd (shuffle E Sample (random st) data)))
    end.
Proof.
  intros Hidx Hk Hk0 Hname Hne Hgap. unfold load_data.
  rewrite Hmode. cbn [assert_].
  destruct (Z.geb_spec idx (_length self)) as [?|_]; [lia|].
  rewrite Htable, Hname, (shard_entries_lookup n order 0 _ k0 Hnd Hk0).
  pose proof (Z.div_mod idx n ltac:(lia)) as Hdm.
  pose proof (Z.mod_pos_bound idx n Hn) as Hmod.
  assert (Hq : 0 <= idx / n) by (apply Z.div_pos; lia).
  rewrite Z.add_0_l.
  assert (Hj : Z.of_nat j0 <> idx / n).
  { intros Heq. rewrite <- Heq, Nat2Z.id in Hk. congruence. }
  assert (Hcold : (n * Z.of_nat j0 <=? idx)
                  && (idx <=? n * (Z.of_nat j0 + 1) - 1) = false).
  { apply andb_false_iff.
    destruct (Z.leb_spec (n * Z.of_nat j0) idx); [|now left].
    destruct (Z.leb_spec idx (n * (Z.of_nat j0 + 1) - 1)); [|now right].
    exfalso. apply Hj. nia. }
  rewrite Hcold.
  apply nth_error_split in Hk as (l1 & l2 & Horder & Hl1).
  rewrite Horder, shard_entries_app. cbn [shard_entries].
  rewrite Hl1, Z2Nat.id, Z.add_0_l by lia.
  rewrite load_data_scan_first_match; [|
    |lia].
  - rewrite offset_of. reflexivity.
  - intros nm s e Hin [H1 H2].
    apply shard_entries_In in Hin as (i & k' & Hi & _ & -> & ->).
    assert (Hi' : (i < length l1)%nat)
      by (apply nth_error_Some; congruence).
    rewrite Z.add_0_l in H1, H2. nia.
Qed.

(** X16. On the table of [__init__], an index [idx] of [0 .. _length - 1]
    is served from the shard at position [idx // n] of the order, at the
    offset [idx % n]: from the data in memory when that shard is the
    current one; otherwise, unless [idx] is the last index of its shard,
    the shard's file is loaded and shuffled, becomes the current shard,
    and the record at the offset is returned. The name of the current
    shard is changed before the file is loaded: when loading raises, the
    error comes out and the state names the new shard over the old
    data. *)
Theorem load_data_serves_offset (st : State E) (idx k k0 : Z) (j0 : nat) :
  0 <= idx < _length self ->
  nth_error order (Z.to_nat (idx / n)) = Some k ->
  nth_error order j0 = Some k0 ->
  current_shard_name st = shard_file k0 ->
  (k = k0 ->
   load_data E self st idx
   = (r <- Py.index (current_shard_data st) (idx mod n) ;; Ok (Some r),
      st)) /\
  (k <> k0 -> idx mod n <> n - 1 ->
   (forall data,
      load_ann_file E (PyStr.path_join (data_path self) (shard_file k))
      = Ok data ->
      load_data E self st idx
      = (r <- Py.index (fst (shuffle E Sample (random st) data))
                (idx mod n) ;;
         Ok (Some r),
         Build_State (shard_file k)
           (fst (shuffle E Sample (random st) data))
           (snd (shuffle E Sample (random st) data)))) /\
   (forall e,
      load_ann_file E (PyStr.path_join (data_path self) (shard_file k))
      = Raise e ->
      load_data E self st idx
      = (Raise e, Build_State (shard_file k) (current_shard_data st)
                    (random st)))).
Proof.
  intros Hidx Hk Hk0 Hname. split.
  - intros ->. exact (load_data_hot st idx k0 Hidx Hk Hname).
  - intros Hne Hgap.
    pose proof (load_data_swap st idx k k0 j0 Hidx Hk Hk0 Hname Hne Hgap)
      as Hswap.
    split; [intros data Hload|intros e Hload];
      rewrite Hload in Hswap; exact Hswap.
Qed.

(** X17. A failed change of shard leaves stale data behind. When
    [load_data] has to change to another shard and loading its file
    raises, the state already names the new shard while it still holds
    the records of the old one; so the next call for an index of the new
    shard, such as the retry of [__getitem__] at the following index,
    raises nothing and returns the record of the {e old} shard at the
    offset asked for. *)
Theorem failed_swap_serves_stale_data (st : State E) (idx idx' k k0 : Z)
  (j0 : nat) (e : exn) :
  0 <= idx < _length self -> 0 <= idx' < _length self ->
  nth_error order (Z.to_nat (idx / n)) = Some k ->
  nth_error order j0 = Some k0 ->
  current_shard_name st = shard_file k0 ->
  k <> k0 -> idx mod n <> n - 1 -> idx' / n = idx / n ->
  load_ann_file E (PyStr.path_join (data_path self) (shard_file k))
  = Raise e ->
  exists st1,
    load_data E self st idx = (Raise e, st1) /\
    current_shard_name st1 = shard_file k /\
    current_shard_data st1 = current_shard_data st /\
    load_data E self st1 idx'
    = (r <- Py.index (current_shard_data st) (idx' mod n) ;; Ok (Some r),
       st1).
Proof.
  intros Hidx Hidx' Hk Hk0 Hname Hne Hgap Hsame Hload.
  exists (Build_State (shard_file k) (current_shard_data st) (random st)).
  split.
  - rewrite (load_data_swap st idx k k0 j0 Hidx Hk Hk0 Hname Hne Hgap).
    now rewrite Hload.
  - split; [reflexivity|]. split; [reflexivity|].
    rewrite <- Hsame in Hk.
    exact (load_data_hot
             (Build_State (shard_file k) (current_shard_data st)
                (random st)) idx' k Hidx' Hk eq_refl).
Qed.

End OnTable.

End WithEnv.

Section AfterInit.
Variable E : Env.


End AfterInit.


Lemma load_data_serves_offset_witness :
  load_data Examples.env (Examples.small_dataset None) Examples.small_state 2
  = (Ok (Some (Examples.one_image_sample "c" [])), Examples.small_state).
Proof.
  destruct (load_data_serves_offset Examples.env
              (Examples.small_dataset None) 3 [0; 1] eq_refl ltac:(lia)
              ltac:(repeat constructor; cbn; intuition discriminate)
              ltac:(vm_compute; reflexivity)
              Examples.small_state 2 0 0 0%nat
              ltac:(vm_compute; split; [discriminate|reflexivity])
              eq_refl eq_refl eq_refl)
    as [Hhot _].
  rewrite (Hhot eq_refl).
  apply f_equal2; [vm_compute; reflexivity|reflexivity].
Defined.

Lemma failed_swap_serves_stale_data_witness :
  exists st1,
    load_data MoreExamples.offline_env (Examples.small_dataset None)
      MoreExamples.offline_state 3
    = (Raise (OSError "data/data0417_shuffled_shard_1.jsonl"), st1) /\
    load_data MoreExamples.offline_env (Examples.small_dataset None) st1 4
    = (Ok (Some (Examples.one_image_sample "b" [])), st1).
Proof.
  destruct (failed_swap_serves_stale_data MoreExamples.offline_env
              (Examples.small_dataset None) 3 [0; 1] eq_refl ltac:(lia)
              ltac:(repeat constructor; cbn; intuition discriminate)
              ltac:(vm_compute; reflexivity)
              MoreExamples.offline_state 3 4 1 0 0%nat
              (OSError "data/data0417_shuffled_shard_1.jsonl")
              ltac:(vm_compute; split; [discriminate|reflexivity])
              ltac:(vm_compute; split; [discriminate|reflexivity])
              eq_refl eq_refl eq_refl
              ltac:(discriminate) ltac:(vm_compute; discriminate)
              ltac:(vm_compute; reflexivity)
              ltac:(vm_compute; reflexivity))
    as (st1 & H1 & _ & _ & H2).
  exists st1. split; [exact H1|]. rewrite H2.
  apply f_equal2; [vm_compute; reflexivity|reflexivity].
Defined.

End ShardMore.

(** ** InterleavedDataset: the checks of a record, the images, the bundle *)

Module AssemblyMore.
Import InterleavedDataset AssemblyProofs.

Lemma list_set_middle {A : Type} (done : list A) v todo x :
  list_set (done ++ v :: todo) (length done) x = done ++ x :: todo.
Proof.
  induction done as [|d done IH]; cbn [app length list_set];
    [reflexivity|now rewrite IH].
Qed.

Lemma count_cons {A : Type} (p : A -> bool) x l :
  count p (x :: l) = Py.int_of_bool (p x) + count p l.
Proof.
  unfold count, Py.len. cbn [filter].
  destruct (p x); cbn [length Py.int_of_bool]; lia.
Qed.

Lemma count_nonneg {A : Type} (p : A -> bool) l : 0 <= count p l.
Proof. unfold count, Py.len. lia. Qed.

Section WithEnv.
Variable E : Env.

Lemma load_images_loop_inv (self : Dataset) (paths : list string) :
  forall (todo done : list bool) (loaded : list (Img E)) (c : Z),
    length paths = length todo -> c = Py.len loaded ->
    exists todo' more,
      load_images_loop E self (combine paths todo) (length done) loaded c
        (done ++ todo)
      = (loaded ++ more, done ++ todo') /\
      length todo' = length todo /\
      Py.len more = count (fun v : bool => v) todo' /\
      Forall2 (fun v' v : bool => v' = true -> v = true) todo' todo /\
      (Py.len loaded <= Z.max 0 (max_num_images self) ->
       Py.len (loaded ++ more) <= Z.max 0 (max_num_images self)) /\
      (forall img, In img more ->
         exists path, In path paths /\ image_open E path = Ok img).
Proof.
  induction paths as [|p paths IH]; intros [|v todo] done loaded c Hlen Hc;
    try discriminate; cbn [combine load_images_loop].
  - exists [], []. rewrite !app_nil_r.
    split; [reflexivity|]. split; [reflexivity|]. split; [reflexivity|].
    split; [constructor|]. split; [auto|intros img []].
  - injection Hlen as Hlen.
    assert (Hdone : forall b : bool,
              (done ++ [b]) ++ todo = done ++ b :: todo)
      by (intros b; now rewrite <- app_assoc).
    assert (Hskip :
      exists todo' more,
        load_images_loop E self (combine paths todo) (S (length done))
          loaded c (done ++ false :: todo)
        = (loaded ++ more, done ++ todo') /\
        length todo' = length (v :: todo) /\
        Py.len more = count (fun v : bool => v) todo' /\
        Forall2 (fun v' v : bool => v' = true -> v = true) todo'
                (v :: todo) /\
        (Py.len loaded <= Z.max 0 (max_num_images self) ->
         Py.len (loaded ++ more) <= Z.max 0 (max_num_images self)) /\
        (forall img, In img more ->
           exists path, In path (p :: paths) /\ image_open E path = Ok img)).
    { destruct (IH todo (done ++ [false]) loaded c Hlen Hc)
        as (todo' & more & Hrun & Hl & Hcount & Hmono & Hbound & Hfrom).
      rewrite length_app, Nat.add_1_r, Hdone in Hrun.
      exists (false :: todo'), more. rewrite Hrun, <- app_assoc.
      split; [reflexivity|]. split; [cbn; lia|].
      split; [rewrite count_cons; cbn; lia|].
      split; [constructor; [discriminate|exact Hmono]|].
      split; [exact Hbound|].
      intros img Hin. destruct (Hfrom img Hin) as (path & Hp & Ho).
      exists path. split; [now right|exact Ho]. }
    destruct v.
    + destruct (Z.geb_spec c (max_num_images self)) as [Hfull|Hroom].
      * rewrite list_set_middle.
        exact Hskip.
      * unfold load_image.
        destruct (image_open E p) as [im|err] eqn:Hopen.
        -- destruct (IH todo (done ++ [true]) (loaded ++ [im]) (c + 1) Hlen)
             as (todo' & more & Hrun & Hl & Hcount & Hmono & Hbound & Hfrom).
           { unfold Py.len. rewrite length_app. cbn [length].
             unfold Py.len in Hc. lia. }
           rewrite length_app, Nat.add_1_r, Hdone in Hrun.
           exists (true :: todo'), (im :: more).
           rewrite Hrun, <- !app_assoc. cbn [app].
           split; [reflexivity|]. split; [cbn; lia|].
           split; [rewrite count_cons; unfold Py.len in *; cbn [length];
                   cbn [Py.int_of_bool]; lia|].
           split; [constructor; [reflexivity|exact Hmono]|].
           split.
           ++ intros _. rewrite <- app_assoc in Hbound. cbn [app] in Hbound.
              apply Hbound. unfold Py.len in *. rewrite length_app.
              cbn [length]. lia.
           ++ intros img [<-|Hin]; [exists p; split; [now left|exact Hopen]|].
              destruct (Hfrom img Hin) as (path & Hp & Ho).
              exists path. split; [now right|exact Ho].
        -- rewrite list_set_middle.
           exact Hskip.
    + exact Hskip.
Qed.

(** X19. The loop of [getitem] that opens the images. For as many paths
    as there are validity flags, it ends with one flag per position as
    before; a flag is on afterwards only if it was on before; the images
    loaded are images that opened, from paths of the list; there are
    never more of them than [max_num_images]; and their number is the
    number of flags still on: each image kept has its ['<image>'] slot
    and each slot its image. *)
Theorem load_images_loop_counts (self : Dataset) (paths : list string)
  (valid : list bool) :
  length paths = length valid ->
  exists loaded valid',
    load_images_loop E self (combine paths valid) 0 [] 0 valid
    = (loaded, valid') /\
    length valid' = length valid /\
    Py.len loaded = count (fun v : bool => v) valid' /\
    (forall i, nth_error valid' i = Some true ->
               nth_error valid i = Some true) /\
    Py.len loaded <= Z.max 0 (max_num_images self) /\
    (forall img, In img loaded ->
       exists path, In path paths /\ image_open E path = Ok img).
Proof.
  intros Hlen.
  destruct (load_images_loop_inv self paths valid [] [] 0 Hlen eq_refl)
    as (valid' & loaded & Hrun & Hl & Hcount & Hmono & Hbound & Hfrom).
  cbn [app length] in Hrun, Hbound.
  exists loaded, valid'. split; [exact Hrun|]. split; [exact Hl|].
  split; [exact Hcount|]. split; [|split; [apply Hbound; cbn; lia|exact Hfrom]].
  clear -Hmono. induction Hmono as [|v' v l' l Hv _ IH]; intros [|i] Hi;
    cbn [nth_error] in *; try discriminate.
  - injection Hi as ->. now rewrite Hv.
  - now apply IH.
Qed.

Lemma load_images_loop_bound (self : Dataset) items :
  forall idx (loaded : list (Img E)) c valid,
    c = Py.len loaded ->
    Py.len loaded <= Z.max 0 (max_num_images self) ->
    Py.len (fst (load_images_loop E self items idx loaded c valid))
    <= Z.max 0 (max_num_images self).
Proof.
  induction items as [|[p v] items IH]; intros idx loaded c valid Hc Hb;
    cbn [load_images_loop fst]; [exact Hb|].
  destruct v; [|now apply IH].
  destruct (Z.geb_spec c (max_num_images self)); [now apply IH|].
  destruct (load_image E p); [|now apply IH].
  apply IH; unfold Py.len in *; rewrite length_app; cbn [length]; lia.
Qed.

Lemma mapM_assert {A : Type} (c : A -> bool) msg (l : list A) us :
  mapM (fun x => assert_ (c x) msg) l = Ok us ->
  forall x, In x l -> c x = true.
Proof.
  revert us. induction l as [|a l IH]; intros us H x Hx; [contradiction|].
  cbn [mapM] in H. unfold assert_ at 1 in H.
  destruct (c a) eqn:Ha; [|discriminate]. cbn [bind] in H.
  destruct (mapM _ l) as [us'|] eqn:Hl; [|discriminate].
  destruct Hx as [<-|Hx]; [exact Ha|]. now apply (IH us').
Qed.

Lemma nth_error_combine {A B : Type} (l : list A) :
  forall (l' : list B) i a b,
    nth_error l i = Some a -> nth_error l' i = Some b ->
    In (a, b) (combine l l').
Proof.
  induction l as [|x l IH]; intros [|y l'] [|i] a b Ha Hb;
    cbn [nth_error combine] in *; try discriminate.
  - injection Ha as ->. injection Hb as ->. now left.
  - right. now apply (IH l' i).
Qed.

(** X20. What [parse_sample] guarantees of what it returns: the images
    and texts are those of the record; there are as many texts as
    images; the number of images that are not [None], the number of
    texts that are [None] and the number of validity flags agree;
    wherever an image and a metadata entry stand at the same position,
    one is [None] exactly when the other is; a record without
    ['valid_image'] gets one [True] per image, a record without
    ['metadata'] one entry per image. The metadata list may still be
    shorter than the images: [zip] stops at the shorter one. *)
Theorem parse_sample_postconditions (sample : Sample)
  (imgs txts : list (option string)) (meta : list (option Meta))
  (valid : list bool) :
  parse_sample E (Some sample) = Ok (imgs, txts, meta, valid) ->
  imgs = images sample /\ txts = texts sample /\
  Py.len imgs = Py.len txts /\
  count is_some imgs = count is_none txts /\
  count is_none txts = Py.len valid /\
  (forall i img m,
     nth_error imgs i = Some img -> nth_error meta i = Some m ->
     is_none img = is_none m) /\
  (valid_image sample = None ->
   valid = List.repeat true (Z.to_nat (count is_some imgs))) /\
  (metadata sample = None -> length meta = length imgs).
Proof.
  unfold parse_sample. intros H.
  destruct (match metadata sample with
            | Some (MetaList l) => Ok (Some l)
            | Some (MetaStr s) => json_loads_metadata E s
            | None => _
            end) as [[l|]|] eqn:Hmeta; cbn [bind] in H; try discriminate.
  destruct (Z.eqb_spec (Py.len (images sample)) (Py.len (texts sample)))
    as [Hlen|]; cbn [assert_ bind] in H; [|discriminate].
  destruct (Z.eqb_spec (count is_some (images sample))
                       (count is_none (texts sample))) as [Hc1|];
    cbn [andb assert_ bind] in H; [|discriminate].
  destruct (Z.eqb_spec (count is_none (texts sample))
              (Py.len match valid_image sample with
                      | Some v => v
                      | None => List.repeat true
                                  (Z.to_nat (count is_some (images sample)))
                      end)) as [Hc2|];
    cbn [assert_ bind] in H; [|discriminate].
  destruct (mapM _ (combine (images sample) l)) as [us|] eqn:Hzip;
    cbn [bind] in H; [|discriminate].
  injection H as <- <- <- <-.
  split; [reflexivity|]. split; [reflexivity|]. split; [exact Hlen|].
  split; [exact Hc1|]. split; [exact Hc2|]. split; [|split].
  - intros i img m Hi Hm.
    pose proof (mapM_assert _ _ _ _ Hzip (img, m)
                  (nth_error_combine _ _ i img m Hi Hm)) as Hb.
    cbn [fst snd] in Hb. now apply eqb_prop in Hb.
  - intros ->. reflexivity.
  - intros Hnone. rewrite Hnone in Hmeta. injection Hmeta as <-.
    apply length_map.
Qed.

(** X21. The bundle [getitem] assembles. When [assemble] returns, the
    module-level tokenizer exists; [labels] is [input_ids] with -100 at
    every start-, end- and context-marker id and the token id elsewhere;
    [attention_mask] marks the ids that are not the pad id; the number
    of context-marker ids in [input_ids] is [num_image_token] times the
    number of images, which is at least one and at most
    [max_num_images]; [image_flags] is one 1 per image. *)
Theorem assemble_bundle_shape (self : Dataset) (sample : option Sample)
  (bundle : Bundle E) :
  assemble E self sample = Ok bundle ->
  exists tok,
    module_tokenizer E = Some tok /\
    labels bundle
    = map (fun t =>
             if (t =? convert_tokens_to_ids tok (IMG_START_TOKEN E))
                || (t =? convert_tokens_to_ids tok (IMG_END_TOKEN E))
                || (t =? convert_tokens_to_ids tok (IMG_CONTEXT_TOKEN E))
             then -100 else t) (input_ids bundle) /\
    attention_mask bundle
    = map (fun t => negb (t =? pad_token_id tok)) (input_ids bundle) /\
    count (fun t => t =? convert_tokens_to_ids tok (IMG_CONTEXT_TOKEN E))
          (input_ids bundle)
    = num_image_token self * Py.len (pixel_values bundle) /\
    1 <= Py.len (pixel_values bundle) <= max_num_images self /\
    image_flags bundle
    = List.repeat 1 (Z.to_nat (Py.len (pixel_values bundle))).
Proof.
  unfold assemble. intros H.
  destruct (parse_sample E sample) as [[[[imgs txts] meta] valid]|];
    cbn [bind] in H; [|discriminate].
  match type of H with
  | context [load_images_loop E self ?items 0 [] 0 valid] =>
      pose proof (load_images_loop_bound self items 0%nat [] 0 valid
                    eq_refl ltac:(cbn; lia)) as Hbound;
      destruct (load_images_loop E self items 0 [] 0 valid)
        as [loaded valid'] eqn:Hloop
  end.
  cbn [fst] in Hbound.
  destruct (Z.gtb_spec (Py.len loaded) 0) as [Hpos|];
    cbn [andb assert_ bind] in H; [|discriminate].
  destruct (negb _); cbn [assert_ bind] in H; [|discriminate].
  destruct (mark_image_slots txts 0 valid') as [txts'|];
    cbn [bind] in H; [|discriminate].
  destruct (module_tokenizer E) as [tok|]; cbn [bind] in H; [|discriminate].
  exists tok. split; [reflexivity|].
  unfold preprocess_image in H.
  assert (Hlen : Py.len (map (transform E) loaded) = Py.len loaded)
    by (unfold Py.len; now rewrite length_map).
  rewrite !Hlen in H.
  destruct (Z.eqb_spec
              (count (fun t => t =? convert_tokens_to_ids tok
                                      (IMG_CONTEXT_TOKEN E))
                     (encode (self_tokenizer E)
                        (assemble_text E self txts' (Py.len loaded))
                        (model_max_length tok)))
              (num_image_token self * Py.len loaded)) as [Hcount|];
    cbn [assert_ bind] in H; [|discriminate].
  injection H as <-.
  cbn [labels input_ids attention_mask pixel_values image_flags].
  rewrite Hlen. split; [apply mask_id_three|]. split; [reflexivity|].
  split; [exact Hcount|]. split; [lia|reflexivity].
Qed.

Lemma mark_image_slots_inv (texts : list (option string)) :
  forall done todo : list bool,
    count is_none texts = Py.len todo ->
    exists texts',
      mark_image_slots texts (Z.of_nat (length done)) (done ++ todo)
      = Ok texts' /\
      length texts' = length texts /\
      (forall i t, nth_error texts i = Some (Some t) ->
                   nth_error texts' i = Some (Some t)) /\
      (forall i, nth_error texts i = Some None ->
                 nth_error texts' i = Some None \/
                 nth_error texts' i = Some (Some "<image>")) /\
      count is_none texts' = count negb todo.
Proof.
  induction texts as [|[t|] texts IH]; intros done todo Hc;
    cbn [mark_image_slots].
  - exists []. destruct todo; [|discriminate].
    repeat split; auto; intros [|i]; discriminate.
  - rewrite count_cons in Hc.
    change (Py.int_of_bool (is_none (Some t))) with 0 in Hc.
    rewrite Z.add_0_l in Hc.
    destruct (IH done todo Hc) as (texts' & -> & Hl & Hsome & Hnone & Hcount).
    exists (Some t :: texts'). cbn [bind length].
    split; [reflexivity|]. split; [now rewrite Hl|].
    split; [|split].
    + intros [|i] t'; cbn [nth_error]; [auto|apply Hsome].
    + intros [|i]; cbn [nth_error]; [discriminate|apply Hnone].
    + rewrite count_cons.
      change (Py.int_of_bool (is_none (Some t))) with 0. lia.
  - rewrite count_cons in Hc.
    change (Py.int_of_bool (is_none (@None string))) with 1 in Hc.
    destruct todo as [|v todo];
      [pose proof (count_nonneg is_none texts);
       change (Py.len (@nil bool)) with 0 in Hc; lia|].
    rewrite ShardIndexProofs.index_middle. cbn [bind].
    assert (Hc' : count is_none texts = Py.len todo)
      by (unfold Py.len in *; cbn [length] in Hc; lia).
    destruct (IH (done ++ [v]) todo Hc')
      as (texts' & Hrun & Hl & Hsome & Hnone & Hcount).
    rewrite length_app, Nat.add_1_r, <- app_assoc in Hrun. cbn [app] in Hrun.
    replace (Z.of_nat (length done) + 1) with (Z.of_nat (S (length done)))
      by lia.
    rewrite Hrun. cbn [bind].
    exists ((if v then Some "<image>" else None) :: texts').
    split; [reflexivity|]. split; [cbn [length]; now rewrite Hl|].
    split; [|split].
    + intros [|i] t'; cbn [nth_error]; [discriminate|apply Hsome].
    + intros [|i]; cbn [nth_error]; [destruct v; auto|apply Hnone].
    + rewrite !count_cons, Hcount. destruct v; reflexivity.
Qed.

Lemma mark_image_slots_short (texts : list (option string)) :
  forall valid done : list bool,
    Py.len valid < count is_none texts ->
    mark_image_slots texts (Z.of_nat (length done)) (done ++ valid)
    = Raise IndexError.
Proof.
  induction texts as [|[t|] texts IH]; intros valid done Hc;
    cbn [mark_image_slots].
  - exfalso. unfold Py.len, count, Py.len in Hc. cbn in Hc. lia.
  - rewrite count_cons in Hc.
    change (Py.int_of_bool (is_none (Some t))) with 0 in Hc.
    now rewrite (IH valid done) by lia.
  - rewrite count_cons in Hc.
    change (Py.int_of_bool (is_none (@None string))) with 1 in Hc.
    destruct valid as [|v valid].
    + rewrite app_nil_r.
      assert (Hidx : Py.index done (Z.of_nat (length done))
                     = Raise IndexError).
      { unfold Py.index, Py.len.
        destruct (Z.ltb_spec (Z.of_nat (length done)) 0); [lia|].
        destruct (Z.ltb_spec (Z.of_nat (length done)) 0); [lia|].
        now rewrite Z.leb_refl. }
      now rewrite Hidx.
    + rewrite ShardIndexProofs.index_middle. cbn [bind].
      replace (Z.of_nat (length done) + 1)
        with (Z.of_nat (length (done ++ [v])))
        by (rewrite length_app; cbn [length]; lia).
      replace (done ++ v :: valid) with ((done ++ [v]) ++ valid)
        by now rewrite <- app_assoc.
      rewrite (IH valid (done ++ [v]));
        [reflexivity|unfold Py.len in *; cbn [length] in Hc; lia].
Qed.


Lemma assemble_needs_module_tokenizer (self : Dataset)
  (sample : option Sample) :
  module_tokenizer E = None ->
  exists e, assemble E self sample = Raise e.
Proof.
  intros Htok. unfold assemble.
  destruct (parse_sample E sample) as [[[[imgs txts] meta] valid]|e];
    cbn [bind]; [|eauto].
  match goal with
  | |- context [load_images_loop E self ?items 0 [] 0 valid] =>
      destruct (load_images_loop E self items 0 [] 0 valid)
        as [loaded valid']
  end.
  destruct (assert_ _ EmptyString) as [u|e]; cbn [bind]; [|eauto].
  destruct (mark_image_slots txts 0 valid') as [txts'|e]; cbn [bind];
    [|eauto].
  rewrite Htok. cbn [bind]. eauto.
Qed.

(** X23. The retry loop of [InterleavedDataset.__getitem__] on a dataset
    built without [train_num_samples] and of non-zero length: no
    exception leaves it; after [k] failed attempts, each followed by the
    step to [(index + 1) % len(self)], the first index that assembles
    gives the result; and where the module-level name [tokenizer] is not
    bound (the file imported, not run as a script) every attempt ends in
    a [NameError] that the loop swallows, so the call returns for no
    index: however many rounds are allowed, the loop has not ended. *)
Theorem getitem_retry_loop (self : Dataset) :
  train_num_samples self = None -> _length self <> 0 ->
  (forall fuel st index e,
     fst (__getitem__ E fuel self st index) <> Some (Raise e)) /\
  (forall k st index st1 index1 item st2 fuel,
     failed_attempts E self k st index st1 index1 ->
     getitem E self st1 index1 = (Ok item, st2) ->
     (k < fuel)%nat ->
     __getitem__ E fuel self st index = (Some (Ok item), st2)) /\
  (module_tokenizer E = None ->
   forall fuel st index, fst (__getitem__ E fuel self st index) = None).
Proof.
  intros Hn HL. split; [|split].
  - now apply getitem_never_raises.
  - now apply getitem_returns_first_success.
  - intros Htok. induction fuel as [|fuel IH]; intros st index;
      cbn [__getitem__]; [reflexivity|].
    assert (Hfail : exists e st', getitem E self st index = (Raise e, st')).
    { unfold getitem.
      destruct (load_data E self st index) as [[sample|e] st']; [|eauto].
      destruct (assemble_needs_module_tokenizer self sample Htok)
        as (e & ->). eauto. }
    destruct Hfail as (e & st' & ->).
    unfold __len__, Py.mod_. rewrite Hn. cbn [bind].
    destruct (Z.eqb_spec (_length self) 0) as [?|_]; [contradiction|].
    apply IH.
Qed.

End WithEnv.

Lemma load_images_loop_counts_witness :
  exists loaded valid',
    load_images_loop Examples.env (Examples.small_dataset None)
      (combine ["a.ok"; "b.jpg"; "c.ok"] [true; true; false]) 0 [] 0
      [true; true; false]
    = (loaded, valid') /\
    Py.len loaded = count (fun v : bool => v) valid'.
Proof.
  destruct (load_images_loop_counts Examples.env
              (Examples.small_dataset None) ["a.ok"; "b.jpg"; "c.ok"]
              [true; true; false] eq_refl)
    as (loaded & valid' & Hrun & _ & Hcount & _).
  exists loaded, valid'. split; [exact Hrun|exact Hcount].
Defined.

Lemma parse_sample_postconditions_witness :
  Py.len [Some "a"; None] = Py.len [None; Some "caption"] /\
  count is_some [Some "a"; None] = count is_none [None; Some "caption"].
Proof.
  destruct (parse_sample_postconditions Examples.env
              (Examples.one_image_sample "a" [])
              [Some "a"; None] [None; Some "caption"] [Some []; None] [true]
              eq_refl)
    as (_ & _ & Hlen & Hc & _).
  split; [exact Hlen|exact Hc].
Defined.

Lemma assemble_bundle_shape_witness :
  exists bundle,
    assemble Examples.env (Examples.small_dataset None)
      (Some (Examples.one_image_sample "b" [])) = Ok bundle /\
    1 <= Py.len (pixel_values bundle) <= 6.
Proof.
  destruct (assemble Examples.env (Examples.small_dataset None)
              (Some (Examples.one_image_sample "b" [])))
    as [bundle|e] eqn:Hrun; [|vm_compute in Hrun; discriminate].
  exists bundle. split; [reflexivity|].
  destruct (assemble_bundle_shape Examples.env (Examples.small_dataset None)
              (Some (Examples.one_image_sample "b" [])) bundle Hrun)
    as (tok & _ & _ & _ & _ & Hn & _).
  exact Hn.
Defined.


Lemma getitem_retry_loop_witness :
  fst (__getitem__ Examples.env 2 (Examples.small_dataset None)
         Examples.small_state 5)
  <> Some (Raise TypeError).
Proof.
  exact (proj1 (getitem_retry_loop Examples.env
                  (Examples.small_dataset None) eq_refl
                  ltac:(discriminate))
           2%nat Examples.small_state 5 TypeError).
Defined.

End AssemblyMore.

(** ** InternVLChatConfig: the architecture decides *)

Module ConfigProofs.
Import InternVLChatConfig.

Section Init.
Variable VisionDict : Type.
Variable Others : Type.
Variable Vision : Type.
Variable Llama : Type.
Variable InternLM2 : Type.
Variable Kwargs : Type.
Variable empty_vision : VisionDict.
Variable empty_others : Others.
Variable super_init : Kwargs -> res unit.
Variable InternVisionConfig : VisionDict -> res Vision.
Variable LlamaConfig : LlmDict Others -> res Llama.
Variable InternLM2Config : LlmDict Others -> res InternLM2.

Notation init :=
  (__init__ VisionDict Others Vision Llama InternLM2 Kwargs empty_vision
     empty_others super_init InternVisionConfig LlamaConfig InternLM2Config).

Notation vision_dict_of vision :=
  (match vision with
   | Some d => d
   | None => empty_vision
   end).

(** X24. [InternVLChatConfig.__init__] cannot be called with its own
    default [llm_config=None]: the empty dictionary put in its place has
    no ['architectures'], and once the parent and the vision
    configuration are built the constructor raises
    [KeyError('architectures')]; no [LlamaConfig] with default values is
    made. A configuration comes out only for a dictionary whose first
    architecture is ['LlamaForCausalLM'] or ['InternLM2ForCausalLM'];
    that first entry alone selects the class, and the settings are
    stored as given; any other first entry raises the [ValueError] that
    names it. *)
Theorem init_needs_architecture (vision : option VisionDict)
  (s : Settings) (kwargs : Kwargs) :
  (exists r, init vision None s kwargs = inl r) /\
  (forall u v,
     super_init kwargs = Ok u ->
     InternVisionConfig (vision_dict_of vision) = Ok v ->
     init vision None s kwargs = inl (KeyError_ "architectures")) /\
  (forall llm cfg,
     init vision (Some llm) s kwargs = inr cfg ->
     settings cfg = s /\
     exists a rest,
       architectures llm = Some (a :: rest) /\
       ((a = "LlamaForCausalLM" /\
         exists c, LlamaConfig llm = Ok c /\ llm_config cfg = IsLlama c) \/
        (a = "InternLM2ForCausalLM" /\
         exists c, InternLM2Config llm = Ok c /\
                   llm_config cfg = IsInternLM2 c))) /\
  (forall llm u v a rest,
     super_init kwargs = Ok u ->
     InternVisionConfig (vision_dict_of vision) = Ok v ->
     architectures llm = Some (a :: rest) ->
     a <> "LlamaForCausalLM" -> a <> "InternLM2ForCausalLM" ->
     init vision (Some llm) s kwargs
     = inl (ValueError_ ("Unsupported architecture: " +++ a))).
Proof.
  unfold __init__, first_architecture.
  split; [|split; [|split]].
  - destruct (super_init kwargs) as [u|]; [|eauto].
    destruct (InternVisionConfig _) as [v|]; cbn; eauto.
  - intros u v -> ->. reflexivity.
  - intros llm cfg.
    destruct (super_init kwargs) as [u|]; [|discriminate].
    destruct (InternVisionConfig _) as [v|]; [|discriminate].
    destruct (architectures llm) as [[|a rest]|]; try discriminate.
    intros H. split.
    + destruct (String.eqb a "LlamaForCausalLM");
        [|destruct (String.eqb a "InternLM2ForCausalLM")];
        [destruct (LlamaConfig llm)|destruct (InternLM2Config llm)|];
        try discriminate; injection H as <-; reflexivity.
    + exists a, rest. split; [reflexivity|].
      destruct (String.eqb_spec a "LlamaForCausalLM") as [->|_].
      * left. split; [reflexivity|].
        destruct (LlamaConfig llm) as [c|]; [|discriminate].
        injection H as <-. eauto.
      * destruct (String.eqb_spec a "InternLM2ForCausalLM") as [->|_];
          [|discriminate].
        right. split; [reflexivity|].
        destruct (InternLM2Config llm) as [c|]; [|discriminate].
        injection H as <-. eauto.
  - intros llm u v a rest -> -> -> Ha Hb.
    destruct (String.eqb_spec a "LlamaForCausalLM"); [contradiction|].
    destruct (String.eqb_spec a "InternLM2ForCausalLM"); [contradiction|].
    reflexivity.
Qed.

End Init.

Lemma init_needs_architecture_witness :
  __init__ unit unit unit unit unit unit tt tt
    (fun _ => Ok tt) (fun _ => Ok tt) (fun _ => Ok tt) (fun _ => Ok tt)
    None None
    {| use_backbone_lora := 0; use_llm_lora := 0; pad2square := false;
       select_layer := -4; force_image_size := None;
       downsample_ratio := 0.5%float; template := None;
       image_fold := false; dynamic_image_size := false;
       use_thumbnail := false |} tt
  = inl (KeyError_ "architectures").
Proof.
  apply (proj1 (proj2 (init_needs_architecture unit unit unit unit unit
                         unit tt tt (fun _ => Ok tt) (fun _ => Ok tt)
                         (fun _ => Ok tt) (fun _ => Ok tt) None _ tt))
           tt tt); reflexivity.
Defined.

End ConfigProofs.

(** ** The evaluation loop: one answer per batch *)

Module EvalLoopProofs.
Import EvalLoop.

Section Loop.
Variable Pixels : Type.
Variable Box : Type.
Variable chat : list Pixels -> string -> string.

Lemma round_first (outputs : list (Output Box)) (first : Item Pixels Box)
  (others : list (Item Pixels Box)) :
  round Pixels Box chat outputs (first :: others)
  = Ok (outputs
        ++ [{| answer := chat (map pixel_values (first :: others))
                           (text first);
               gt_bbox := bbox first;
               out_hw := hw first |}]).
Proof.
  unfold round, collate_fn. cbn [map].
  assert (Hq : Py.index (text first :: map text others) 0
               = Ok (text first)).
  { unfold Py.index, Py.len. cbn [length].
    change (0 <? 0) with false. cbv iota.
    destruct (Z.leb_spec (Z.of_nat (S (length (map text others)))) 0);
      [lia|reflexivity]. }
  rewrite Hq. cbn [bind zip3 map].
  replace (zip3 (map bbox others) (map hw others) (@nil string))
    with (@nil (Box * (Z * Z) * string))
    by (destruct (map bbox others); destruct (map hw others); reflexivity).
  reflexivity.
Qed.

Lemma rounds_outputs (batches : list (list (Item Pixels Box))) :
  forall outputs,
    (forall batch, In batch batches -> batch <> []) ->
    exists outs,
      rounds Pixels Box chat batches outputs = Ok (outputs ++ outs) /\
      Forall2 (output_of Pixels Box chat) batches outs.
Proof.
  induction batches as [|batch batches IH]; intros outputs Hne;
    cbn [rounds].
  - exists []. rewrite app_nil_r. split; [reflexivity|constructor].
  - destruct batch as [|first others];
      [exfalso; now apply (Hne [] (or_introl eq_refl))|].
    rewrite round_first. cbn [bind].
    destruct (IH (outputs ++ [{| answer := chat (map pixel_values
                                                   (first :: others))
                                              (text first);
                                 gt_bbox := bbox first;
                                 out_hw := hw first |}]))
      as (outs & -> & Hall); [intros b Hb; apply Hne; now right|].
    eexists (_ :: outs). rewrite <- app_assoc. split; [reflexivity|].
    constructor; [|exact Hall]. now exists first, others.
Qed.

Lemma rounds_app (b1 b2 : list (list (Item Pixels Box))) :
  forall outputs,
    rounds Pixels Box chat (b1 ++ b2) outputs
    = match rounds Pixels Box chat b1 outputs with
      | Ok o => rounds Pixels Box chat b2 o
      | Raise e => Raise e
      end.
Proof.
  induction b1 as [|batch b1 IH]; intros outputs; cbn [app rounds];
    [reflexivity|].
  destruct (round Pixels Box chat outputs batch); cbn [bind];
    [apply IH|reflexivity].
Qed.


End Loop.


End EvalLoopProofs.
